(** * AI Web Pilot: policy engine, command bridge and tool dispatcher

    A shallow embedding of the host side of AI Web Pilot:
    - [DataRedactor]   (host/data-redaction.ts)
    - [RateLimiter]    (host/rate-limiter.ts)
    - [PolicyEngine]   (host/policy-engine.ts)
    - [WebSocketBridge] (host/bridge.ts)
    - [MCPToolRegistry] (host/mcp-tools.ts)

    JavaScript strings are modelled as [string]: sequences of code units
    below 256, that is ASCII and Latin-1 text; a string with a code unit
    beyond is outside the model. Numbers that the code uses as counters or
    millisecond timestamps are modelled as [Z],
    [Map]s whose iteration order is irrelevant as [gmap], objects whose
    property order matters as association lists. *)

From Stdlib Require Import ZArith Ascii String List Bool Lia DecimalString.
From stdpp Require Import base option gmap strings list.

Local Open Scope string_scope.
Local Open Scope Z_scope.

(** ** JavaScript string primitives *)

Module JsString.

Definition chars (s : string) : list ascii := list_ascii_of_string s.
Definition of_chars (l : list ascii) : string := string_of_list_ascii l.

Definition code (c : ascii) : nat := nat_of_ascii c.

Definition in_range (lo hi : nat) (c : ascii) : bool :=
  (lo <=? code c)%nat && (code c <=? hi)%nat.

(** [String.prototype.toLowerCase] on code units below 256: ASCII capitals
    and the Latin-1 capitals (all of U+00C0..U+00DE but the sign U+00D7). *)
Definition lower_char (c : ascii) : ascii :=
  if in_range 65 90 c
     || (in_range 192 222 c && negb (code c =? 215)%nat)
  then ascii_of_nat (code c + 32) else c.

Fixpoint toLowerCase (s : string) : string :=
  match s with
  | EmptyString => EmptyString
  | String c r => String (lower_char c) (toLowerCase r)
  end.

Fixpoint startsWith (s p : string) : bool :=
  match p, s with
  | EmptyString, _ => true
  | String _ _, EmptyString => false
  | String a p', String b s' => Ascii.eqb a b && startsWith s' p'
  end.

(** [s.includes(p)] *)
Fixpoint includes (s p : string) : bool :=
  startsWith s p ||
  match s with
  | EmptyString => false
  | String _ s' => includes s' p
  end.

(** [s.slice(n)] for [0 <= n]. *)
Fixpoint slice (n : nat) (s : string) : string :=
  match n, s with
  | O, _ => s
  | S n', String _ s' => slice n' s'
  | S _, EmptyString => EmptyString
  end.

(** [s.endsWith(p)]: [p] is the tail of [s] of the same length. *)
Definition endsWith (s p : string) : bool :=
  (String.length p <=? String.length s)%nat
  && String.eqb (slice (String.length s - String.length p) s) p.

(** ["*".repeat(n)] *)
Fixpoint repeat (c : ascii) (n : nat) : list ascii :=
  match n with O => [] | S n' => c :: repeat c n' end.

(** Decimal rendering of an integer, as in a template literal. *)
Definition of_Z (z : Z) : string := NilZero.string_of_int (Z.to_int z).
Definition of_nat (n : nat) : string := NilZero.string_of_uint (Nat.to_uint n).

(** JavaScript truthiness of a string. *)
Definition truthy (s : string) : bool := negb (String.eqb s "").

End JsString.

(** ** The fragment of ECMAScript regular expressions used by the redactor

    A backtracking matcher in continuation-passing style, following the
    matcher semantics of the language specification: greedy quantifiers, an
    iteration of a satisfied quantifier that consumes nothing is rejected,
    [\b] looks at the code units on both sides of the position. *)

Module Regex.

Inductive re : Type :=
| Cls (p : ascii -> bool)                 (* a class or a single character *)
| Seq (r1 r2 : re)
| Rep (r : re) (min : nat) (max : option nat)   (* r{min,max}, greedy *)
| WordB.                                   (* \b *)

Definition is_digit (c : ascii) : bool := JsString.in_range 48 57 c.
Definition is_upper (c : ascii) : bool := JsString.in_range 65 90 c.
Definition is_lower (c : ascii) : bool := JsString.in_range 97 122 c.
Definition is_alnum (c : ascii) : bool := is_upper c || is_lower c || is_digit c.
(** [\w] *)
Definition is_word (c : ascii) : bool := is_alnum c || Ascii.eqb c "_".
(** [\s] restricted to code units below 256. *)
Definition is_space (c : ascii) : bool :=
  JsString.in_range 9 13 c || Ascii.eqb c " " || (JsString.code c =? 160)%nat.
Definition one_of (s : string) (c : ascii) : bool :=
  existsb (Ascii.eqb c) (JsString.chars s).
Definition chr (a : ascii) : re := Cls (Ascii.eqb a).

Fixpoint lit (s : string) : re :=
  match s with
  | EmptyString => Rep (Cls (fun _ => true)) 0 (Some 0%nat)
  | String a EmptyString => chr a
  | String a r => Seq (chr a) (lit r)
  end.

Definition opt (r : re) : re := Rep r 0 (Some 1%nat).
Definition exactly (n : nat) (r : re) : re := Rep r n (Some n).
Definition at_least (n : nat) (r : re) : re := Rep r n None.

Section Matcher.
Variable input : list ascii.

Definition word_at (i : nat) : bool :=
  match nth_error input i with Some c => is_word c | None => false end.

Definition at_boundary (i : nat) : bool :=
  xorb (match i with O => false | S j => word_at j end) (word_at i).

(** [m r i k]: match [r] at index [i], then continue with [k] at the index
    reached; [None] is failure, which makes the caller backtrack. *)
Fixpoint m (r : re) (i : nat) (k : nat -> option nat) {struct r} : option nat :=
  match r with
  | Cls p =>
      match nth_error input i with
      | Some c => if p c then k (S i) else None
      | None => None
      end
  | Seq r1 r2 => m r1 i (fun j => m r2 j k)
  | WordB => if at_boundary i then k i else None
  | Rep r1 mn mx =>
      (fix loop (budget mn : nat) (i : nat) {struct budget} : option nat :=
         match budget with
         | O => k i
         | S budget' =>
             match m r1 i (fun j =>
                     if (mn =? 0)%nat && (j =? i)%nat then None
                     else loop budget' (Nat.pred mn) j) with
             | Some e => Some e
             | None => if (mn =? 0)%nat then k i else None
             end
         end)
        (match mx with
         | Some n => n
         | None => (mn + S (List.length input))%nat
         end) mn i
  end.

Definition match_at (r : re) (i : nat) : option nat := m r i (fun j => Some j).

(** Leftmost match starting at or after [i]: [(start, end)]. *)
Fixpoint search_from (r : re) (fuel i : nat) : option (nat * nat) :=
  match match_at r i with
  | Some e => Some (i, e)
  | None =>
      match fuel with
      | O => None
      | S fuel' => search_from r fuel' (S i)
      end
  end.

(** [RegExp.prototype.exec] of a global, non-sticky expression whose
    [lastIndex] is [lastIndex]. *)
Definition exec (r : re) (lastIndex : nat) : option (nat * nat) :=
  if (List.length input <? lastIndex)%nat then None
  else search_from r (List.length input - lastIndex) lastIndex.
End Matcher.

(** [pattern.test(s)] for a global expression: the result and the new
    [lastIndex]. *)
Definition test (r : re) (lastIndex : nat) (s : string) : bool * nat :=
  match exec (JsString.chars s) r lastIndex with
  | Some (_, e) => (true, e)
  | None => (false, O)
  end.

(** [s.replace(pattern, f)] for a global expression: every match, scanning
    from index 0, is replaced by [f match]; after an empty match the scan
    advances by one code unit. *)
Fixpoint replace_from (r : re) (f : list ascii -> list ascii)
         (input : list ascii) (fuel pos copied : nat) : list ascii :=
  match fuel with
  | O => skipn copied input
  | S fuel' =>
      match exec input r pos with
      | None => skipn copied input
      | Some (st, e) =>
          firstn (st - copied) (skipn copied input)
          ++ f (firstn (e - st) (skipn st input))
          ++ replace_from r f input fuel'
               (if (e =? st)%nat then S e else e) e
      end
  end.

Definition replace (r : re) (f : list ascii -> list ascii) (s : string) : string :=
  let input := JsString.chars s in
  JsString.of_chars (replace_from r f input (S (List.length input)) 0 0).

End Regex.

(** ** JSON-like values: the [unknown] of the TypeScript sources *)

#[local] Unset Elimination Schemes.
Inductive value : Type :=
| VUndefined
| VNull
| VBool (b : bool)
| VNum (n : Z)           (* numbers are opaque to the code modelled here *)
| VStr (s : string)
| VArr (items : list value)
| VObj (props : list (string * value)).   (* own properties, in property order *)
#[local] Set Elimination Schemes.

Module Js.

(** [typeof v === "object" && v !== null] *)
Definition is_object (v : value) : bool :=
  match v with VArr _ | VObj _ => true | _ => false end.

Definition truthy (v : value) : bool :=
  match v with
  | VUndefined | VNull => false
  | VBool b => b
  | VNum n => negb (n =? 0)%Z
  | VStr s => JsString.truthy s
  | VArr _ | VObj _ => true
  end.

(** [obj[key]] on own properties. *)
Fixpoint get (props : list (string * value)) (key : string) : value :=
  match props with
  | [] => VUndefined
  | (k, v) :: rest => if String.eqb k key then v else get rest key
  end.

(** [obj[key] = v]: an existing property keeps its place, a new one goes
    last; assigning to [__proto__] creates no own property. *)
Fixpoint update (props : list (string * value)) (key : string) (v : value)
  : option (list (string * value)) :=
  match props with
  | [] => None
  | (k, x) :: rest =>
      if String.eqb k key then Some ((k, v) :: rest)
      else option_map (cons (k, x)) (update rest key v)
  end.

Definition set (props : list (string * value)) (key : string) (v : value)
  : list (string * value) :=
  if String.eqb key "__proto__" then props
  else match update props key v with
       | Some props' => props'
       | None => props ++ [(key, v)]
       end.

(** [key in obj] for an own property. *)
Definition hasOwn (props : list (string * value)) (key : string) : bool :=
  existsb (fun kv => String.eqb (fst kv) key) props.

(** [String(v)], as applied by [RegExp.prototype.test] to its argument;
    [None] when the conversion throws a [TypeError]. An object is converted
    by its [toString] method, else by its [valueOf] method. No value here
    is a function, so an object that has a [toString] property of its own
    has no such method, and [valueOf], its own or the inherited one, yields
    no primitive: the conversion throws. Every other object inherits
    [Object.prototype.toString]. An array is joined, each item converted
    in its turn. *)
Fixpoint toString (v : value) : option string :=
  match v with
  | VUndefined => Some "undefined"
  | VNull => Some "null"
  | VBool true => Some "true"
  | VBool false => Some "false"
  | VNum n => Some (JsString.of_Z n)
  | VStr s => Some s
  | VObj props => if hasOwn props "toString" then None else Some "[object Object]"
  | VArr items =>
      (fix join (first : bool) (l : list value) : option string :=
         match l with
         | [] => Some ""
         | x :: l' =>
             match (match x with
                    | VUndefined | VNull => Some ""
                    | _ => toString x
                    end), join false l' with
             | Some s, Some rest => Some ((if first then "" else ",") ++ s ++ rest)
             | _, _ => None
             end
         end) true items
  end.

(** The keys of an object built by assignments: no key twice, and none is
    [__proto__]. *)
Definition cleanKeys (l : list (string * value)) : Prop :=
  NoDup (map fst l) /\ ~ In "__proto__" (map fst l).

End Js.

(** ** DataRedactor (host/data-redaction.ts) *)

Module DataRedactor.
Import Regex.

Fixpoint seq (rs : list re) : re :=
  match rs with
  | [] => lit ""
  | [r] => r
  | r :: rs' => Seq r (seq rs')
  end.

Definition digit : re := Cls is_digit.
Definition alnum : re := Cls is_alnum.
Definition upper_or_digit : re := Cls (fun c => is_upper c || is_digit c).
(** [[\s-]] and [[-.\s]] *)
Definition space_or_dash : re := Cls (fun c => is_space c || one_of "-" c).
Definition phone_sep : re := Cls (fun c => one_of "-." c || is_space c).

(** The value-shape patterns of the constructor, in source order. Each is
    created with the [g] flag, so each carries a [lastIndex]. *)
Definition creditCard : re :=
  seq [WordB; exactly 4 digit; opt space_or_dash; exactly 4 digit;
       opt space_or_dash; exactly 4 digit; opt space_or_dash;
       exactly 4 digit; WordB].
Definition ssn : re :=
  seq [WordB; exactly 3 digit; opt (chr "-"); exactly 2 digit;
       opt (chr "-"); exactly 4 digit; WordB].
Definition phone : re :=
  seq [WordB; opt (seq [lit "+1"; opt phone_sep]); opt (chr "(");
       exactly 3 digit; opt (chr ")"); opt phone_sep; exactly 3 digit;
       opt phone_sep; exactly 4 digit; WordB].
Definition email : re :=
  seq [WordB; at_least 1 (Cls (fun c => is_alnum c || one_of "._%+-" c));
       chr "@"; at_least 1 (Cls (fun c => is_alnum c || one_of ".-" c));
       chr "."; at_least 2 (Cls (fun c => is_upper c || one_of "|" c || is_lower c));
       WordB].
Definition iban : re :=
  seq [WordB; exactly 2 (Cls is_upper); exactly 2 digit;
       exactly 4 upper_or_digit; exactly 7 digit;
       Rep (opt upper_or_digit) 0 (Some 16%nat); WordB].
Definition cvv : re := seq [WordB; Rep digit 3 (Some 4%nat); WordB].
Definition longToken : re := seq [WordB; at_least 32 alnum; WordB].
Definition stripeSecret : re := seq [lit "sk_"; at_least 24 alnum].
Definition stripePublic : re := seq [lit "pk_"; at_least 24 alnum].
Definition githubPat : re := seq [lit "ghp_"; exactly 36 alnum].
Definition githubOauth : re := seq [lit "gho_"; exactly 36 alnum].

Definition valuePatterns : list re :=
  [creditCard; ssn; phone; email; iban; cvv; longToken;
   stripeSecret; stripePublic; githubPat; githubOauth].

(** [new RegExp(source, "i")] for a source without metacharacters, which
    is the case of every entry of [SENSITIVE_FIELD_PATTERNS]. *)
Definition fold_case (c : ascii) : ascii :=
  if is_upper c then ascii_of_nat (JsString.code c + 32) else c.
Fixpoint lit_i (s : string) : re :=
  match s with
  | EmptyString => lit ""
  | String a EmptyString => Cls (fun c => Ascii.eqb (fold_case c) (fold_case a))
  | String a r => Seq (Cls (fun c => Ascii.eqb (fold_case c) (fold_case a))) (lit_i r)
  end.

Definition SENSITIVE_FIELD_PATTERNS : list string :=
  ["password"; "passwd"; "pwd"; "secret"; "token"; "key"; "card"; "cvv";
   "cvc"; "ssn"; "iban"; "phone"; "email"].

(** The instance state: the [lastIndex] of each value pattern, and the
    field-name expressions (not global, hence stateless). Custom patterns
    are given as the expressions [new RegExp(pattern, "i")] compiles. *)
Record t : Type := mk {
  sensitivePatterns : list (re * nat);
  sensitiveFieldPatterns : list re
}.

Definition new (customPatterns : list re) : t :=
  {| sensitivePatterns := map (fun r => (r, O)) valuePatterns;
     sensitiveFieldPatterns := map lit_i SENSITIVE_FIELD_PATTERNS ++ customPatterns |}.

(** A non-global [test]: a match anywhere, from index 0. *)
Definition test_anywhere (r : re) (s : string) : bool :=
  let input := JsString.chars s in
  match search_from input r (List.length input) 0 with
  | Some _ => true
  | None => false
  end.

Definition isSensitiveField (d : t) (fieldName : string) : bool :=
  existsb (fun r => test_anywhere r fieldName) (sensitiveFieldPatterns d).

(** [this.sensitivePatterns.some(p => p.test(value))]: the patterns are
    tried in order up to the first that matches, each [test] starting at
    that pattern's [lastIndex] and leaving it updated. *)
Fixpoint some_test (ps : list (re * nat)) (s : string) : bool * list (re * nat) :=
  match ps with
  | [] => (false, [])
  | (r, li) :: rest =>
      let '(b, li') := test r li s in
      if b then (true, (r, li') :: rest)
      else let '(b', rest') := some_test rest s in (b', (r, li') :: rest')
  end.

Definition containsSensitiveData (d : t) (v : string) : bool * t :=
  let '(b, ps) := some_test (sensitivePatterns d) v in
  (b, {| sensitivePatterns := ps; sensitiveFieldPatterns := sensitiveFieldPatterns d |}).

(** The replacement callback of [redactString]. *)
Definition mask (mt : list ascii) : list ascii :=
  let n := List.length mt in
  if (n <=? 4)%nat then JsString.repeat "*" n
  else firstn 1 mt ++ JsString.repeat "*" (n - 2) ++ skipn (n - 1) mt.

(** [redactString]: the patterns are applied one after the other, each to
    the output of the one before. [String.prototype.replace] with a global
    expression starts from [lastIndex = 0] and leaves it at 0. *)
Definition redactString (d : t) (input : string) : string :=
  fold_left (fun redacted p => replace (fst p) mask redacted)
            (sensitivePatterns d) input.

Definition resetLastIndex (d : t) : t :=
  {| sensitivePatterns := map (fun p => (fst p, O)) (sensitivePatterns d);
     sensitiveFieldPatterns := sensitiveFieldPatterns d |}.

(** [redactString] with its effect on the instance. *)
Definition redactString_st (d : t) (input : string) : string * t :=
  (redactString d input, resetLastIndex d).

(** [redactObject]. [Object.entries] of an array lists its items under
    their indices, so an array that is itself an array item comes back as
    a plain object. The parameter type [Record<string, unknown>] excludes
    primitives; they are mapped to the empty object. *)
Fixpoint redactObject (d : t) (obj : value) : value :=
  let item (x : value) : value :=
    match x with
    | VArr _ | VObj _ => redactObject d x
    | VStr s => VStr (redactString d s)
    | _ => x
    end in
  let prop (key : string) (x : value) : value :=
    if isSensitiveField d key then VStr "[REDACTED]"
    else match x with
         | VStr s => VStr (redactString d s)
         | VArr items => VArr (map item items)
         | VObj _ => redactObject d x
         | _ => x
         end in
  match obj with
  | VObj props =>
      VObj ((fix entries (redacted : list (string * value))
                 (l : list (string * value)) : list (string * value) :=
               match l with
               | [] => redacted
               | (key, x) :: l' => entries (Js.set redacted key (prop key x)) l'
               end) [] props)
  | VArr items =>
      VObj ((fix entries (i : nat) (redacted : list (string * value))
                 (l : list value) : list (string * value) :=
               match l with
               | [] => redacted
               | x :: l' =>
                   entries (S i)
                     (Js.set redacted (JsString.of_nat i) (prop (JsString.of_nat i) x)) l'
               end) O [] items)
  | _ => VObj []
  end.

(** The two local functions of [redactObject], and its loop over the
    entries, by name. *)
Definition redactItem (d : t) (x : value) : value :=
  match x with
  | VArr _ | VObj _ => redactObject d x
  | VStr s => VStr (redactString d s)
  | _ => x
  end.

Definition redactProp (d : t) (key : string) (x : value) : value :=
  if isSensitiveField d key then VStr "[REDACTED]"
  else match x with
       | VStr s => VStr (redactString d s)
       | VArr items => VArr (map (redactItem d) items)
       | VObj _ => redactObject d x
       | _ => x
       end.

Definition assignAll (d : t) (redacted l : list (string * value))
  : list (string * value) :=
  fold_left (fun acc kv => Js.set acc (fst kv) (redactProp d (fst kv) (snd kv)))
            l redacted.

(** [Object.entries] of an array whose first index is [i]. *)
Fixpoint indexed (i : nat) (items : list value) : list (string * value) :=
  match items with
  | [] => []
  | x :: items' => (JsString.of_nat i, x) :: indexed (S i) items'
  end.

(** The strings that [redactObject] passes to [redactString], in order. *)
Fixpoint redactStringCalls (d : t) (obj : value) : list string :=
  let item (x : value) : list string :=
    match x with
    | VArr _ | VObj _ => redactStringCalls d x
    | VStr s => [s]
    | _ => []
    end in
  let prop (key : string) (x : value) : list string :=
    if isSensitiveField d key then []
    else match x with
         | VStr s => [s]
         | VArr items => flat_map item items
         | VObj _ => redactStringCalls d x
         | _ => []
         end in
  match obj with
  | VObj props => flat_map (fun kv => prop (fst kv) (snd kv)) props
  | VArr items =>
      (fix entries (i : nat) (l : list value) : list string :=
         match l with
         | [] => []
         | x :: l' => (prop (JsString.of_nat i) x ++ entries (S i) l')%list
         end) O items
  | _ => []
  end.

Definition itemCalls (d : t) (x : value) : list string :=
  match x with
  | VArr _ | VObj _ => redactStringCalls d x
  | VStr s => [s]
  | _ => []
  end.

Definition propCalls (d : t) (key : string) (x : value) : list string :=
  if isSensitiveField d key then []
  else match x with
       | VStr s => [s]
       | VArr items => flat_map (itemCalls d) items
       | VObj _ => redactStringCalls d x
       | _ => []
       end.

Definition entriesCalls (d : t) (l : list (string * value)) : list string :=
  flat_map (fun kv => propCalls d (fst kv) (snd kv)) l.

(** [redactObject] resets the [lastIndex] of the value patterns when it
    calls [redactString] at least once. *)
Definition callsRedactString (d : t) (obj : value) : bool :=
  match redactStringCalls d obj with [] => false | _ :: _ => true end.

(** A string that a second [redactString] leaves as the first made it. *)
Definition stableString (d : t) (s : string) : Prop :=
  redactString d (redactString d s) = redactString d s.

(** The three ways a value is redacted, each kept by a second pass when
    the strings it hands to [redactString] are stable. *)
Definition secondPassKeeps (d : t) (x : value) : Prop :=
  (Forall (stableString d) (redactStringCalls d x) ->
   redactObject d (redactObject d x) = redactObject d x)
  /\ (forall key, Forall (stableString d) (propCalls d key x) ->
                  redactProp d key (redactProp d key x) = redactProp d key x)
  /\ (Forall (stableString d) (itemCalls d x) ->
      redactItem d (redactItem d x) = redactItem d x).

Definition redactObject_st (d : t) (obj : value) : value * t :=
  (redactObject d obj, if callsRedactString d obj then resetLastIndex d else d).

Inductive riskLevel : Type := low | medium | high.

Record sensitiveCheck : Type := {
  isSensitive : bool;
  reason : option string;
  risk : riskLevel
}.

Definition sensitive (why : string) (lvl : riskLevel) : sensitiveCheck :=
  {| isSensitive := true; reason := Some why; risk := lvl |}.

(** [v.length > n] for the values that have a length. *)
Definition length_gt (v : value) (n : nat) : bool :=
  match v with
  | VStr s => (n <? String.length s)%nat
  | VArr items => (n <? List.length items)%nat
  | VObj props =>
      match Js.get props "length" with
      | VNum k => (Z.of_nat n <? k)%Z
      | _ => false
      end
  | _ => false
  end.

Definition checkoutKeywords : list string :=
  ["checkout"; "payment"; "billing"; "cart"; "order"; "purchase"].
Definition financialKeywords : list string :=
  ["bank"; "banking"; "finance"; "paypal"; "stripe"].
Definition adminKeywords : list string := ["admin"; "dashboard"; "control"; "manage"].

Definition includes_any (s : string) (keywords : list string) : bool :=
  existsb (JsString.includes s) keywords.

(** The part of [isSensitiveAction] after the [type_text] checks. *)
Definition isSensitiveAction_rest (toolName : string)
           (args : list (string * value)) (url : option string) : sensitiveCheck :=
  let lowerUrl := JsString.toLowerCase (default "" url) in
  let hasUrl := match url with Some u => JsString.truthy u | None => false end in
  if hasUrl && includes_any lowerUrl checkoutKeywords then
    sensitive "Interacting with checkout/payment page" high
  else if hasUrl && includes_any lowerUrl financialKeywords then
    sensitive "Interacting with financial website" high
  else if hasUrl && includes_any lowerUrl adminKeywords then
    sensitive "Interacting with admin interface" medium
  else if String.eqb toolName "eval_js"
          && Js.truthy (Js.get args "code") && length_gt (Js.get args "code") 1000 then
    sensitive "Executing large JavaScript code" medium
  else if String.eqb toolName "type_text"
          && match Js.get args "submit" with VBool true => true | _ => false end then
    sensitive "Submitting form data" medium
  else {| isSensitive := false; reason := None; risk := low |}.

(** [isSensitiveField(v)] and [containsSensitiveData(v)] for an argument
    that the caller casts to [string] without a test: each [pattern.test(v)]
    converts [v] with [String(v)], so the call throws where that does,
    unless there is no pattern to test. [None] is the [TypeError]. *)
Definition isSensitiveField_of (d : t) (v : value) : option bool :=
  match Js.toString v with
  | Some s => Some (isSensitiveField d s)
  | None => match sensitiveFieldPatterns d with [] => Some false | _ :: _ => None end
  end.

Definition containsSensitiveData_of (d : t) (v : value) : option (bool * t) :=
  match Js.toString v with
  | Some s => Some (containsSensitiveData d s)
  | None => match sensitivePatterns d with [] => Some (false, d) | _ :: _ => None end
  end.

(** [isSensitiveAction]: the check, or the argument whose conversion to a
    string throws a [TypeError]. *)
Definition isSensitiveAction (d : t) (toolName : string)
           (args : list (string * value)) (url : option string)
  : (sensitiveCheck + value) * t :=
  if String.eqb toolName "type_text" then
    let selector := Js.get args "selector" in
    let text := Js.get args "text" in
    match (if Js.truthy selector then isSensitiveField_of d selector else Some false) with
    | None => (inr selector, d)
    | Some true => (inl (sensitive "Typing into sensitive field" high), d)
    | Some false =>
        if Js.truthy text then
          match containsSensitiveData_of d text with
          | None => (inr text, d)
          | Some (found, d') =>
              if found then (inl (sensitive "Text contains sensitive data" high), d')
              else (inl (isSensitiveAction_rest toolName args url), d')
          end
        else (inl (isSensitiveAction_rest toolName args url), d)
    end
  else (inl (isSensitiveAction_rest toolName args url), d).

(** [createRedactedLogEntry]; [now] is the reading of [Date.now()]. *)
Definition createRedactedLogEntry (d : t) (now : Z) (toolName : string)
           (args result : value) (metadata : option value) : value * t :=
  let '(a, d1) := redactObject_st d args in
  let '(r, d2) := redactObject_st d1 result in
  let '(m, d3) := match metadata with
                  | Some md => if Js.truthy md then redactObject_st d2 md
                               else (VUndefined, d2)
                  | None => (VUndefined, d2)
                  end in
  (VObj [("tool", VStr toolName); ("args", a); ("result", r);
         ("metadata", m); ("timestamp", VNum now)], d3).

(** [isLargePostBody]; [stringify] stands for [JSON.stringify], [None]
    when it throws or yields [undefined]. *)
Definition isLargePostBody (stringify : value -> option string) (data : value) : bool :=
  match data with
  | VStr s => (8192 <? Z.of_nat (String.length s))%Z
  | _ => match stringify data with
         | Some json => (8192 <? Z.of_nat (String.length json))%Z
         | None => false
         end
  end.

(** The selectors of [isSensitiveSelector], in source order:
    [input[type="password"]], then [input[name*="..."]] for twelve names. *)
Definition doubleQuote : string := String "034"%char "".

Definition attributeSelector (attribute operator value : string) : string :=
  "input[" ++ attribute ++ operator ++ doubleQuote ++ value ++ doubleQuote ++ "]".

Definition sensitiveSelectors : list string :=
  attributeSelector "type" "=" "password"
  :: map (attributeSelector "name" "*=")
       ["password"; "card"; "cvv"; "cvc"; "ssn"; "social"; "iban"; "account";
        "routing"; "pin"; "secret"; "token"].

Definition isSensitiveSelector (d : t) (selector : string) : bool :=
  let lowerSelector := JsString.toLowerCase selector in
  existsb (fun pattern => JsString.includes lowerSelector (JsString.toLowerCase pattern))
          sensitiveSelectors
  || existsb (fun r => test_anywhere r selector) (sensitiveFieldPatterns d).

Definition riskWriteTools : list string := ["click"; "type_text"; "eval_js"; "navigate"].

(** What [assessRisk] may throw. *)
Inductive thrown : Type :=
| NotConvertible (v : value)      (* the [TypeError] of [String(v)] *)
| InvalidUrl (message : string).  (* the error of [new URL(url)] *)

(** [assessRisk]. [hostname] stands for [new URL(url).hostname]. The result
    is the level with the reasons, each pushed as [isSensitiveAction] gave
    it, or what the call throws. *)
Definition assessRisk (hostname : string -> string + string) (d : t)
           (toolName : string) (args : list (string * value)) (url : option string)
  : (riskLevel * list (option string) + thrown) * t :=
  match isSensitiveAction d toolName args url with
  | (inr v, d') => (inr (NotConvertible v), d')
  | (inl sensitiveCheck, d') =>
      let '(riskLevel1, reasons1) :=
        if isSensitive sensitiveCheck then
          (match risk sensitiveCheck with
           | high => high
           | medium => medium
           | low => low
           end, [reason sensitiveCheck])
        else (low, []) in
      let afterDomain : riskLevel * list (option string) + thrown :=
        if existsb (String.eqb toolName) riskWriteTools
           && match url with Some u => JsString.truthy u | None => false end
        then match hostname (default "" url) with
             | inr message => inr (InvalidUrl message)
             | inl h =>
                 let domain := JsString.toLowerCase h in
                 if JsString.includes domain "bank" || JsString.includes domain "payment"
                 then inl (high,
                           (reasons1 ++ [Some "Write operation on financial domain"])%list)
                 else inl (riskLevel1, reasons1)
             end
        else inl (riskLevel1, reasons1) in
      (match afterDomain with
       | inr e => inr e
       | inl (riskLevel2, reasons2) =>
           match Js.get args "selector" with
           | VStr selector =>
               if JsString.truthy selector && isSensitiveSelector d' selector
               then inl (match riskLevel2 with high => high | _ => medium end,
                         (reasons2 ++ [Some "Targeting sensitive form field"])%list)
               else inl (riskLevel2, reasons2)
           | _ => inl (riskLevel2, reasons2)
           end
       end, d')
  end.

End DataRedactor.

(** ** RateLimiter (host/rate-limiter.ts)

    Every function that starts with [const now = Date.now()] takes that
    reading as its argument [now]. *)

Module RateLimiter.

Record window : Type := { count : Z; resetTime : Z }.

(** An entry of [activeRequests]; [timeoutId] names the armed timer. *)
Record activeRequest : Type := { startTime : Z; timeoutId : nat }.

Record t : Type := mk {
  requestCounts : gmap string window;
  activeRequests : gmap string activeRequest;
  (** a count of calls, never negative *)
  consecutiveFailures : gmap string nat;
  (** armed [setTimeout] timers: handle, and the request the callback names *)
  timers : gmap nat string;
  nextTimer : nat;
  maxRequestsPerMinute : Z;
  maxRequestsPerHour : Z;
  defaultTimeoutMs : Z;
  maxConsecutiveFailures : Z
}.

Definition new (perMinute perHour timeoutMs maxFailures : Z) : t :=
  {| requestCounts := ∅; activeRequests := ∅; consecutiveFailures := ∅;
     timers := ∅; nextTimer := O;
     maxRequestsPerMinute := perMinute; maxRequestsPerHour := perHour;
     defaultTimeoutMs := timeoutMs; maxConsecutiveFailures := maxFailures |}.

Definition with_requestCounts (l : t) (m : gmap string window) : t :=
  {| requestCounts := m; activeRequests := activeRequests l;
     consecutiveFailures := consecutiveFailures l; timers := timers l;
     nextTimer := nextTimer l;
     maxRequestsPerMinute := maxRequestsPerMinute l;
     maxRequestsPerHour := maxRequestsPerHour l;
     defaultTimeoutMs := defaultTimeoutMs l;
     maxConsecutiveFailures := maxConsecutiveFailures l |}.

Definition with_active (l : t) (a : gmap string activeRequest)
           (tm : gmap nat string) (next : nat) : t :=
  {| requestCounts := requestCounts l; activeRequests := a;
     consecutiveFailures := consecutiveFailures l; timers := tm;
     nextTimer := next;
     maxRequestsPerMinute := maxRequestsPerMinute l;
     maxRequestsPerHour := maxRequestsPerHour l;
     defaultTimeoutMs := defaultTimeoutMs l;
     maxConsecutiveFailures := maxConsecutiveFailures l |}.

Definition with_failures (l : t) (f : gmap string nat) : t :=
  {| requestCounts := requestCounts l; activeRequests := activeRequests l;
     consecutiveFailures := f; timers := timers l; nextTimer := nextTimer l;
     maxRequestsPerMinute := maxRequestsPerMinute l;
     maxRequestsPerHour := maxRequestsPerHour l;
     defaultTimeoutMs := defaultTimeoutMs l;
     maxConsecutiveFailures := maxConsecutiveFailures l |}.

Definition minuteMs : Z := 60 * 1000.
Definition hourMs : Z := 60 * 60 * 1000.
Definition minuteKey (identifier : string) : string := identifier ++ ":minute".
Definition hourKey (identifier : string) : string := identifier ++ ":hour".

(** [Math.ceil(x / 1000)] for an integer [x]. *)
Definition ceil_seconds (x : Z) : Z := - ((- x) / 1000).

Record rateResult : Type := {
  allowed : bool;
  reason : option string;
  retryAfter : option Z
}.

Definition exceeded (cnt limit : Z) (unit_ : string) (remaining : Z) : rateResult :=
  {| allowed := false;
     reason := Some ("Rate limit exceeded: " ++ JsString.of_Z cnt ++ "/"
                     ++ JsString.of_Z limit ++ " requests per " ++ unit_);
     retryAfter := Some (ceil_seconds remaining) |}.

(** The test shared by the two windows: the window is live and full. *)
Definition window_full (w : option window) (now size limit : Z) : option window :=
  match w with
  | Some d => if (now - resetTime d <? size) && (limit <=? count d) then Some d else None
  | None => None
  end.

Definition checkRateLimit (now : Z) (identifier : string) (l : t) : rateResult :=
  match window_full (requestCounts l !! minuteKey identifier) now minuteMs
                    (maxRequestsPerMinute l) with
  | Some d => exceeded (count d) (maxRequestsPerMinute l) "minute"
                       (minuteMs - (now - resetTime d))
  | None =>
      match window_full (requestCounts l !! hourKey identifier) now hourMs
                        (maxRequestsPerHour l) with
      | Some d => exceeded (count d) (maxRequestsPerHour l) "hour"
                           (hourMs - (now - resetTime d))
      | None => {| allowed := true; reason := None; retryAfter := None |}
      end
  end.

(** One window of [recordRequest]: start afresh when there is no entry or
    [now - resetTime > size], else count one more. *)
Definition bump (now size : Z) (key : string) (m : gmap string window)
  : gmap string window :=
  match m !! key with
  | Some d =>
      if size <? now - resetTime d
      then <[key := {| count := 1; resetTime := now |}]> m
      else <[key := {| count := count d + 1; resetTime := resetTime d |}]> m
  | None => <[key := {| count := 1; resetTime := now |}]> m
  end.

Definition recordRequest (now : Z) (identifier : string) (l : t) : t :=
  with_requestCounts l
    (bump now hourMs (hourKey identifier)
       (bump now minuteMs (minuteKey identifier) (requestCounts l))).

(** [startRequest]: the returned promise is resolved at once; what stays is
    the tracking entry and its armed timer. *)
Definition startRequest (now : Z) (requestId : string) (l : t) : t :=
  with_active l
    (<[requestId := {| startTime := now; timeoutId := nextTimer l |}]> (activeRequests l))
    (<[nextTimer l := requestId]> (timers l))
    (S (nextTimer l)).

(** The timer callback of [startRequest] (its [reject] is without effect on
    a resolved promise). *)
Definition timerFires (handle : nat) (l : t) : t :=
  match timers l !! handle with
  | Some requestId =>
      with_active l (delete requestId (activeRequests l))
                  (delete handle (timers l)) (nextTimer l)
  | None => l
  end.

Definition untrack (requestId : string) (l : t) : t :=
  match activeRequests l !! requestId with
  | Some r => with_active l (delete requestId (activeRequests l))
                          (delete (timeoutId r) (timers l)) (nextTimer l)
  | None => l
  end.

(** [this.consecutiveFailures.get(identifier) || 0] *)
Definition failures (identifier : string) (l : t) : nat :=
  default O (consecutiveFailures l !! identifier).

Definition failureCount (identifier : string) (l : t) : Z :=
  Z.of_nat (failures identifier l).

Definition completeRequest (requestId : string) (success : bool) (l : t) : t :=
  let l' := untrack requestId l in
  if success then with_failures l' (delete requestId (consecutiveFailures l'))
  else with_failures l'
         (<[requestId := S (failures requestId l')]> (consecutiveFailures l')).

Record failureResult : Type := {
  f_allowed : bool;
  f_reason : option string;
  f_failureCount : Z
}.

Definition checkFailureThreshold (identifier : string) (l : t) : failureResult :=
  let n := failureCount identifier l in
  if maxConsecutiveFailures l <=? n then
    {| f_allowed := false;
       f_reason := Some ("Too many consecutive failures: " ++ JsString.of_Z n
                         ++ "/" ++ JsString.of_Z (maxConsecutiveFailures l));
       f_failureCount := n |}
  else {| f_allowed := true; f_reason := None; f_failureCount := n |}.

Definition resetFailures (identifier : string) (l : t) : t :=
  with_failures l (delete identifier (consecutiveFailures l)).

Definition resetAllFailures (l : t) : t := with_failures l ∅.

Definition cancelRequest (requestId : string) (l : t) : bool * t :=
  (bool_decide (is_Some (activeRequests l !! requestId)), untrack requestId l).

Definition cancelAllRequests (l : t) : t :=
  with_active l ∅
    (filter (fun kv => timeoutId <$> activeRequests l !! kv.2 ≠ Some kv.1) (timers l))
    (nextTimer l).

Definition updateLimits (perMinute perHour timeoutMs maxFailures : option Z) (l : t) : t :=
  {| requestCounts := requestCounts l; activeRequests := activeRequests l;
     consecutiveFailures := consecutiveFailures l; timers := timers l;
     nextTimer := nextTimer l;
     maxRequestsPerMinute := default (maxRequestsPerMinute l) perMinute;
     maxRequestsPerHour := default (maxRequestsPerHour l) perHour;
     defaultTimeoutMs := default (defaultTimeoutMs l) timeoutMs;
     maxConsecutiveFailures := default (maxConsecutiveFailures l) maxFailures |}.

(** [cleanup]: entries older than twice their period are dropped. *)
Definition cleanup (now : Z) (l : t) : t :=
  with_requestCounts l
    (filter (fun kv =>
               ¬ (2 * (if JsString.endsWith kv.1 ":minute" then minuteMs else hourMs)
                  < now - resetTime kv.2))
            (requestCounts l)).

(** [recordRequest] called once at each of the times [ts], in order. *)
Definition recordAll (ts : list Z) (identifier : string) (l : t) : t :=
  fold_left (fun l' now => recordRequest now identifier l') ts l.

(** [completeRequest(identifier, false)] called [n] times in a row. *)
Definition failTimes (n : nat) (identifier : string) (l : t) : t :=
  Nat.iter n (completeRequest identifier false) l.

(** No live window: there is no entry, or [recordRequest] at [now] starts
    a new one. *)
Definition startsWindow (w : option window) (now size : Z) : Prop :=
  match w with
  | None => True
  | Some d => size < now - resetTime d
  end.

(** [getRateLimitStatus] *)
Record rateLimitStatus : Type := {
  minuteCount : Z;
  hourCount : Z;
  minuteLimit : Z;
  hourLimit : Z;
  minuteResetTime : Z;
  hourResetTime : Z;
  activeRequestCount : Z;          (* the field [activeRequests] *)
  consecutiveFailureCount : Z      (* the field [consecutiveFailures] *)
}.

(** [data && now - data.resetTime < size ? data.count : 0] *)
Definition liveCount (w : option window) (now size : Z) : Z :=
  match w with
  | Some d => if now - resetTime d <? size then count d else 0
  | None => 0
  end.

Definition getActiveRequestCount (l : t) : Z := Z.of_nat (size (activeRequests l)).

Definition getRateLimitStatus (now : Z) (identifier : string) (l : t) : rateLimitStatus :=
  let minuteData := requestCounts l !! minuteKey identifier in
  let hourData := requestCounts l !! hourKey identifier in
  {| minuteCount := liveCount minuteData now minuteMs;
     hourCount := liveCount hourData now hourMs;
     minuteLimit := maxRequestsPerMinute l;
     hourLimit := maxRequestsPerHour l;
     minuteResetTime := match minuteData with
                        | Some d => resetTime d + minuteMs
                        | None => now + minuteMs
                        end;
     hourResetTime := match hourData with
                      | Some d => resetTime d + hourMs
                      | None => now + hourMs
                      end;
     activeRequestCount := getActiveRequestCount l;
     consecutiveFailureCount := failureCount identifier l |}.

End RateLimiter.

(** ** What the code takes from the JavaScript platform *)

Record Platform : Type := {
  (** [new URL(url).hostname], or the message of the error it throws *)
  URL_hostname : string -> string + string;
  (** [JSON.stringify(v)]; [None] when it throws or yields [undefined] *)
  JSON_stringify : value -> option string;
  (** the message of the [TypeError] that [String(v)] throws for an object
      [v] it cannot convert *)
  TypeError_message : value -> string;
  (** what [obj[name]] is on a plain object for a name that only
      [Object.prototype] provides: a built-in function, or the prototype
      itself for [__proto__]; nothing here looks into it *)
  Object_prototype : string -> value
}.

(** ** Shared types and constants (shared/types.ts) *)

Record DomainPolicy : Type := {
  read : bool;
  write : bool;
  requiresApproval : option bool;
  maxStepsPerHour : option Z
}.

Record PolicyDecision : Type := {
  allowed : bool;
  needsApproval : bool;                    (* the field [requiresApproval] *)
  reason : option string;
  metadata : option (list (string * value))
}.

Inductive operation : Type := OpRead | OpWrite.

Definition RESTRICTED_DOMAINS : list string :=
  ["chrome://"; "chrome-extension://"; "moz-extension://"; "edge://"; "about:"; "file://"].

Definition CHECKOUT_DOMAINS : list string :=
  ["checkout"; "payment"; "billing"; "cart"; "order"; "purchase"].

(** The part of [Configuration] that the policy engine reads. The allowlist
    lists its entries in [Object.entries] order; [sensitivePatterns] holds
    the expressions its strings compile to. *)
Record Configuration : Type := {
  allowlist : list (string * DomainPolicy);
  sensitivePatterns : list Regex.re;
  stepBudget : Z;
  toolTimeoutMs : Z
}.

(** ** PolicyEngine (host/policy-engine.ts) *)

Module PolicyEngine.

Record stepData : Type := { count : Z; resetTime : Z }.

Record t : Type := mk {
  config : Configuration;
  stepCounts : gmap string stepData;
  toolCallCounts : gmap string Z;
  lastToolCallTime : Z;
  dataRedactor : DataRedactor.t;
  rateLimiter : RateLimiter.t;
  globalStepCount : Z;
  sessionStartTime : Z
}.

Definition new (cfg : Configuration) (now : Z) : t :=
  {| config := cfg; stepCounts := ∅; toolCallCounts := ∅; lastToolCallTime := 0;
     dataRedactor := DataRedactor.new (sensitivePatterns cfg);
     rateLimiter := RateLimiter.new 60 1000 (toolTimeoutMs cfg) 5;
     globalStepCount := 0; sessionStartTime := now |}.

Definition with_stepCounts (pe : t) (m : gmap string stepData) : t :=
  {| config := config pe; stepCounts := m; toolCallCounts := toolCallCounts pe;
     lastToolCallTime := lastToolCallTime pe; dataRedactor := dataRedactor pe;
     rateLimiter := rateLimiter pe; globalStepCount := globalStepCount pe;
     sessionStartTime := sessionStartTime pe |}.

Definition with_rateLimiter (pe : t) (l : RateLimiter.t) : t :=
  {| config := config pe; stepCounts := stepCounts pe;
     toolCallCounts := toolCallCounts pe;
     lastToolCallTime := lastToolCallTime pe; dataRedactor := dataRedactor pe;
     rateLimiter := l; globalStepCount := globalStepCount pe;
     sessionStartTime := sessionStartTime pe |}.

Definition with_dataRedactor (pe : t) (d : DataRedactor.t) : t :=
  {| config := config pe; stepCounts := stepCounts pe;
     toolCallCounts := toolCallCounts pe;
     lastToolCallTime := lastToolCallTime pe; dataRedactor := d;
     rateLimiter := rateLimiter pe; globalStepCount := globalStepCount pe;
     sessionStartTime := sessionStartTime pe |}.

Definition opName (op : operation) : string :=
  match op with OpRead => "read" | OpWrite => "write" end.

(** What [getDomainPolicy] returns: a policy object (an entry of the
    allowlist or the default), or, for a name that the allowlist object only
    inherits from [Object.prototype], the built-in that [allowlist[domain]]
    finds under that name, which is truthy. *)
Inductive resolvedPolicy : Type :=
| Policy (p : DomainPolicy)
| Inherited (member : string).

(** The four properties as the engine reads them off the result. A member
    of [Object.prototype] has none of them: each reads as [undefined]. *)
Definition fields (r : resolvedPolicy) : DomainPolicy :=
  match r with
  | Policy p => p
  | Inherited _ =>
      {| read := false; write := false; requiresApproval := None;
         maxStepsPerHour := None |}
  end.
Coercion fields : resolvedPolicy >-> DomainPolicy.

(** The result as the value that a decision carries in its metadata. *)
Definition policyValue (pf : Platform) (r : resolvedPolicy) : value :=
  match r with
  | Policy p =>
      VObj ([("read", VBool (read p)); ("write", VBool (write p))]
            ++ match requiresApproval p with
               | Some b => [("requiresApproval", VBool b)] | None => [] end
            ++ match maxStepsPerHour p with
               | Some n => [("maxStepsPerHour", VNum n)] | None => [] end)
  | Inherited member => Object_prototype pf member
  end.

(** Own entry of the allowlist object. *)
Fixpoint ownEntry (al : list (string * DomainPolicy)) (domain : string)
  : option DomainPolicy :=
  match al with
  | [] => None
  | (k, p) :: rest => if String.eqb k domain then Some p else ownEntry rest domain
  end.

(** The allowlist is a plain object: [allowlist[domain]] also finds what
    [Object.prototype] provides. *)
Definition objectPrototypeProperties : list string :=
  ["constructor"; "__proto__"; "hasOwnProperty"; "isPrototypeOf";
   "propertyIsEnumerable"; "toLocaleString"; "toString"; "valueOf";
   "__defineGetter__"; "__defineSetter__"; "__lookupGetter__"; "__lookupSetter__"].

Definition noAccess : DomainPolicy :=
  {| read := false; write := false; requiresApproval := None; maxStepsPerHour := None |}.

(** Whether [domain] ends with what follows the ["*."] of a wildcard key. *)
Definition wildcardMatches (allowedDomain domain : string) : bool :=
  JsString.startsWith allowedDomain "*."
  && JsString.endsWith domain (JsString.slice 2 allowedDomain).

Fixpoint firstWildcard (al : list (string * DomainPolicy)) (domain : string)
  : option DomainPolicy :=
  match al with
  | [] => None
  | (allowedDomain, policy) :: rest =>
      if wildcardMatches allowedDomain domain then Some policy
      else firstWildcard rest domain
  end.

Definition getDomainPolicy (cfg : Configuration) (domain : string) : resolvedPolicy :=
  match ownEntry (allowlist cfg) domain with
  | Some p => Policy p
  | None =>
      if existsb (String.eqb domain) objectPrototypeProperties then Inherited domain
      else match firstWildcard (allowlist cfg) domain with
           | Some p => Policy p
           | None => Policy noAccess     (* default policy: no access *)
           end
  end.

Definition sensitiveDomains : list string :=
  ["bank"; "banking"; "finance"; "payment"; "paypal"; "stripe"; "checkout";
   "cart"; "order"; "purchase"; "billing"; "admin"; "dashboard"; "control"; "manage"].

Definition isSensitiveDomain (domain : string) : bool :=
  existsb (JsString.includes (JsString.toLowerCase domain)) sensitiveDomains.

Definition requiresApprovalFor (cfg : Configuration) (domain url : string)
           (op : operation) : bool :=
  match requiresApproval (getDomainPolicy cfg domain) with
  | Some true => true
  | _ =>
      existsb (fun kw => JsString.includes (JsString.toLowerCase url) kw
                         || JsString.includes (JsString.toLowerCase domain) kw)
              CHECKOUT_DOMAINS
      || (match op with OpWrite => isSensitiveDomain domain | OpRead => false end)
  end.

Definition hourMs : Z := 60 * 60 * 1000.

(** [policy.maxStepsPerHour || this.config.stepBudget] *)
Definition maxSteps (cfg : Configuration) (domain : string) : Z :=
  match maxStepsPerHour (getDomainPolicy cfg domain) with
  | Some n => if n =? 0 then stepBudget cfg else n
  | None => stepBudget cfg
  end.

(** [checkStepBudget]: [true] when the budget of the domain is used up. *)
Definition checkStepBudget (now : Z) (domain : string) (pe : t) : bool * t :=
  match stepCounts pe !! domain with
  | None => (false, pe)
  | Some sd =>
      if hourMs <? now - resetTime sd
      then (false, with_stepCounts pe
                     (<[domain := {| count := 0; resetTime := now |}]> (stepCounts pe)))
      else (maxSteps (config pe) domain <=? count sd, pe)
  end.

Definition incrementStepCount (now : Z) (domain : string) (pe : t) : t :=
  with_stepCounts pe
    (match stepCounts pe !! domain with
     | Some sd =>
         if hourMs <? now - resetTime sd
         then <[domain := {| count := 1; resetTime := now |}]> (stepCounts pe)
         else <[domain := {| count := count sd + 1; resetTime := resetTime sd |}]>
                (stepCounts pe)
     | None => <[domain := {| count := 1; resetTime := now |}]> (stepCounts pe)
     end).

Definition deny (why : string) (md : list (string * value)) : PolicyDecision :=
  {| allowed := false; needsApproval := false; reason := Some why; metadata := Some md |}.

Definition checkDomainPolicy (pf : Platform) (now : Z) (url : string)
           (op : operation) (pe : t) : PolicyDecision * t :=
  match URL_hostname pf url with
  | inr message =>
      (deny ("Invalid URL: " ++ message)
            [("url", VStr url); ("operation", VStr (opName op))], pe)
  | inl hostname =>
      let domain := JsString.toLowerCase hostname in
      match find (JsString.startsWith (JsString.toLowerCase url)) RESTRICTED_DOMAINS with
      | Some restricted =>
          (deny ("Access to " ++ restricted ++ " URLs is not permitted")
                [("domain", VStr domain); ("operation", VStr (opName op));
                 ("restricted", VBool true)], pe)
      | None =>
          let policy := getDomainPolicy (config pe) domain in
          if negb (match op with OpRead => read policy | OpWrite => write policy end)
          then (deny ("Domain " ++ domain ++ " is not allowed for " ++ opName op
                      ++ " operations")
                     [("domain", VStr domain); ("operation", VStr (opName op));
                      ("policy", policyValue pf policy)], pe)
          else
            let approval := requiresApprovalFor (config pe) domain url op in
            let '(stepBudgetExceeded, pe') := checkStepBudget now domain pe in
            if stepBudgetExceeded
            then (deny ("Step budget exceeded for domain " ++ domain)
                       [("domain", VStr domain); ("operation", VStr (opName op));
                        ("stepBudgetExceeded", VBool true)], pe')
            else ({| allowed := true; needsApproval := approval;
                     reason := if approval
                               then Some "Sensitive domain or action detected" else None;
                     metadata := Some [("domain", VStr domain);
                                       ("operation", VStr (opName op));
                                       ("policy", policyValue pf policy)] |}, pe')
      end
  end.

Definition allow : PolicyDecision :=
  {| allowed := true; needsApproval := false; reason := None; metadata := None |}.

(** [checkRateLimit]: [now] is the engine's own reading of the clock,
    [nowCheck] and [nowRecord] those of the rate limiter's two methods. *)
Definition checkRateLimit (now nowCheck nowRecord : Z) (identifier : string)
           (pe : t) : PolicyDecision * t :=
  let minInterval := 100 in
  if now - lastToolCallTime pe <? minInterval then
    (deny "Rate limit exceeded - too many rapid tool calls"
          [("rateLimited", VBool true); ("minInterval", VNum minInterval)], pe)
  else
    let r := RateLimiter.checkRateLimit nowCheck identifier (rateLimiter pe) in
    if negb (RateLimiter.allowed r) then
      ({| allowed := false; needsApproval := false;
          reason := RateLimiter.reason r;
          metadata := Some [("rateLimited", VBool true);
                            ("retryAfter",
                             match RateLimiter.retryAfter r with
                             | Some n => VNum n | None => VUndefined end)] |}, pe)
    else
      (allow,
       {| config := config pe; stepCounts := stepCounts pe;
          toolCallCounts := toolCallCounts pe; lastToolCallTime := now;
          dataRedactor := dataRedactor pe;
          rateLimiter := RateLimiter.recordRequest nowRecord identifier (rateLimiter pe);
          globalStepCount := globalStepCount pe;
          sessionStartTime := sessionStartTime pe |}).

Definition checkFailureThreshold (toolName : string) (pe : t) : PolicyDecision :=
  let r := RateLimiter.checkFailureThreshold toolName (rateLimiter pe) in
  if negb (RateLimiter.f_allowed r) then
    {| allowed := false; needsApproval := false;
       reason := RateLimiter.f_reason r;
       metadata := Some [("toolName", VStr toolName);
                         ("failureCount", VNum (RateLimiter.f_failureCount r));
                         ("maxFailures", VNum 5)] |}
  else allow.

Definition failuresKey (toolName : string) : string := toolName ++ "_failures".

(** [requestId || toolName] *)
Definition trackingKey (toolName : string) (requestId : option string) : string :=
  match requestId with
  | Some r => if JsString.truthy r then r else toolName
  | None => toolName
  end.

Definition recordToolExecution (now : Z) (toolName : string) (success : bool)
           (domain requestId : option string) (pe : t) : t :=
  let pe1 :=
    {| config := config pe; stepCounts := stepCounts pe;
       toolCallCounts := toolCallCounts pe;
       lastToolCallTime := lastToolCallTime pe; dataRedactor := dataRedactor pe;
       rateLimiter := rateLimiter pe; globalStepCount := globalStepCount pe + 1;
       sessionStartTime := sessionStartTime pe |} in
  let pe2 :=
    match domain with
    | Some dom => if JsString.truthy dom then incrementStepCount now dom pe1 else pe1
    | None => pe1
    end in
  let pe3 :=
    with_rateLimiter pe2
      (RateLimiter.completeRequest (trackingKey toolName requestId) success
                                   (rateLimiter pe2)) in
  {| config := config pe3; stepCounts := stepCounts pe3;
     toolCallCounts :=
       if success then delete (failuresKey toolName) (toolCallCounts pe3)
       else <[failuresKey toolName :=
                default 0 (toolCallCounts pe3 !! failuresKey toolName) + 1]>
              (toolCallCounts pe3);
     lastToolCallTime := lastToolCallTime pe3; dataRedactor := dataRedactor pe3;
     rateLimiter := rateLimiter pe3; globalStepCount := globalStepCount pe3;
     sessionStartTime := sessionStartTime pe3 |}.

Definition riskName (r : DataRedactor.riskLevel) : string :=
  match r with
  | DataRedactor.low => "low" | DataRedactor.medium => "medium"
  | DataRedactor.high => "high"
  end.

(** [checkSensitiveData]: never denies. It lets the [TypeError] of
    [isSensitiveAction] through: [inr v] for the argument [v] that could
    not be converted. *)
Definition checkSensitiveData (toolName : string) (args : list (string * value))
           (url : option string) (pe : t) : (PolicyDecision + value) * t :=
  match DataRedactor.isSensitiveAction (dataRedactor pe) toolName args url with
  | (inr v, _) => (inr v, pe)
  | (inl chk, d') =>
      (inl (if DataRedactor.isSensitive chk then
              {| allowed := true; needsApproval := true;
                 reason := DataRedactor.reason chk;
                 metadata := Some [("riskLevel", VStr (riskName (DataRedactor.risk chk)));
                                   ("sensitiveData", VBool true)] |}
            else allow),
       with_dataRedactor pe d')
  end.

(** [checkLargePostBody]: never denies. *)
Definition checkLargePostBody (pf : Platform) (data : value) : PolicyDecision :=
  if DataRedactor.isLargePostBody (JSON_stringify pf) data then
    {| allowed := true; needsApproval := true;
       reason := Some "Large POST body detected (>8KB) - requires user confirmation";
       metadata :=
         Some [("largePostBody", VBool true);
               ("dataSize",
                VNum (Z.of_nat (String.length
                                  (match data with
                                   | VStr s => s
                                   | _ => default "" (JSON_stringify pf data)
                                   end))))] |}
  else allow.

Definition checkGlobalStepBudget (pe : t) : PolicyDecision :=
  if stepBudget (config pe) <=? globalStepCount pe then
    deny ("Global step budget exceeded: " ++ JsString.of_Z (globalStepCount pe)
          ++ "/" ++ JsString.of_Z (stepBudget (config pe)))
         [("globalStepCount", VNum (globalStepCount pe));
          ("stepBudget", VNum (stepBudget (config pe)));
          ("budgetExceeded", VBool true)]
  else {| allowed := true; needsApproval := false; reason := None;
          metadata := Some [("globalStepCount", VNum (globalStepCount pe));
                            ("stepBudget", VNum (stepBudget (config pe)))] |}.

(** [startToolRequest]; the promise it returns is fulfilled. The timeout
    passed on is [timeoutMs || config.toolTimeoutMs], which only sets the
    delay of the timer. *)
Definition startToolRequest (now : Z) (requestId : string) (pe : t) : t :=
  with_rateLimiter pe (RateLimiter.startRequest now requestId (rateLimiter pe)).

Definition createRedactedLogEntry (now : Z) (toolName : string)
           (args result : value) (md : option value) (pe : t) : value * t :=
  let '(entry, d') :=
    DataRedactor.createRedactedLogEntry (dataRedactor pe) now toolName args result md in
  (entry, with_dataRedactor pe d').

Definition updateRateLimits (perMinute perHour timeoutMs maxFailures : option Z)
           (pe : t) : t :=
  {| config := {| allowlist := allowlist (config pe);
                  sensitivePatterns := sensitivePatterns (config pe);
                  stepBudget := stepBudget (config pe);
                  toolTimeoutMs := default (toolTimeoutMs (config pe)) timeoutMs |};
     stepCounts := stepCounts pe; toolCallCounts := toolCallCounts pe;
     lastToolCallTime := lastToolCallTime pe; dataRedactor := dataRedactor pe;
     rateLimiter := RateLimiter.updateLimits perMinute perHour timeoutMs maxFailures
                      (rateLimiter pe);
     globalStepCount := globalStepCount pe;
     sessionStartTime := sessionStartTime pe |}.

Definition resetFailureCounts (pe : t) : t :=
  {| config := config pe; stepCounts := stepCounts pe;
     toolCallCounts :=
       filter (fun kv => JsString.endsWith kv.1 "_failures" = false) (toolCallCounts pe);
     lastToolCallTime := lastToolCallTime pe; dataRedactor := dataRedactor pe;
     rateLimiter := RateLimiter.resetAllFailures (rateLimiter pe);
     globalStepCount := globalStepCount pe;
     sessionStartTime := sessionStartTime pe |}.

Definition resetStepBudget (now : Z) (pe : t) : t :=
  {| config := config pe; stepCounts := ∅; toolCallCounts := toolCallCounts pe;
     lastToolCallTime := lastToolCallTime pe; dataRedactor := dataRedactor pe;
     rateLimiter := rateLimiter pe; globalStepCount := 0;
     sessionStartTime := now |}.

(** Failed executions of one tool recorded one after the other; each call
    gives the clock reading, the domain and the request id. *)
Definition recordFailures (toolName : string)
           (calls : list (Z * option string * option string)) (pe : t) : t :=
  fold_left (fun pe' c => recordToolExecution c.1.1 toolName false c.1.2 c.2 pe')
            calls pe.

(** What [checkFailureThreshold] reads: the count kept for the tool name and
    the threshold. *)
Definition failureView (toolName : string) (pe : t) : Z * Z :=
  (RateLimiter.failureCount toolName (rateLimiter pe),
   RateLimiter.maxConsecutiveFailures (rateLimiter pe)).

(** [cleanup]; [nowLimiter] is the reading of the clock by the rate
    limiter's own [cleanup], [now] the engine's. *)
Definition cleanup (nowLimiter now : Z) (pe : t) : t :=
  with_stepCounts
    (with_rateLimiter pe (RateLimiter.cleanup nowLimiter (rateLimiter pe)))
    (filter (fun kv => ¬ (hourMs * 2 < now - resetTime kv.2)) (stepCounts pe)).

(** One call of [recordToolExecution]: the reading of the clock and the
    four arguments. *)
Record execution : Type := {
  e_now : Z;
  e_toolName : string;
  e_success : bool;
  e_domain : option string;
  e_requestId : option string
}.

(** Executions recorded one after the other. *)
Definition recordExecutions (es : list execution) (pe : t) : t :=
  fold_left (fun pe' e => recordToolExecution (e_now e) (e_toolName e) (e_success e)
                            (e_domain e) (e_requestId e) pe')
            es pe.

(** No live hour of step counting for a domain: there is no entry, or
    [incrementStepCount] at [now] starts a new one. *)
Definition startsHour (sd : option stepData) (now : Z) : Prop :=
  match sd with
  | None => True
  | Some d => hourMs < now - resetTime d
  end.

End PolicyEngine.

(** ** ConfigManager (host/config.ts): the default configuration *)

Module ConfigManager.

Definition localPolicy : DomainPolicy :=
  {| read := true; write := true; requiresApproval := None; maxStepsPerHour := None |}.
Definition readingPolicy : DomainPolicy :=
  {| read := true; write := false; requiresApproval := None; maxStepsPerHour := None |}.
Definition approvalPolicy : DomainPolicy :=
  {| read := true; write := false; requiresApproval := Some true;
     maxStepsPerHour := None |}.

Definition getDefaultConfiguration : Configuration :=
  {| allowlist :=
       [("localhost", localPolicy); ("127.0.0.1", localPolicy);
        ("*.localhost", localPolicy);
        ("github.com", readingPolicy); ("stackoverflow.com", readingPolicy);
        ("developer.mozilla.org", readingPolicy); ("docs.python.org", readingPolicy);
        ("nodejs.org", readingPolicy);
        ("example.com", readingPolicy); ("httpbin.org", localPolicy);
        ("*.bank", approvalPolicy); ("*.banking", approvalPolicy);
        ("paypal.com", approvalPolicy); ("stripe.com", approvalPolicy)];
     sensitivePatterns := map DataRedactor.lit_i DataRedactor.SENSITIVE_FIELD_PATTERNS;
     stepBudget := 100;
     toolTimeoutMs := 30000 |}.

End ConfigManager.

(** ** JavaScript [Map] with string keys, in insertion order *)

Module JsMap.
Section WithValue.
Context {V : Type}.

Definition t : Type := list (string * V).

Fixpoint get (m : list (string * V)) (key : string) : option V :=
  match m with
  | [] => None
  | (k, v) :: rest => if String.eqb k key then Some v else get rest key
  end.

(** [m.set(key, v)]: a present key keeps its position. *)
Fixpoint set (m : list (string * V)) (key : string) (v : V) : list (string * V) :=
  match m with
  | [] => [(key, v)]
  | (k, x) :: rest =>
      if String.eqb k key then (k, v) :: rest else (k, x) :: set rest key v
  end.

Fixpoint delete (m : list (string * V)) (key : string) : list (string * V) :=
  match m with
  | [] => []
  | (k, x) :: rest =>
      if String.eqb k key then delete rest key else (k, x) :: delete rest key
  end.

Definition keys (m : list (string * V)) : list string := map fst m.
Definition size (m : list (string * V)) : nat := List.length m.
End WithValue.
End JsMap.

(** ** WebSocketBridge (host/bridge.ts)

    The bridge is driven by events: a connection, a message, a close or an
    error of a socket, a timer that fires, a call of one of its methods.
    Each is a function on the bridge state. A promise created by
    [sendCommand] and the timer armed for it share one handle. *)

Module WebSocketBridge.

Record ConnectedClient : Type := {
  c_id : string;
  c_open : bool;               (* ws.readyState === WebSocket.OPEN *)
  connectedAt : Z;
  lastActivity : Z
}.

Record PendingRequest : Type := {
  r_id : string;
  r_promise : nat;             (* the promise that resolve and reject settle *)
  r_timestamp : Z;
  r_timeoutId : nat
}.

Record BridgeMessage : Type := {
  m_id : string;
  m_cmd : string;
  m_payload : value;
  m_timestamp : Z
}.

Record BridgeResponse : Type := {
  replyTo : string;
  payload : value;
  error : option string
}.

Inductive promiseState : Type :=
| Pending
| Fulfilled (v : value)
| Rejected (message : string).

Record t : Type := mk {
  clients : list (string * ConnectedClient);
  pendingRequests : list (string * PendingRequest);
  promises : gmap nat promiseState;
  (** armed timers: handle, and the message id its callback deletes *)
  timers : gmap nat string;
  nextHandle : nat;
  (** what was written to the sockets: client id and message *)
  outbox : list (string * BridgeMessage);
  console : list string
}.

Definition requestTimeoutMs : Z := 30000.

Definition new : t :=
  {| clients := []; pendingRequests := []; promises := ∅; timers := ∅;
     nextHandle := O; outbox := []; console := [] |}.

Definition with_clients (st : t) (cs : list (string * ConnectedClient)) : t :=
  {| clients := cs; pendingRequests := pendingRequests st; promises := promises st;
     timers := timers st; nextHandle := nextHandle st; outbox := outbox st;
     console := console st |}.

Definition log (line : string) (st : t) : t :=
  {| clients := clients st; pendingRequests := pendingRequests st;
     promises := promises st; timers := timers st; nextHandle := nextHandle st;
     outbox := outbox st; console := console st ++ [line] |}.

(** Settling a promise: only a pending promise changes state. *)
Definition settle (p : nat) (outcome : promiseState) (st : t) : t :=
  match promises st !! p with
  | Some Pending =>
      {| clients := clients st; pendingRequests := pendingRequests st;
         promises := <[p := outcome]> (promises st); timers := timers st;
         nextHandle := nextHandle st; outbox := outbox st; console := console st |}
  | _ => st
  end.

Definition clearTimeout (handle : nat) (st : t) : t :=
  {| clients := clients st; pendingRequests := pendingRequests st;
     promises := promises st; timers := delete handle (timers st);
     nextHandle := nextHandle st; outbox := outbox st; console := console st |}.

Definition deletePending (key : string) (st : t) : t :=
  {| clients := clients st; pendingRequests := JsMap.delete (pendingRequests st) key;
     promises := promises st; timers := timers st; nextHandle := nextHandle st;
     outbox := outbox st; console := console st |}.

(** The [connection] handler. *)
Definition onConnection (clientId : string) (now : Z) (st : t) : t :=
  log ("[Bridge] Client connected: " ++ clientId)
      (with_clients st
         (JsMap.set (clients st) clientId
            {| c_id := clientId; c_open := true; connectedAt := now;
               lastActivity := now |})).

(** The socket of a client leaves the [OPEN] state. *)
Definition onSocketNotOpen (clientId : string) (st : t) : t :=
  match JsMap.get (clients st) clientId with
  | Some c =>
      with_clients st
        (JsMap.set (clients st) clientId
           {| c_id := c_id c; c_open := false; connectedAt := connectedAt c;
              lastActivity := lastActivity c |})
  | None => st
  end.

Definition touch (clientId : string) (now : Z) (st : t) : t :=
  match JsMap.get (clients st) clientId with
  | Some c =>
      with_clients st
        (JsMap.set (clients st) clientId
           {| c_id := c_id c; c_open := c_open c; connectedAt := connectedAt c;
              lastActivity := now |})
  | None => st
  end.

Definition handleResponse (clientId : string) (response : BridgeResponse)
           (now : Z) (st : t) : t :=
  match JsMap.get (clients st) clientId with
  | None => log ("[Bridge] Received response from unknown client: " ++ clientId) st
  | Some _ =>
      let st1 := touch clientId now st in
      match JsMap.get (pendingRequests st1) (replyTo response) with
      | None =>
          log ("[Bridge] Received response for unknown request: " ++ replyTo response) st1
      | Some pendingRequest =>
          let st2 := deletePending (replyTo response)
                       (clearTimeout (r_timeoutId pendingRequest) st1) in
          match error response with
          | Some e =>
              if JsString.truthy e
              then settle (r_promise pendingRequest) (Rejected e) st2
              else settle (r_promise pendingRequest) (Fulfilled (payload response)) st2
          | None => settle (r_promise pendingRequest) (Fulfilled (payload response)) st2
          end
      end
  end.

(** One turn of a loop over [pendingRequests.entries()] that rejects the
    request and deletes the entry named by its [id]. *)
Definition rejectRequest (message : string) (request : PendingRequest) (st : t) : t :=
  deletePending (r_id request)
    (settle (r_promise request) (Rejected message)
       (clearTimeout (r_timeoutId request) st)).

(** The loop itself: [todo] holds the entries the iterator has yet to
    visit; an entry deleted before its turn is not visited. *)
Fixpoint forEachPending (body : PendingRequest -> t -> t)
         (todo : list (string * PendingRequest)) (st : t) : t :=
  match todo with
  | [] => st
  | (key, _) :: rest =>
      match JsMap.get (pendingRequests st) key with
      | Some request => forEachPending body rest (body request st)
      | None => forEachPending body rest st
      end
  end.

Definition rejectPendingRequestsForClient (st : t) : t :=
  forEachPending (rejectRequest "Client disconnected") (pendingRequests st) st.

(** The [close] handler of a socket. *)
Definition onClose (clientId : string) (st : t) : t :=
  rejectPendingRequestsForClient
    (with_clients (log ("[Bridge] Client disconnected: " ++ clientId) st)
                  (JsMap.delete (clients st) clientId)).

(** The [error] handler of a socket. *)
Definition onError (clientId : string) (st : t) : t :=
  rejectPendingRequestsForClient
    (with_clients (log ("[Bridge] WebSocket error for client " ++ clientId ++ ":") st)
                  (JsMap.delete (clients st) clientId)).

(** The [pong] handler. *)
Definition onPong (clientId : string) (now : Z) (st : t) : t := touch clientId now st.

(** The timer callback of [sendCommand]. *)
Definition onTimeout (handle : nat) (st : t) : t :=
  match timers st !! handle with
  | Some messageId =>
      settle handle (Rejected ("Request timeout after "
                               ++ JsString.of_Z requestTimeoutMs ++ "ms"))
        (deletePending messageId (clearTimeout handle st))
  | None => st
  end.

Inductive sendOutcome : Type :=
| Thrown (message : string)      (* the async function throws: a rejected promise *)
| Awaiting (promise : nat).      (* the request's promise; the caller awaits the chain on it *)

(** [sendCommand], up to the point where it returns. The promise it returns
    is the [then]/[catch] chain on the request's promise, see
    [toToolResponse].
    [messageId] is the [randomUUID()], [nowMessage] and [nowRequest] the two
    readings of the clock, [sendError] the message of the error that
    [ws.send] throws, if it does. *)
Definition sendCommand (messageId : string) (nowMessage nowRequest : Z)
           (sendError : option string) (cmd : string) (payload_ : value)
           (st : t) : sendOutcome * t :=
  match clients st with
  | [] => (Thrown "No extension clients connected", st)
  | (_, client) :: _ =>
      let p := nextHandle st in
      let st1 :=
        {| clients := clients st;
           pendingRequests :=
             JsMap.set (pendingRequests st) messageId
               {| r_id := messageId; r_promise := p; r_timestamp := nowRequest;
                  r_timeoutId := p |};
           promises := <[p := Pending]> (promises st);
           timers := <[p := messageId]> (timers st);
           nextHandle := S p; outbox := outbox st; console := console st |} in
      let failed (message : string) :=
        settle p (Rejected message) (deletePending messageId (clearTimeout p st1)) in
      (Awaiting p,
       if c_open client then
         match sendError with
         | None =>
             {| clients := clients st1; pendingRequests := pendingRequests st1;
                promises := promises st1; timers := timers st1;
                nextHandle := nextHandle st1;
                outbox := outbox st1
                          ++ [(c_id client,
                               {| m_id := messageId; m_cmd := cmd;
                                  m_payload := payload_; m_timestamp := nowMessage |})];
                console := console st1 |}
         | Some e => failed e
         end
       else failed "WebSocket connection not open")
  end.

(** The [then]/[catch] chain of [sendCommand]: what the caller receives
    once the promise [p] is settled; [now] is the clock at that time. *)
Definition toToolResponse (cmd : string) (now : Z) (s : promiseState) : option value :=
  match s with
  | Pending => None
  | Fulfilled response =>
      Some (match response with
            | VObj props =>
                if existsb (fun kv => String.eqb (fst kv) "success") props
                then response
                else VObj [("success", VBool true); ("data", response);
                           ("metadata", VObj [("timestamp", VNum now)])]
            | _ => VObj [("success", VBool true); ("data", response);
                         ("metadata", VObj [("timestamp", VNum now)])]
            end)
  | Rejected message =>
      Some (VObj [("success", VBool false); ("error", VStr message);
                  ("metadata", VObj [("tool", VStr cmd); ("timestamp", VNum now)])])
  end.

Definition cleanupStaleRequests (now : Z) (st : t) : t :=
  forEachPending
    (fun request st' =>
       if requestTimeoutMs <? now - r_timestamp request
       then rejectRequest "Request expired" request st' else st')
    (pendingRequests st) st.

(** [close()] *)
Definition close (st : t) : t :=
  let st1 :=
    forEachPending
      (fun request st' =>
         settle (r_promise request) (Rejected "Server shutting down")
                (clearTimeout (r_timeoutId request) st'))
      (pendingRequests st) st in
  {| clients := []; pendingRequests := []; promises := promises st1;
     timers := timers st1; nextHandle := nextHandle st1; outbox := outbox st1;
     console := console st1 ++ ["[Bridge] WebSocket server closed"] |}.

(** [getStatus] *)
Record bridgeStatus : Type := {
  connected : bool;
  clientCount : nat;
  pendingRequestCount : nat        (* the field [pendingRequests] *)
}.

Definition getStatus (st : t) : bridgeStatus :=
  {| connected := (0 <? JsMap.size (clients st))%nat;
     clientCount := JsMap.size (clients st);
     pendingRequestCount := JsMap.size (pendingRequests st) |}.

(** The body of the loop of [cleanupStaleRequests]. *)
Definition expireIfStale (now : Z) (request : PendingRequest) (st : t) : t :=
  if requestTimeoutMs <? now - r_timestamp request
  then rejectRequest "Request expired" request st else st.

(** The body of the loop of [close]. *)
Definition rejectOnShutdown (request : PendingRequest) (st : t) : t :=
  settle (r_promise request) (Rejected "Server shutting down")
         (clearTimeout (r_timeoutId request) st).

(** The events that drive the bridge. *)
Inductive event : Type :=
| Connection (clientId : string) (now : Z)
| SocketNotOpen (clientId : string)
| Message (clientId : string) (response : BridgeResponse) (now : Z)
| Close (clientId : string)
| Error (clientId : string)
| Pong (clientId : string) (now : Z)
| TimerFires (handle : nat)
| SendCommand (messageId : string) (nowMessage nowRequest : Z)
              (sendError : option string) (cmd : string) (payload_ : value)
| CleanupStaleRequests (now : Z)
| Shutdown.

Definition step (e : event) (st : t) : t :=
  match e with
  | Connection c now => onConnection c now st
  | SocketNotOpen c => onSocketNotOpen c st
  | Message c r now => handleResponse c r now st
  | Close c => onClose c st
  | Error c => onError c st
  | Pong c now => onPong c now st
  | TimerFires h => onTimeout h st
  | SendCommand i n1 n2 e c p => snd (sendCommand i n1 n2 e c p st)
  | CleanupStaleRequests now => cleanupStaleRequests now st
  | Shutdown => close st
  end.

Definition run (es : list event) (st : t) : t := fold_left (fun s e => step e s) es st.

(** The states the bridge can be in. *)
Definition reachable (st : t) : Prop := exists es, st = run es new.

(** What holds of the bookkeeping in every state the bridge reaches:
    each pending request sits under its own id, owns the timer armed for
    it, and its promise is unsettled; handles in use are below the next. *)
Definition entriesInOrder (st : t) : Prop :=
  forall k r,
    JsMap.get (pendingRequests st) k = Some r ->
    r_id r = k /\ r_timeoutId r = r_promise r
    /\ timers st !! r_promise r = Some k
    /\ promises st !! r_promise r = Some Pending.

Definition handlesBounded (st : t) : Prop :=
  (forall h k, timers st !! h = Some k -> (h < nextHandle st)%nat)
  /\ (forall h s, promises st !! h = Some s -> (h < nextHandle st)%nat).

Definition wellFormed (st : t) : Prop := entriesInOrder st /\ handlesBounded st.

End WebSocketBridge.

(** ** MCPToolRegistry (host/mcp-tools.ts)

    [executeTool] is an [async] function. It is modelled by the segments
    that run without interruption: the checks up to the start of request
    tracking, the policy stages up to the call of the handler, the logging
    after the handler has settled, and the recording of the outcome. Other
    calls may run between two segments, so each segment takes the state of
    the policy engine as it is then. *)

Module MCPToolRegistry.

(** [inputSchema.parse(args)] of the validation library: the parsed
    arguments, or the issues (path and message) of the error it throws. *)
Inductive parseResult : Type :=
| Parsed (validatedArgs : list (string * value))
| ZodError (issues : list (string * string)).

Record MCPTool : Type := {
  name : string;
  inputSchema : list (string * value) -> parseResult;
  (** every handler is [bridge.sendCommand(command, args)] *)
  command : string
}.

Definition toolNames : list string :=
  ["open_tab"; "navigate"; "get_url"; "go_back"; "go_forward"; "reload";
   "tabs_list"; "tab_activate"; "click"; "type_text"; "read_text"; "read_dom";
   "wait_for"; "eval_js"; "screenshot"; "download_current"].

(** [registerAllTools], given the schema of each tool. *)
Definition registerAllTools
           (schemas : string -> list (string * value) -> parseResult) : list MCPTool :=
  map (fun n => {| name := n; inputSchema := schemas n; command := n |}) toolNames.

Definition getTool (tools : list MCPTool) (n : string) : option MCPTool :=
  find (fun tl => String.eqb (name tl) n) tools.

Inductive consoleLine : Type :=
| warn (line : string)
| logExecution (entry : value).    (* "Tool execution:", the redacted entry *)

Record World : Type := {
  policyEngine : PolicyEngine.t;
  console : list consoleLine
}.

(** What one call reads from the clock and from [Math.random], by call site. *)
Record Readings : Type := {
  at_result : Z;          (* the timestamp of a result that the registry builds *)
  at_rateLimit : Z;
  at_limiterCheck : Z;
  at_limiterRecord : Z;
  at_requestId : Z;
  at_startRequest : Z;
  at_domainPolicy : Z;
  at_logEntry : Z;
  at_record : Z;
  at_errorId : Z;
  randomSuffix : string   (* Math.random().toString(36).substring(2, 11) *)
}.

(** How a handler settles. *)
Inductive handlerOutcome : Type :=
| Returned (result : list (string * value))
| Threw (message : string).

Definition writeTools : list string :=
  ["open_tab"; "navigate"; "click"; "type_text"; "eval_js"; "download_current";
   "tab_activate"; "go_back"; "go_forward"; "reload"].

Definition getToolOperation (toolName : string) : operation :=
  if existsb (String.eqb toolName) writeTools then OpWrite else OpRead.

Definition extractUrlFromArgs (args : list (string * value)) : option string :=
  match Js.get args "url" with
  | VStr u => Some u
  | _ => None
  end.

Definition extractDomainFromArgs (pf : Platform) (args : list (string * value))
  : option string :=
  match extractUrlFromArgs args with
  | Some u =>
      if JsString.truthy u then
        match URL_hostname pf u with inl h => Some h | inr _ => None end
      else None
  | None => None
  end.

(** [reason || fallback] *)
Definition reasonOr (r : option string) (fallback : string) : string :=
  match r with
  | Some s => if JsString.truthy s then s else fallback
  | None => fallback
  end.

(** [{...base, ...extra}] *)
Definition spread (base : list (string * value)) (extra : option (list (string * value)))
  : list (string * value) :=
  fold_left (fun acc kv => Js.set acc (fst kv) (snd kv)) (default [] extra) base.

Definition failure (message : string) (md : list (string * value))
  : list (string * value) :=
  [("success", VBool false); ("error", VStr message); ("metadata", VObj md)].

Definition with_engine (w : World) (pe : PolicyEngine.t) : World :=
  {| policyEngine := pe; console := console w |}.

Definition say (line : consoleLine) (w : World) : World :=
  {| policyEngine := policyEngine w; console := console w ++ [line] |}.

Inductive checksResult : Type :=
| Done (response : list (string * value))
| Started (tool : MCPTool) (validatedArgs : list (string * value)) (requestId : string).

(** First segment of [executeTool]: lookup, step budget, rate limit,
    failure threshold, validation, request id, start of tracking. *)
Definition executeTool_checks (pf : Platform) (tools : list MCPTool) (rd : Readings)
           (toolName : string) (args : list (string * value)) (w : World)
  : checksResult * World :=
  match getTool tools toolName with
  | None =>
      (Done (failure ("Unknown tool: " ++ toolName)
                     [("tool", VStr toolName); ("timestamp", VNum (at_result rd))]), w)
  | Some tool =>
      let budget := PolicyEngine.checkGlobalStepBudget (policyEngine w) in
      if negb (allowed budget) then
        (Done (failure (reasonOr (reason budget) "Step budget exceeded")
                 (spread [("tool", VStr toolName); ("timestamp", VNum (at_result rd));
                          ("stepBudgetExceeded", VBool true)] (metadata budget))), w)
      else
        let '(rate, pe1) :=
          PolicyEngine.checkRateLimit (at_rateLimit rd) (at_limiterCheck rd)
                                      (at_limiterRecord rd) "global" (policyEngine w) in
        if negb (allowed rate) then
          (Done (failure (reasonOr (reason rate) "Rate limit exceeded")
                   (spread [("tool", VStr toolName); ("timestamp", VNum (at_result rd));
                            ("rateLimited", VBool true)] (metadata rate))),
           with_engine w pe1)
        else
          let failures := PolicyEngine.checkFailureThreshold toolName pe1 in
          if negb (allowed failures) then
            (Done (failure (reasonOr (reason failures) "Too many consecutive failures")
                     [("tool", VStr toolName); ("timestamp", VNum (at_result rd));
                      ("failureThresholdExceeded", VBool true)]),
             with_engine w pe1)
          else
            match inputSchema tool args with
            | ZodError issues =>
                (* the outer catch *)
                let pe2 :=
                  PolicyEngine.recordToolExecution (at_record rd) toolName false
                    (extractDomainFromArgs pf args)
                    (Some (toolName ++ "_" ++ JsString.of_Z (at_errorId rd) ++ "_error"))
                    pe1 in
                (Done (failure
                         ("Invalid input: "
                          ++ String.concat ", "
                               (map (fun i => fst i ++ ": " ++ snd i) issues))
                         [("tool", VStr toolName); ("timestamp", VNum (at_result rd));
                          ("validationError", VBool true)]),
                 with_engine w pe2)
            | Parsed validatedArgs =>
                let requestId :=
                  toolName ++ "_" ++ JsString.of_Z (at_requestId rd) ++ "_"
                  ++ randomSuffix rd in
                (Started tool validatedArgs requestId,
                 with_engine w
                   (PolicyEngine.startToolRequest (at_startRequest rd) requestId pe1))
            end
  end.

Inductive dispatchResult : Type :=
| Refused (response : list (string * value))   (* the domain policy denies *)
| Raised (message : string)                    (* a stage throws before the handler is called *)
| Invoked (cmd : string) (args : list (string * value)).   (* tool.handler(args) is called *)

(** Second segment, [executeToolWithPolicy] up to the call of the handler. *)
Definition executeToolWithPolicy_dispatch (pf : Platform) (rd : Readings)
           (tool : MCPTool) (args : list (string * value)) (w : World)
  : dispatchResult * World :=
  let toolName := name tool in
  let op := getToolOperation toolName in
  let url := match extractUrlFromArgs args with
             | Some u => if JsString.truthy u then Some u else None
             | None => None
             end in
  let stage1 : option (list (string * value)) * World :=
    match url with
    | Some u =>
        let '(decision, pe1) :=
          PolicyEngine.checkDomainPolicy pf (at_domainPolicy rd) u op (policyEngine w) in
        if negb (allowed decision) then
          (Some (failure (reasonOr (reason decision) "Domain policy violation")
                   [("tool", VStr toolName); ("timestamp", VNum (at_result rd));
                    ("policyViolation", VBool true);
                    ("domain", Js.get (default [] (metadata decision)) "domain")]),
           with_engine w pe1)
        else if needsApproval decision then
          (None, say (warn ("Tool " ++ toolName ++ " requires approval for " ++ u
                            ++ " but approval workflow not yet implemented"))
                     (with_engine w pe1))
        else (None, with_engine w pe1)
    | None => (None, w)
    end in
  match stage1 with
  | (Some response, w1) => (Refused response, w1)
  | (None, w1) =>
      match PolicyEngine.checkSensitiveData toolName args url (policyEngine w1) with
      | (inr v, _) => (Raised (TypeError_message pf v), w1)
      | (inl sensitiveData, pe2) =>
          let w2 :=
            if needsApproval sensitiveData
            then say (warn ("Tool " ++ toolName ++ " involves sensitive data: "
                            ++ match reason sensitiveData with
                               | Some r => r | None => "undefined" end))
                     (with_engine w1 pe2)
            else with_engine w1 pe2 in
          let w3 :=
            if String.eqb toolName "type_text" && Js.truthy (Js.get args "text") then
              let largeBody := PolicyEngine.checkLargePostBody pf (Js.get args "text") in
              if needsApproval largeBody
              then say (warn ("Tool " ++ toolName ++ " has large content: "
                              ++ match reason largeBody with
                                 | Some r => r | None => "undefined" end)) w2
              else w2
            else w2 in
          (Invoked (command tool) args, w3)
      end
  end.

(** Third segment: the handler has settled; [executeToolWithPolicy] logs
    the redacted entry and returns the result, or lets the error through. *)
Definition executeToolWithPolicy_return (rd : Readings) (tool : MCPTool)
           (args : list (string * value)) (outcome : handlerOutcome) (w : World)
  : handlerOutcome * World :=
  match outcome with
  | Threw message => (Threw message, w)
  | Returned result =>
      let data := Js.get result "data" in
      let md := Js.get result "metadata" in
      let '(entry, pe1) :=
        PolicyEngine.createRedactedLogEntry (at_logEntry rd) (name tool) (VObj args)
          (if Js.truthy data then data else VObj []) (Some md) (policyEngine w) in
      (Returned result, say (logExecution entry) (with_engine w pe1))
  end.

(** Last segment of [executeTool]: an error of the inner call becomes a
    failure result; the outcome is recorded and the result returned. *)
Definition executeTool_record (pf : Platform) (rd : Readings) (toolName : string)
           (validatedArgs : list (string * value)) (requestId : string)
           (outcome : handlerOutcome) (w : World) : list (string * value) * World :=
  let result :=
    match outcome with
    | Returned r => r
    | Threw message =>
        failure message [("tool", VStr toolName); ("timestamp", VNum (at_result rd));
                         ("requestId", VStr requestId)]
    end in
  (result,
   with_engine w
     (PolicyEngine.recordToolExecution (at_record rd) toolName
        (Js.truthy (Js.get result "success"))
        (extractDomainFromArgs pf validatedArgs) (Some requestId) (policyEngine w))).

(** A call of [executeTool] that no other call interleaves with.
    [handler cmd args] is how the handler settles. *)
Definition executeTool (pf : Platform) (tools : list MCPTool) (rd : Readings)
           (handler : string -> list (string * value) -> handlerOutcome)
           (toolName : string) (args : list (string * value)) (w : World)
  : list (string * value) * World :=
  match executeTool_checks pf tools rd toolName args w with
  | (Done response, w1) => (response, w1)
  | (Started tool validatedArgs requestId, w1) =>
      match executeToolWithPolicy_dispatch pf rd tool validatedArgs w1 with
      | (Refused response, w2) =>
          executeTool_record pf rd toolName validatedArgs requestId (Returned response) w2
      | (Raised message, w2) =>
          (* the catch around the call of [executeToolWithPolicy] *)
          executeTool_record pf rd toolName validatedArgs requestId (Threw message) w2
      | (Invoked cmd handlerArgs, w2) =>
          let '(outcome, w3) :=
            executeToolWithPolicy_return rd tool validatedArgs
                                         (handler cmd handlerArgs) w2 in
          executeTool_record pf rd toolName validatedArgs requestId outcome w3
      end
  end.

Definition isWarning (line : consoleLine) : Prop :=
  match line with warn _ => True | logExecution _ => False end.

(** What [executeTool] returns once the handler has settled. *)
Definition resultOf (rd : Readings) (toolName requestId : string)
           (outcome : handlerOutcome) : list (string * value) :=
  match outcome with
  | Returned result => result
  | Threw message =>
      failure message [("tool", VStr toolName); ("timestamp", VNum (at_result rd));
                       ("requestId", VStr requestId)]
  end.

(** The domain-policy stage of a call allows: there is no URL among the
    arguments, or [checkDomainPolicy] allows it. *)
Definition domainStageAllows (pf : Platform) (rd : Readings) (tool : MCPTool)
           (args : list (string * value)) (w : World) : Prop :=
  forall url,
    extractUrlFromArgs args = Some url -> JsString.truthy url = true ->
    allowed (fst (PolicyEngine.checkDomainPolicy pf (at_domainPolicy rd) url
                    (getToolOperation (name tool)) (policyEngine w))) = true.

(** The URL that [executeToolWithPolicy] checks: the [url] argument, when
    it is a string that is not empty. *)
Definition checkedUrl (args : list (string * value)) : option string :=
  match extractUrlFromArgs args with
  | Some u => if JsString.truthy u then Some u else None
  | None => None
  end.

(** The policy engine as the domain-policy stage leaves it. *)
Definition engineAfterDomainStage (pf : Platform) (rd : Readings) (tool : MCPTool)
           (args : list (string * value)) (w : World) : PolicyEngine.t :=
  match checkedUrl args with
  | Some u => snd (PolicyEngine.checkDomainPolicy pf (at_domainPolicy rd) u
                     (getToolOperation (name tool)) (policyEngine w))
  | None => policyEngine w
  end.

(** A call is admitted when the tool is registered and the step-budget,
    rate-limit and failure-threshold stages allow: [executeTool] then goes
    on to validate the input. *)
Definition admitted (tools : list MCPTool) (rd : Readings) (toolName : string)
           (w : World) : bool :=
  match getTool tools toolName with
  | None => false
  | Some _ =>
      allowed (PolicyEngine.checkGlobalStepBudget (policyEngine w))
      && (let '(rate, pe1) :=
            PolicyEngine.checkRateLimit (at_rateLimit rd) (at_limiterCheck rd)
                                        (at_limiterRecord rd) "global" (policyEngine w) in
          allowed rate && allowed (PolicyEngine.checkFailureThreshold toolName pe1))
  end.

End MCPToolRegistry.

(** ** Concrete scenarios used by the examples below *)

Module Scenario.
Import WebSocketBridge.

(** A bridge with one client and one command in flight. *)
Definition inFlight : t :=
  run [Connection "client-1" 1000;
       SendCommand "msg-1" 2000 2000 None "click" (VObj [("selector", VStr "#go")])]
      new.

(** The same bridge once the timeout of that command has fired. *)
Definition afterTimeout : t := onTimeout 0 inFlight.

Definition lateResponse : BridgeResponse :=
  {| replyTo := "msg-1"; payload := VObj [("success", VBool true)]; error := None |}.

(** Two clients, one command sent through each of two calls. *)
Definition twoInFlight : t :=
  run [Connection "client-1" 1000;
       Connection "client-2" 1100;
       SendCommand "msg-1" 2000 2000 None "click" (VObj [("selector", VStr "#go")]);
       SendCommand "msg-2" 2500 2500 None "get_url" (VObj [])]
      new.

(** A URL parser good enough for [scheme://host/path] URLs. *)
Fixpoint untilAny (stops : string) (s : string) : string :=
  match s with
  | EmptyString => EmptyString
  | String c r => if Regex.one_of stops c then EmptyString else String c (untilAny stops r)
  end.

Fixpoint afterScheme (s : string) : option string :=
  match s with
  | EmptyString => None
  | String c r => if JsString.startsWith s "://" then Some (JsString.slice 3 s)
                  else afterScheme r
  end.

Definition hostOf (url : string) : string + string :=
  match afterScheme url with
  | Some rest => inl (JsString.toLowerCase (untilAny "/:?#" rest))
  | None => inr "Invalid URL"
  end.

Definition platform : Platform :=
  {| URL_hostname := hostOf; JSON_stringify := fun _ => None;
     TypeError_message := fun _ => "Cannot convert object to primitive value";
     Object_prototype := fun _ => VObj [] |}.

Definition readOnly : DomainPolicy :=
  {| read := true; write := false; requiresApproval := None; maxStepsPerHour := None |}.
Definition readWrite : DomainPolicy :=
  {| read := true; write := true; requiresApproval := None; maxStepsPerHour := None |}.

Definition testConfig : Configuration :=
  {| allowlist := [("example.com", readOnly); ("localhost", readWrite);
                   ("bank.com", {| read := true; write := false;
                                   requiresApproval := Some true;
                                   maxStepsPerHour := None |});
                   ("*.example.org", readWrite)];
     sensitivePatterns := map DataRedactor.lit_i ["password"; "card"; "cvv"];
     stepBudget := 10;
     toolTimeoutMs := 5000 |}.

Definition engine : PolicyEngine.t := PolicyEngine.new testConfig 0.

(** A configuration whose allowlist is the one wildcard [*.example.org]. *)
Definition wildcardOnly : Configuration :=
  {| allowlist := [("*.example.org", readWrite)];
     sensitivePatterns := [];
     stepBudget := 100;
     toolTimeoutMs := 30000 |}.

(** A registry whose schemas accept every input as it is, a remote end that
    answers every command with success, and one call's readings. *)
Definition tools : list MCPToolRegistry.MCPTool :=
  MCPToolRegistry.registerAllTools (fun _ args => MCPToolRegistry.Parsed args).

Definition remoteOk (cmd : string) (args : list (string * value))
  : MCPToolRegistry.handlerOutcome :=
  MCPToolRegistry.Returned [("success", VBool true); ("data", VObj [("done", VBool true)])].

Definition remoteFails (cmd : string) (args : list (string * value))
  : MCPToolRegistry.handlerOutcome :=
  MCPToolRegistry.Returned [("success", VBool false); ("error", VStr "Element not found")].

Definition readingsAt (now : Z) : MCPToolRegistry.Readings :=
  {| MCPToolRegistry.at_result := now; MCPToolRegistry.at_rateLimit := now;
     MCPToolRegistry.at_limiterCheck := now; MCPToolRegistry.at_limiterRecord := now;
     MCPToolRegistry.at_requestId := now; MCPToolRegistry.at_startRequest := now;
     MCPToolRegistry.at_domainPolicy := now; MCPToolRegistry.at_logEntry := now;
     MCPToolRegistry.at_record := now; MCPToolRegistry.at_errorId := now;
     MCPToolRegistry.randomSuffix := "k3j9x2abc" |}.

Definition world : MCPToolRegistry.World :=
  {| MCPToolRegistry.policyEngine := engine; MCPToolRegistry.console := [] |}.

Definition typePassword : list (string * value) :=
  [("selector", VStr "input[name='password']"); ("text", VStr "hunter2");
   ("submit", VBool false)].

Definition typeTextTool : MCPToolRegistry.MCPTool :=
  {| MCPToolRegistry.name := "type_text";
     MCPToolRegistry.inputSchema := fun args => MCPToolRegistry.Parsed args;
     MCPToolRegistry.command := "type_text" |}.

Definition clickButton : list (string * value) := [("selector", VStr "#go")].

(** Seven failed executions of [click], recorded the way the dispatcher
    records them, and five recorded without a request id. *)
Definition taggedFailures : list (Z * option string * option string) :=
  map (fun n => (Z.of_nat n * 1000, None,
                 Some ("click_" ++ JsString.of_nat (n * 1000) ++ "_k3j9x2abc")))
      (seq 1 7).

Definition untaggedFailures : list (Z * option string * option string) :=
  map (fun n => (Z.of_nat n * 1000, None, None)) (seq 1 5).

(** Redaction scenarios. *)
Definition redactor : DataRedactor.t := DataRedactor.new [].

Definition profile : value :=
  VObj [("password", VStr "hunter2 1234");
        ("note", VStr "Contact me at john@example.com");
        ("items", VArr [VStr "4111-1111-1111-1111";
                        VObj [("cvv", VStr "123"); ("holder", VStr "J. Doe")];
                        VArr [VStr "555-123-4567"];
                        VNum 7]);
        ("nested", VObj [("__proto__", VStr "x"); ("id", VNum 42)])].

(** A GitHub token followed by three digits. *)
Definition tokenThenDigits : string :=
  "ghp_" ++ JsString.of_chars (JsString.repeat "a" 35) ++ "9123".

Definition tokenNote : value := VObj [("note", VStr tokenThenDigits)].

Definition stars (n : nat) : string := JsString.of_chars (JsString.repeat "*" n).

Definition openCheckout : list (string * value) :=
  [("url", VStr "http://localhost/checkout/cart")].

(** A bridge with one client connected, and the same once the socket of
    that client has left the [OPEN] state. *)
Definition oneClient : t := run [Connection "client-1" 1000] new.

Definition closedSocket : t :=
  run [Connection "client-1" 1000; SocketNotOpen "client-1"] new.

Definition client1 (open : bool) : ConnectedClient :=
  {| c_id := "client-1"; c_open := open; connectedAt := 1000; lastActivity := 1000 |}.

Definition titleResponse : BridgeResponse :=
  {| replyTo := "msg-7"; payload := VObj [("title", VStr "Home")]; error := None |}.

(** One command, whose timeout has fired. *)
Definition timedOut : t :=
  run [Connection "client-1" 1000;
       SendCommand "msg-1" 2000 2000 None "click" (VObj [("selector", VStr "#go")]);
       TimerFires 0]
      new.

(** A command in flight since 2000 and another since 40000. *)
Definition oldAndNew : t :=
  run [Connection "client-1" 1000;
       SendCommand "msg-1" 2000 2000 None "click" (VObj [("selector", VStr "#go")]);
       SendCommand "msg-2" 40000 40000 None "get_url" (VObj [])]
      new.

Definition request (id : string) (handle : nat) (timestamp : Z) : PendingRequest :=
  {| r_id := id; r_promise := handle; r_timestamp := timestamp; r_timeoutId := handle |}.

(** Ten executions on [localhost], one a second from 1000 on, and a world
    whose engine has recorded them: its budget of 10 steps is used up. *)
Definition stepAt (now : Z) : PolicyEngine.execution :=
  {| PolicyEngine.e_now := now; PolicyEngine.e_toolName := "navigate";
     PolicyEngine.e_success := true; PolicyEngine.e_domain := Some "localhost";
     PolicyEngine.e_requestId := None |}.

Definition laterSteps : list PolicyEngine.execution :=
  map (fun n => stepAt (Z.of_nat n * 1000)) (seq 2 9).

Definition spent : MCPToolRegistry.World :=
  {| MCPToolRegistry.policyEngine :=
       PolicyEngine.recordExecutions (stepAt 1000 :: laterSteps) engine;
     MCPToolRegistry.console := [] |}.

(** A registry whose schemas require a string [selector]. *)
Definition strictTools : list MCPToolRegistry.MCPTool :=
  MCPToolRegistry.registerAllTools
    (fun _ args => match Js.get args "selector" with
                   | VStr _ => MCPToolRegistry.Parsed args
                   | _ => MCPToolRegistry.ZodError [("selector", "Required")]
                   end).

Definition navigateTool : MCPToolRegistry.MCPTool :=
  {| MCPToolRegistry.name := "navigate";
     MCPToolRegistry.inputSchema := fun args => MCPToolRegistry.Parsed args;
     MCPToolRegistry.command := "navigate" |}.

Definition openUnlisted : list (string * value) :=
  [("url", VStr "https://evil.test/login")].

End Scenario.

(** * Properties *)

(** ** [JsMap] *)

Section JsMapFacts.
Context {V : Type}.
Implicit Types (m : list (string * V)) (k : string) (v : V).

Lemma JsMap_get_delete_eq m k : JsMap.get (JsMap.delete m k) k = None.
Proof.
  induction m as [|[k' x] m IH]; simpl; [reflexivity|].
  destruct (String.eqb k' k) eqn:E; [exact IH|].
  simpl. rewrite E. exact IH.
Qed.

Lemma JsMap_get_delete_ne m k k' :
  k <> k' -> JsMap.get (JsMap.delete m k) k' = JsMap.get m k'.
Proof.
  intros Hne. induction m as [|[k0 x] m IH]; simpl; [reflexivity|].
  destruct (String.eqb k0 k) eqn:E.
  - apply String.eqb_eq in E. subst k0.
    destruct (String.eqb k k') eqn:E'; [apply String.eqb_eq in E'; contradiction|].
    exact IH.
  - simpl. destruct (String.eqb k0 k'); [reflexivity | exact IH].
Qed.

Lemma JsMap_get_delete_Some m k k' v :
  JsMap.get (JsMap.delete m k) k' = Some v -> k <> k' /\ JsMap.get m k' = Some v.
Proof.
  intros H. destruct (string_dec k k') as [->|Hne].
  - rewrite JsMap_get_delete_eq in H. discriminate.
  - split; [exact Hne|]. rewrite JsMap_get_delete_ne in H; assumption.
Qed.

Lemma JsMap_get_delete_None m k k' :
  JsMap.get m k' = None -> JsMap.get (JsMap.delete m k) k' = None.
Proof.
  intros H. destruct (string_dec k k') as [->|Hne].
  - apply JsMap_get_delete_eq.
  - rewrite JsMap_get_delete_ne; assumption.
Qed.

Lemma JsMap_get_set_eq m k v : JsMap.get (JsMap.set m k v) k = Some v.
Proof.
  induction m as [|[k' x] m IH]; simpl.
  - rewrite String.eqb_refl. reflexivity.
  - destruct (String.eqb k' k) eqn:E; simpl; rewrite E; [reflexivity | exact IH].
Qed.

Lemma JsMap_get_set_ne m k k' v :
  k <> k' -> JsMap.get (JsMap.set m k v) k' = JsMap.get m k'.
Proof.
  intros Hne. induction m as [|[k0 x] m IH]; simpl.
  - destruct (String.eqb k k') eqn:E; [apply String.eqb_eq in E; contradiction|].
    reflexivity.
  - destruct (String.eqb k0 k) eqn:E; simpl.
    + apply String.eqb_eq in E. subst k0.
      destruct (String.eqb k k') eqn:E'; [apply String.eqb_eq in E'; contradiction|].
      reflexivity.
    + destruct (String.eqb k0 k'); [reflexivity | exact IH].
Qed.

Lemma JsMap_keys_delete m k k' :
  In k' (JsMap.keys (JsMap.delete m k)) -> In k' (JsMap.keys m).
Proof.
  induction m as [|[k0 x] m IH]; simpl; [tauto|].
  destruct (String.eqb k0 k); simpl; intuition.
Qed.

Lemma JsMap_get_head_key m :
  (forall k, In k (JsMap.keys m) -> JsMap.get m k = None) -> m = [].
Proof.
  destruct m as [|[k x] m]; [reflexivity|].
  intros H. specialize (H k (or_introl eq_refl)). simpl in H.
  rewrite String.eqb_refl in H. discriminate.
Qed.

Lemma JsMap_get_In m k v : JsMap.get m k = Some v -> In k (JsMap.keys m).
Proof.
  induction m as [|[k0 x] m IH]; simpl; [discriminate|].
  destruct (String.eqb k0 k) eqn:E.
  - apply String.eqb_eq in E. auto.
  - auto.
Qed.
End JsMapFacts.

(** ** The command bridge *)

Section BridgeFacts.
Import WebSocketBridge Scenario.

(** C3. With no client connected, [sendCommand] fails at once with the
    error "No extension clients connected", for every command and
    payload, and the bridge state, the pending-request map included, is
    what it was. *)
Theorem sendCommand_without_clients :
  forall messageId nowMessage nowRequest sendError cmd payload_ st,
    JsMap.size (clients st) = O ->
    sendCommand messageId nowMessage nowRequest sendError cmd payload_ st
    = (Thrown "No extension clients connected", st).
Proof.
  intros messageId n1 n2 e cmd p st Hsize.
  unfold sendCommand. destruct (clients st); [reflexivity | discriminate].
Qed.

Lemma touch_keeps st clientId now :
  pendingRequests (touch clientId now st) = pendingRequests st
  /\ promises (touch clientId now st) = promises st
  /\ timers (touch clientId now st) = timers st.
Proof. unfold touch. destruct (JsMap.get (clients st) clientId); auto. Qed.

(** A response whose [replyTo] has no entry leaves the pending requests,
    every promise and every timer as they were, and is logged. *)
Lemma handleResponse_unknown_request clientId response now st :
  JsMap.get (pendingRequests st) (replyTo response) = None ->
  pendingRequests (handleResponse clientId response now st) = pendingRequests st
  /\ promises (handleResponse clientId response now st) = promises st
  /\ timers (handleResponse clientId response now st) = timers st
  /\ exists line,
      console (handleResponse clientId response now st) = (console st ++ [line])%list.
Proof.
  intros Hnone. unfold handleResponse.
  destruct (JsMap.get (clients st) clientId) as [c|] eqn:Hc; [|simpl; eauto 6].
  destruct (touch_keeps st clientId now) as (Hp & Hq & Ht).
  rewrite Hp, Hnone. simpl. repeat split; auto.
  unfold touch. rewrite Hc. simpl. eauto.
Qed.

Lemma onTimeout_removes st handle messageId :
  timers st !! handle = Some messageId ->
  JsMap.get (pendingRequests (onTimeout handle st)) messageId = None.
Proof.
  intros H. unfold onTimeout. rewrite H. unfold settle. simpl.
  destruct (promises st !! handle) as [[]|]; simpl; apply JsMap_get_delete_eq.
Qed.

(** C4. A response whose [replyTo] matches no pending request, be it
    unknown from the start or that of a request whose timeout has fired
    and removed the entry, is dropped: [handleResponse] returns (it has no
    error outcome), logs one line, settles no promise, touches no timer
    and leaves the pending-request map as it was. *)
Theorem unmatched_response_is_dropped :
  forall clientId response now st,
    (JsMap.get (pendingRequests st) (replyTo response) = None
     \/ exists st0 handle,
         timers st0 !! handle = Some (replyTo response) /\ st = onTimeout handle st0) ->
    pendingRequests (handleResponse clientId response now st) = pendingRequests st
    /\ promises (handleResponse clientId response now st) = promises st
    /\ timers (handleResponse clientId response now st) = timers st
    /\ exists line,
        console (handleResponse clientId response now st) = (console st ++ [line])%list.
Proof.
  intros clientId response now st H.
  apply handleResponse_unknown_request.
  destruct H as [H | (st0 & handle & Ht & ->)]; [exact H|].
  apply onTimeout_removes. exact Ht.
Qed.

Lemma unmatched_response_is_dropped_witness :
  pendingRequests (handleResponse "client-1" lateResponse 32001 afterTimeout) = []
  /\ promises (handleResponse "client-1" lateResponse 32001 afterTimeout) !! O
     = Some (Rejected "Request timeout after 30000ms").
Proof.
  destruct (unmatched_response_is_dropped "client-1" lateResponse 32001 afterTimeout)
    as (Hp & Hq & _).
  - right.
    exists Scenario.inFlight, O. split; reflexivity.
  - rewrite Hp, Hq. split; reflexivity.
Defined.

Lemma sendCommand_without_clients_witness :
  sendCommand "msg-1" 2000 2000 None "click" (VObj []) new
  = (Thrown "No extension clients connected", new).
Proof. apply sendCommand_without_clients. reflexivity. Defined.


(** *** The bookkeeping invariant *)

Lemma wellFormed_new : wellFormed new.
Proof.
  split; [intros k r H; discriminate|].
  split; intros h x H; simpl in H; rewrite lookup_empty in H; discriminate.
Qed.

(** Only the pending requests, the promises, the timers and the next
    handle matter. *)
Lemma wellFormed_same st st' :
  pendingRequests st' = pendingRequests st -> promises st' = promises st ->
  timers st' = timers st -> nextHandle st' = nextHandle st ->
  wellFormed st -> wellFormed st'.
Proof.
  intros Hp Hq Ht Hn [He [Hbt Hbp]].
  split; [|split].
  - intros k r H. rewrite Hp in H. rewrite Hq, Ht. apply He; exact H.
  - intros h k H. rewrite Ht in H. rewrite Hn. eapply Hbt; exact H.
  - intros h x H. rewrite Hq in H. rewrite Hn. eapply Hbp; exact H.
Qed.

Lemma settle_fields p o st :
  pendingRequests (settle p o st) = pendingRequests st
  /\ timers (settle p o st) = timers st
  /\ nextHandle (settle p o st) = nextHandle st
  /\ clients (settle p o st) = clients st
  /\ (promises (settle p o st) = promises st
      \/ (promises st !! p = Some Pending
          /\ promises (settle p o st) = <[p := o]> (promises st))).
Proof.
  unfold settle. destruct (promises st !! p) as [[]|] eqn:E; simpl; auto 10.
Qed.

(** A request is retired: its entry, its timer and perhaps its promise go. *)
Lemma wellFormed_retire st st' h k :
  wellFormed st ->
  timers st !! h = Some k ->
  pendingRequests st' = JsMap.delete (pendingRequests st) k ->
  timers st' = delete h (timers st) ->
  (promises st' = promises st \/ exists o, promises st' = <[h := o]> (promises st)) ->
  nextHandle st' = nextHandle st ->
  wellFormed st'.
Proof.
  intros [He [Hbt Hbp]] Hh Hp Ht Hq Hn.
  split; [|split].
  - intros k' r H. rewrite Hp in H.
    apply JsMap_get_delete_Some in H. destruct H as [Hne H].
    destruct (He k' r H) as (H1 & H2 & H3 & H4).
    assert (Hph : r_promise r <> h).
    { intros Heq. rewrite Heq, Hh in H3. congruence. }
    repeat split; try assumption.
    + rewrite Ht, lookup_delete_ne by auto. exact H3.
    + destruct Hq as [-> | [o ->]]; [exact H4|].
      rewrite lookup_insert_ne by auto. exact H4.
  - intros h' k' H. rewrite Ht in H. rewrite Hn.
    apply lookup_delete_Some in H. destruct H as [_ H]. eapply Hbt; exact H.
  - intros h' x H. rewrite Hn. destruct Hq as [Hq | [o Hq]]; rewrite Hq in H.
    + eapply Hbp; exact H.
    + destruct (decide (h = h')) as [<-|Hne].
      * eapply Hbt; exact Hh.
      * rewrite lookup_insert_ne in H by auto. eapply Hbp; exact H.
Qed.

Lemma wellFormed_rejectRequest message st k r :
  wellFormed st -> JsMap.get (pendingRequests st) k = Some r ->
  wellFormed (rejectRequest message r st).
Proof.
  intros Hwf H. destruct (proj1 Hwf k r H) as (H1 & H2 & H3 & H4).
  unfold rejectRequest.
  destruct (settle_fields (r_promise r) (Rejected message)
                          (clearTimeout (r_timeoutId r) st)) as (Fp & Ft & Fn & _ & Fq).
  eapply (wellFormed_retire st _ (r_promise r) k Hwf H3); simpl.
  - rewrite Fp, H1. reflexivity.
  - rewrite Ft. simpl. rewrite H2. reflexivity.
  - destruct Fq as [-> | [_ ->]]; simpl; eauto.
  - rewrite Fn. reflexivity.
Qed.

Lemma wellFormed_forEachPending body :
  (forall st k r, wellFormed st -> JsMap.get (pendingRequests st) k = Some r ->
                  wellFormed (body r st)) ->
  forall todo st, wellFormed st -> wellFormed (forEachPending body todo st).
Proof.
  intros Hbody todo. induction todo as [|[k x] todo IH]; intros st Hwf; simpl; [exact Hwf|].
  destruct (JsMap.get (pendingRequests st) k) as [r|] eqn:E.
  - apply IH. eapply Hbody; eassumption.
  - apply IH. exact Hwf.
Qed.

Lemma wellFormed_touch clientId now st : wellFormed st -> wellFormed (touch clientId now st).
Proof.
  unfold touch. destruct (JsMap.get (clients st) clientId); [|auto].
  apply wellFormed_same; reflexivity.
Qed.

Lemma wellFormed_handleResponse clientId response now st :
  wellFormed st -> wellFormed (handleResponse clientId response now st).
Proof.
  intros Hwf. unfold handleResponse.
  destruct (JsMap.get (clients st) clientId) as [c|];
    [|revert Hwf; apply wellFormed_same; reflexivity].
  pose proof (wellFormed_touch clientId now st Hwf) as Hwf1.
  set (st1 := touch clientId now st) in *.
  destruct (JsMap.get (pendingRequests st1) (replyTo response)) as [r|] eqn:E;
    [|revert Hwf1; apply wellFormed_same; reflexivity].
  destruct (proj1 Hwf1 _ r E) as (H1 & H2 & H3 & H4).
  assert (Hgen : forall o,
             wellFormed (settle (r_promise r) o
                           (deletePending (replyTo response)
                              (clearTimeout (r_timeoutId r) st1)))).
  { intros o.
    destruct (settle_fields (r_promise r) o
                (deletePending (replyTo response) (clearTimeout (r_timeoutId r) st1)))
      as (Fp & Ft & Fn & _ & Fq).
    eapply (wellFormed_retire st1 _ (r_promise r) (replyTo response) Hwf1 H3).
    - rewrite Fp. reflexivity.
    - rewrite Ft. simpl. rewrite H2. reflexivity.
    - destruct Fq as [-> | [_ ->]]; simpl; eauto.
    - rewrite Fn. reflexivity. }
  destruct (error response) as [e|]; [destruct (JsString.truthy e)|]; apply Hgen.
Qed.

Lemma wellFormed_onTimeout handle st : wellFormed st -> wellFormed (onTimeout handle st).
Proof.
  intros Hwf. unfold onTimeout.
  destruct (timers st !! handle) as [messageId|] eqn:E; [|exact Hwf].
  match goal with |- wellFormed (settle ?p ?o ?s) =>
    destruct (settle_fields p o s) as (Fp & Ft & Fn & _ & Fq) end.
  eapply (wellFormed_retire st _ handle messageId Hwf E).
  - rewrite Fp. reflexivity.
  - rewrite Ft. reflexivity.
  - destruct Fq as [-> | [_ ->]]; simpl; eauto.
  - rewrite Fn. reflexivity.
Qed.

Lemma wellFormed_sendCommand messageId n1 n2 sendError cmd payload_ st :
  wellFormed st ->
  wellFormed (snd (sendCommand messageId n1 n2 sendError cmd payload_ st)).
Proof.
  intros Hwf. unfold sendCommand.
  destruct (clients st) as [|[cid client] cs]; [exact Hwf|].
  cbv zeta.
  match goal with
  | |- context [clearTimeout _ ?s] => set (st1 := s)
  end.
  assert (Hwf1 : wellFormed st1).
  { destruct Hwf as [He [Hbt Hbp]]. split; [|split].
    - intros k r H. subst st1. simpl in *.
      destruct (string_dec messageId k) as [<-|Hne].
      + rewrite JsMap_get_set_eq in H. injection H as <-. simpl.
        rewrite !lookup_insert_eq. auto.
      + rewrite JsMap_get_set_ne in H by exact Hne.
        destruct (He k r H) as (H1 & H2 & H3 & H4).
        assert (r_promise r <> nextHandle st).
        { apply Hbt in H3. lia. }
        rewrite !lookup_insert_ne by auto. auto.
    - intros h k H. subst st1. simpl in *.
      destruct (decide (nextHandle st = h)) as [<-|Hne]; [lia|].
      rewrite lookup_insert_ne in H by exact Hne. apply Hbt in H. lia.
    - intros h x H. subst st1. simpl in *.
      destruct (decide (nextHandle st = h)) as [<-|Hne]; [lia|].
      rewrite lookup_insert_ne in H by exact Hne. apply Hbp in H. lia. }
  assert (Hfail : forall message,
             wellFormed (settle (nextHandle st) (Rejected message)
                           (deletePending messageId
                              (clearTimeout (nextHandle st) st1)))).
  { intros message.
    match goal with |- wellFormed (settle ?p ?o ?s) =>
      destruct (settle_fields p o s) as (Fp & Ft & Fn & _ & Fq) end.
    eapply (wellFormed_retire st1 _ (nextHandle st) messageId Hwf1).
    - subst st1. simpl. apply lookup_insert_eq.
    - rewrite Fp. reflexivity.
    - rewrite Ft. reflexivity.
    - destruct Fq as [-> | [_ ->]]; simpl; eauto.
    - rewrite Fn. reflexivity. }
  simpl.
  destruct (c_open client); [destruct sendError|]; try apply Hfail.
  revert Hwf1. apply wellFormed_same; reflexivity.
Qed.

Lemma handlesBounded_forEachPending body :
  (forall st r, handlesBounded st -> handlesBounded (body r st)) ->
  forall todo st, handlesBounded st -> handlesBounded (forEachPending body todo st).
Proof.
  intros Hbody todo. induction todo as [|[k x] todo IH]; intros st Hb; simpl; [exact Hb|].
  destruct (JsMap.get (pendingRequests st) k); auto.
Qed.

Lemma wellFormed_close st : wellFormed st -> wellFormed (close st).
Proof.
  intros [_ Hb]. unfold close.
  match goal with |- context [forEachPending ?b ?l st] =>
    assert (Hb1 : handlesBounded (forEachPending b l st)) end.
  { apply handlesBounded_forEachPending; [|exact Hb].
    intros s r [Hbt Hbp].
    match goal with |- handlesBounded (settle ?p ?o ?s0) =>
      destruct (settle_fields p o s0) as (_ & Ft & Fn & _ & Fq) end.
    split.
    - intros h k H. rewrite Ft in H. rewrite Fn. simpl in *.
      apply lookup_delete_Some in H. destruct H as [_ H]. eapply Hbt; exact H.
    - intros h x H. rewrite Fn. simpl.
      destruct Fq as [Fq | [Hpend Fq]]; rewrite Fq in H; simpl in H.
      + eapply Hbp; exact H.
      + destruct (decide (r_promise r = h)) as [<-|Hne].
        * eapply Hbp; exact Hpend.
        * rewrite lookup_insert_ne in H by exact Hne. eapply Hbp; exact H. }
  split; [intros k r H; discriminate | exact Hb1].
Qed.

Lemma wellFormed_step e st : wellFormed st -> wellFormed (step e st).
Proof.
  intros Hwf. destruct e; simpl.
  - revert Hwf. apply wellFormed_same; reflexivity.
  - unfold onSocketNotOpen. destruct (JsMap.get (clients st) clientId); [|exact Hwf].
    revert Hwf. apply wellFormed_same; reflexivity.
  - apply wellFormed_handleResponse; exact Hwf.
  - apply wellFormed_forEachPending.
    + intros s k r Hs Hr. eapply wellFormed_rejectRequest; eassumption.
    + revert Hwf. apply wellFormed_same; reflexivity.
  - apply wellFormed_forEachPending.
    + intros s k r Hs Hr. eapply wellFormed_rejectRequest; eassumption.
    + revert Hwf. apply wellFormed_same; reflexivity.
  - apply wellFormed_touch; exact Hwf.
  - apply wellFormed_onTimeout; exact Hwf.
  - apply wellFormed_sendCommand; exact Hwf.
  - apply wellFormed_forEachPending; [|exact Hwf].
    intros s k r Hs Hr. destruct (requestTimeoutMs <? now - r_timestamp r); [|exact Hs].
    eapply wellFormed_rejectRequest; eassumption.
  - apply wellFormed_close; exact Hwf.
Qed.

Lemma reachable_wellFormed st : reachable st -> wellFormed st.
Proof.
  intros [es ->]. unfold run.
  generalize wellFormed_new. generalize new.
  induction es as [|e es IH]; intros s Hs; simpl; [exact Hs|].
  apply IH. apply wellFormed_step. exact Hs.
Qed.


(** *** Rejecting every pending request *)

Lemma rejectRequest_pending message r st :
  pendingRequests (rejectRequest message r st)
  = JsMap.delete (pendingRequests st) (r_id r).
Proof.
  unfold rejectRequest. simpl.
  match goal with |- context [settle ?p ?o ?s] =>
    destruct (settle_fields p o s) as (Fp & _) end.
  rewrite Fp. reflexivity.
Qed.

Lemma rejectRequest_promises message r st :
  promises st !! r_promise r = Some Pending ->
  promises (rejectRequest message r st) = <[r_promise r := Rejected message]> (promises st).
Proof.
  intros H. unfold rejectRequest, settle. simpl. rewrite H. reflexivity.
Qed.

Lemma rejectRequest_settled message r st p s :
  promises st !! p = Some s -> s <> Pending ->
  promises (rejectRequest message r st) !! p = Some s.
Proof.
  intros H Hs. unfold rejectRequest, settle. simpl.
  destruct (promises st !! r_promise r) as [[]|] eqn:E; simpl; try exact H.
  rewrite lookup_insert_ne; [exact H|]. intros Heq. rewrite Heq in E. congruence.
Qed.

Section RejectAll.
Variable message : string.
Local Abbreviation rejectAll := (forEachPending (rejectRequest message)).

Lemma rejectAll_absent todo st k :
  JsMap.get (pendingRequests st) k = None ->
  JsMap.get (pendingRequests (rejectAll todo st)) k = None.
Proof.
  revert st. induction todo as [|[key x] todo IH]; intros st H; simpl; [exact H|].
  destruct (JsMap.get (pendingRequests st) key) as [r|]; apply IH; [|exact H].
  rewrite rejectRequest_pending. apply JsMap_get_delete_None. exact H.
Qed.

Lemma rejectAll_keys todo st k :
  In k (JsMap.keys (pendingRequests (rejectAll todo st))) ->
  In k (JsMap.keys (pendingRequests st)).
Proof.
  revert st. induction todo as [|[key x] todo IH]; intros st H; simpl in H; [exact H|].
  destruct (JsMap.get (pendingRequests st) key) as [r|]; apply IH in H; [|exact H].
  rewrite rejectRequest_pending in H. eapply JsMap_keys_delete; exact H.
Qed.

Lemma rejectAll_settled todo st p s :
  promises st !! p = Some s -> s <> Pending ->
  promises (rejectAll todo st) !! p = Some s.
Proof.
  revert st. induction todo as [|[key x] todo IH]; intros st H Hs; simpl; [exact H|].
  destruct (JsMap.get (pendingRequests st) key) as [r|]; apply IH; auto.
  apply rejectRequest_settled; assumption.
Qed.

Lemma rejectAll_visited todo st k :
  wellFormed st -> In k (JsMap.keys todo) ->
  JsMap.get (pendingRequests (rejectAll todo st)) k = None.
Proof.
  revert st. induction todo as [|[key x] todo IH]; intros st Hwf Hin; simpl in *;
    [contradiction|].
  destruct (JsMap.get (pendingRequests st) key) as [r|] eqn:E.
  - destruct Hin as [<-|Hin].
    + apply rejectAll_absent. rewrite rejectRequest_pending.
      destruct (proj1 Hwf key r E) as (-> & _). apply JsMap_get_delete_eq.
    + apply IH; [|exact Hin]. eapply wellFormed_rejectRequest; eassumption.
  - destruct Hin as [<-|Hin]; [apply rejectAll_absent; exact E | apply IH; assumption].
Qed.

Lemma rejectAll_rejects todo st k r :
  wellFormed st -> In k (JsMap.keys todo) ->
  JsMap.get (pendingRequests st) k = Some r ->
  promises (rejectAll todo st) !! r_promise r = Some (Rejected message).
Proof.
  revert st. induction todo as [|[key x] todo IH]; intros st Hwf Hin Hget; simpl in *;
    [contradiction|].
  destruct (JsMap.get (pendingRequests st) key) as [r0|] eqn:E.
  - destruct (proj1 Hwf key r0 E) as (Hid & _ & _ & Hpend).
    destruct (string_dec key k) as [->|Hne].
    + assert (r0 = r) by congruence. subst r0.
      apply rejectAll_settled; [|discriminate].
      rewrite rejectRequest_promises by exact Hpend. apply lookup_insert_eq.
    + destruct Hin as [Heq|Hin]; [contradiction|].
      apply IH; [eapply wellFormed_rejectRequest; eassumption | exact Hin |].
      rewrite rejectRequest_pending, Hid. rewrite JsMap_get_delete_ne; assumption.
  - destruct Hin as [<-|Hin]; [congruence|]. apply IH; assumption.
Qed.

Lemma rejectAll_empties st st0 :
  wellFormed st0 -> pendingRequests st0 = pendingRequests st ->
  pendingRequests (rejectAll (pendingRequests st) st0) = [].
Proof.
  intros Hwf Hp. apply JsMap_get_head_key. intros k Hin.
  apply rejectAll_visited; [exact Hwf|].
  apply rejectAll_keys in Hin. rewrite Hp in Hin. exact Hin.
Qed.
End RejectAll.

(** C5. In every state the bridge can reach, when the [close] (or the
    [error]) handler of any client's socket runs, every request of the
    pending-request map is rejected with "Client disconnected" and the
    map is left empty, whichever client the requests were sent to. *)
Theorem disconnect_rejects_all_pending :
  forall st clientId st',
    reachable st ->
    st' = onClose clientId st \/ st' = onError clientId st ->
    pendingRequests st' = []
    /\ forall k r, JsMap.get (pendingRequests st) k = Some r ->
                   promises st !! r_promise r = Some Pending
                   /\ promises st' !! r_promise r = Some (Rejected "Client disconnected").
Proof.
  intros st clientId st' Hreach Hst'.
  pose proof (reachable_wellFormed st Hreach) as Hwf.
  assert (Hgen : forall st0,
             wellFormed st0 -> pendingRequests st0 = pendingRequests st ->
             promises st0 = promises st ->
             pendingRequests (rejectPendingRequestsForClient st0) = []
             /\ forall k r, JsMap.get (pendingRequests st) k = Some r ->
                   promises st !! r_promise r = Some Pending
                   /\ promises (rejectPendingRequestsForClient st0) !! r_promise r
                      = Some (Rejected "Client disconnected")).
  { intros st0 Hwf0 Hp Hq. unfold rejectPendingRequestsForClient. split.
    - rewrite Hp at 1. apply rejectAll_empties; assumption.
    - intros k r Hget. split; [apply (proj1 Hwf k r Hget)|].
      eapply rejectAll_rejects; [exact Hwf0 | | rewrite Hp; exact Hget].
      rewrite Hp. eapply JsMap_get_In; exact Hget. }
  destruct Hst' as [-> | ->]; apply Hgen; try reflexivity;
    (revert Hwf; apply wellFormed_same; reflexivity).
Qed.

End BridgeFacts.

Lemma disconnect_rejects_all_pending_witness :
  let st' := WebSocketBridge.onClose "client-2" Scenario.twoInFlight in
  WebSocketBridge.pendingRequests st' = []
  /\ WebSocketBridge.promises st' !! O
     = Some (WebSocketBridge.Rejected "Client disconnected")
  /\ WebSocketBridge.promises st' !! 1%nat
     = Some (WebSocketBridge.Rejected "Client disconnected").
Proof.
  assert (Hreach : WebSocketBridge.reachable Scenario.twoInFlight)
    by (unfold Scenario.twoInFlight; eexists; reflexivity).
  destruct (disconnect_rejects_all_pending Scenario.twoInFlight "client-2" _
              Hreach (or_introl eq_refl)) as [Hempty Hall].
  assert (H1 : JsMap.get (WebSocketBridge.pendingRequests Scenario.twoInFlight) "msg-1"
               = Some {| WebSocketBridge.r_id := "msg-1"; WebSocketBridge.r_promise := 0;
                         WebSocketBridge.r_timestamp := 2000;
                         WebSocketBridge.r_timeoutId := 0 |})
    by (vm_compute; reflexivity).
  assert (H2 : JsMap.get (WebSocketBridge.pendingRequests Scenario.twoInFlight) "msg-2"
               = Some {| WebSocketBridge.r_id := "msg-2"; WebSocketBridge.r_promise := 1;
                         WebSocketBridge.r_timestamp := 2500;
                         WebSocketBridge.r_timeoutId := 1 |})
    by (vm_compute; reflexivity).
  split; [exact Hempty|]. split.
  - exact (proj2 (Hall "msg-1" _ H1)).
  - exact (proj2 (Hall "msg-2" _ H2)).
Defined.

(** ** The rate limiter *)

Section RateLimiterFacts.
Import RateLimiter.

Lemma untrack_failures requestId l :
  consecutiveFailures (untrack requestId l) = consecutiveFailures l
  /\ maxConsecutiveFailures (untrack requestId l) = maxConsecutiveFailures l.
Proof. unfold untrack. destruct (activeRequests l !! requestId); auto. Qed.

Lemma completeRequest_threshold requestId success l :
  maxConsecutiveFailures (completeRequest requestId success l) = maxConsecutiveFailures l.
Proof.
  unfold completeRequest. destruct success; simpl; apply untrack_failures.
Qed.

Lemma failureCount_failure identifier l :
  failureCount identifier (completeRequest identifier false l)
  = failureCount identifier l + 1.
Proof.
  unfold completeRequest, failureCount, failures. simpl.
  rewrite lookup_insert_eq. simpl default.
  destruct (untrack_failures identifier l) as [-> _]. lia.
Qed.

Lemma failureCount_success identifier l :
  failureCount identifier (completeRequest identifier true l) = 0.
Proof.
  unfold completeRequest, failureCount, failures. simpl.
  rewrite lookup_delete_eq. reflexivity.
Qed.

Lemma failureCount_other identifier requestId success l :
  requestId <> identifier ->
  failureCount identifier (completeRequest requestId success l)
  = failureCount identifier l.
Proof.
  intros Hne. unfold completeRequest, failureCount, failures.
  destruct (untrack_failures requestId l) as [Hf _].
  destruct success; simpl.
  - rewrite lookup_delete_ne by exact Hne. rewrite Hf. reflexivity.
  - rewrite lookup_insert_ne by exact Hne. rewrite Hf. reflexivity.
Qed.

Lemma failTimes_count n identifier l :
  failureCount identifier (failTimes n identifier l)
  = failureCount identifier l + Z.of_nat n
  /\ maxConsecutiveFailures (failTimes n identifier l) = maxConsecutiveFailures l.
Proof.
  unfold failTimes. induction n as [|n [IHc IHm]].
  - simpl. split; [lia | reflexivity].
  - rewrite Nat.iter_succ. rewrite failureCount_failure, completeRequest_threshold.
    split; [lia | exact IHm].
Qed.

(** C6, as amended. For every identifier and every configured threshold
    [K >= 1]: after exactly [K] calls of
    [completeRequest(identifier, false)] in a row,
    [checkFailureThreshold(identifier)] denies; and one
    [completeRequest(identifier, true)] puts the count back to 0, so that
    the next check allows with [failureCount] 0. *)
Theorem failure_threshold_after_K_failures :
  forall identifier (K : nat) l,
    (1 <= K)%nat ->
    maxConsecutiveFailures l = Z.of_nat K ->
    f_allowed (checkFailureThreshold identifier (failTimes K identifier l)) = false
    /\ forall l', maxConsecutiveFailures l' = Z.of_nat K ->
         failureCount identifier (completeRequest identifier true l') = 0
         /\ checkFailureThreshold identifier (completeRequest identifier true l')
            = {| f_allowed := true; f_reason := None; f_failureCount := 0 |}.
Proof.
  intros identifier K l HK Hmax. split.
  - unfold checkFailureThreshold.
    destruct (failTimes_count K identifier l) as [-> ->].
    rewrite Hmax.
    destruct (Z.of_nat K <=? failureCount identifier l + Z.of_nat K) eqn:E;
      [reflexivity | apply Z.leb_gt in E; unfold failureCount in E; lia].
  - intros l' Hmax'. split; [apply failureCount_success|].
    unfold checkFailureThreshold.
    rewrite failureCount_success, completeRequest_threshold, Hmax'.
    destruct (Z.of_nat K <=? 0) eqn:E; [apply Z.leb_le in E; lia | reflexivity].
Qed.

Lemma failure_threshold_after_K_failures_witness :
  f_allowed (checkFailureThreshold "click" (failTimes 5 "click" (new 60 1000 30000 5)))
  = false
  /\ checkFailureThreshold "click"
       (completeRequest "click" true (failTimes 5 "click" (new 60 1000 30000 5)))
     = {| f_allowed := true; f_reason := None; f_failureCount := 0 |}.
Proof.
  destruct (failure_threshold_after_K_failures "click" 5 (new 60 1000 30000 5))
    as [Hdeny Hreset].
  - lia.
  - reflexivity.
  - split; [exact Hdeny|].
    apply (Hreset (failTimes 5 "click" (new 60 1000 30000 5))). reflexivity.
Defined.

(** With the threshold configured as 0 the check denies even right after a
    success, at count 0. *)
Lemma failure_threshold_zero_counterexample :
  let l := completeRequest "click" true (new 60 1000 30000 0) in
  maxConsecutiveFailures l = 0
  /\ failureCount "click" l = 0
  /\ f_allowed (checkFailureThreshold "click" l) = false.
Proof. vm_compute. auto. Qed.


(** *** Windows *)

Lemma minuteKey_hourKey identifier : minuteKey identifier <> hourKey identifier.
Proof.
  unfold minuteKey, hourKey. induction identifier as [|c r IH]; simpl.
  - discriminate.
  - intros H. injection H as H. exact (IH H).
Qed.

Lemma bump_other now size key key' m :
  key <> key' -> bump now size key m !! key' = m !! key'.
Proof.
  intros Hne. unfold bump.
  destruct (m !! key) as [d|]; [destruct (size <? now - resetTime d)|];
    apply lookup_insert_ne; exact Hne.
Qed.

Lemma bump_fresh now size key m :
  startsWindow (m !! key) now size ->
  bump now size key m !! key = Some {| count := 1; resetTime := now |}.
Proof.
  unfold startsWindow, bump. destruct (m !! key) as [d|].
  - intros H. apply Z.ltb_lt in H. rewrite H. apply lookup_insert_eq.
  - intros _. apply lookup_insert_eq.
Qed.

Lemma bump_live now size key m c t0 :
  m !! key = Some {| count := c; resetTime := t0 |} -> now - t0 <= size ->
  bump now size key m !! key = Some {| count := c + 1; resetTime := t0 |}.
Proof.
  intros Hm Hle. unfold bump. rewrite Hm. simpl.
  destruct (size <? now - t0) eqn:E; [apply Z.ltb_lt in E; lia|].
  apply lookup_insert_eq.
Qed.

Lemma recordRequest_minute now identifier l :
  requestCounts (recordRequest now identifier l) !! minuteKey identifier
  = bump now minuteMs (minuteKey identifier) (requestCounts l) !! minuteKey identifier.
Proof.
  unfold recordRequest. simpl. apply bump_other.
  intros H. symmetry in H. exact (minuteKey_hourKey identifier H).
Qed.

Lemma recordRequest_hour now identifier l :
  requestCounts (recordRequest now identifier l) !! hourKey identifier
  = bump now hourMs (hourKey identifier) (requestCounts l) !! hourKey identifier.
Proof.
  unfold recordRequest. simpl. unfold bump at 1.
  rewrite bump_other by apply minuteKey_hourKey.
  destruct (requestCounts l !! hourKey identifier) as [d|] eqn:E.
  - destruct (hourMs <? now - resetTime d) eqn:E'; rewrite lookup_insert_eq;
      unfold bump; rewrite E, E', lookup_insert_eq; reflexivity.
  - rewrite lookup_insert_eq. unfold bump. rewrite E, lookup_insert_eq. reflexivity.
Qed.

Lemma recordRequest_limits now identifier l :
  maxRequestsPerMinute (recordRequest now identifier l) = maxRequestsPerMinute l
  /\ maxRequestsPerHour (recordRequest now identifier l) = maxRequestsPerHour l.
Proof. split; reflexivity. Qed.

(** Requests recorded while the window that started at [t0] is live are
    counted in it. *)
Lemma recordAll_live ts identifier l cm ch t0 :
  requestCounts l !! minuteKey identifier = Some {| count := cm; resetTime := t0 |} ->
  requestCounts l !! hourKey identifier = Some {| count := ch; resetTime := t0 |} ->
  Forall (fun now => now - t0 <= minuteMs) ts ->
  let l' := recordAll ts identifier l in
  requestCounts l' !! minuteKey identifier
  = Some {| count := cm + Z.of_nat (List.length ts); resetTime := t0 |}
  /\ requestCounts l' !! hourKey identifier
     = Some {| count := ch + Z.of_nat (List.length ts); resetTime := t0 |}
  /\ maxRequestsPerMinute l' = maxRequestsPerMinute l
  /\ maxRequestsPerHour l' = maxRequestsPerHour l.
Proof.
  revert l cm ch. induction ts as [|now ts IH]; intros l cm ch Hm Hh Hts; simpl.
  - rewrite !Z.add_0_r. auto.
  - inversion Hts as [|? ? Hnow Hrest]; subst.
    assert (Hhour : now - t0 <= hourMs).
    { unfold minuteMs, hourMs in *. lia. }
    specialize (IH (recordRequest now identifier l) (cm + 1) (ch + 1)).
    destruct IH as (IHm & IHh & IHlm & IHlh).
    + rewrite recordRequest_minute. eapply bump_live; eassumption.
    + rewrite recordRequest_hour. eapply bump_live; eassumption.
    + exact Hrest.
    + unfold recordAll in *. simpl in *.
      rewrite IHm, IHh, IHlm, IHlh.
      repeat split; f_equal; f_equal; lia.
Qed.

Lemma recordAll_minute ts identifier l c t0 :
  requestCounts l !! minuteKey identifier = Some {| count := c; resetTime := t0 |} ->
  Forall (fun now => now - t0 <= minuteMs) ts ->
  requestCounts (recordAll ts identifier l) !! minuteKey identifier
  = Some {| count := c + Z.of_nat (List.length ts); resetTime := t0 |}
  /\ maxRequestsPerMinute (recordAll ts identifier l) = maxRequestsPerMinute l
  /\ maxRequestsPerHour (recordAll ts identifier l) = maxRequestsPerHour l.
Proof.
  revert l c. induction ts as [|now ts IH]; intros l c Hm Hts.
  - simpl. rewrite Z.add_0_r. auto.
  - inversion Hts as [|? ? Hnow Hrest]; subst.
    destruct (IH (recordRequest now identifier l) (c + 1)) as (A & B & C).
    + rewrite recordRequest_minute. eapply bump_live; eassumption.
    + exact Hrest.
    + unfold recordAll in *. simpl fold_left. rewrite A, B, C.
      repeat split. f_equal. f_equal. simpl List.length. lia.
Qed.

Lemma ceil_seconds_spec x :
  1000 * (ceil_seconds x - 1) < x <= 1000 * ceil_seconds x.
Proof.
  unfold ceil_seconds.
  pose proof (Z.div_mod (- x) 1000 ltac:(lia)) as Hdm.
  pose proof (Z.mod_pos_bound (- x) 1000 ltac:(lia)) as Hb.
  lia.
Qed.

(** C7, as amended. For a limiter with [maxRequestsPerMinute = N >= 1]:
    when [recordRequest(id)] at [t0] opens a minute window and [N - 1]
    further calls fall in that window, then
    - every [checkRateLimit(id)] inside the window ([now - t0 < 60000])
      denies with [retryAfter], the remaining time rounded up to whole
      seconds, greater than 0;
    - once the window is over ([now - t0 >= 60000]) [checkRateLimit(id)]
      allows again, provided these [N] requests also opened the hour
      window and [N] is below [maxRequestsPerHour]. *)
Theorem rate_limit_minute_window :
  forall identifier (N : nat) l t0 ts,
    (1 <= N)%nat ->
    maxRequestsPerMinute l = Z.of_nat N ->
    List.length (t0 :: ts) = N ->
    startsWindow (requestCounts l !! minuteKey identifier) t0 minuteMs ->
    Forall (fun now => now - t0 <= minuteMs) ts ->
    let l' := recordAll (t0 :: ts) identifier l in
    (forall now, now - t0 < minuteMs ->
       allowed (checkRateLimit now identifier l') = false
       /\ retryAfter (checkRateLimit now identifier l')
          = Some (ceil_seconds (minuteMs - (now - t0)))
       /\ 0 < ceil_seconds (minuteMs - (now - t0)))
    /\ (forall now,
          startsWindow (requestCounts l !! hourKey identifier) t0 hourMs ->
          Z.of_nat N < maxRequestsPerHour l ->
          minuteMs <= now - t0 ->
          checkRateLimit now identifier l'
          = {| allowed := true; reason := None; retryAfter := None |}).
Proof.
  intros identifier N l t0 ts HN Hmax Hlen Hstart Hts l'.
  assert (Hmin : requestCounts l' !! minuteKey identifier
                 = Some {| count := Z.of_nat N; resetTime := t0 |}
                 /\ maxRequestsPerMinute l' = Z.of_nat N
                 /\ maxRequestsPerHour l' = maxRequestsPerHour l
                 /\ (startsWindow (requestCounts l !! hourKey identifier) t0 hourMs ->
                     requestCounts l' !! hourKey identifier
                     = Some {| count := Z.of_nat N; resetTime := t0 |})).
  { subst l'. unfold recordAll. simpl fold_left.
    set (l1 := recordRequest t0 identifier l).
    assert (H1 : requestCounts l1 !! minuteKey identifier
                 = Some {| count := 1; resetTime := t0 |}).
    { subst l1. rewrite recordRequest_minute. apply bump_fresh. exact Hstart. }
    simpl in Hlen.
    destruct (recordAll_minute ts identifier l1 1 t0 H1 Hts) as (A & B & C).
    unfold recordAll in *. rewrite A, B, C.
    repeat split.
    - f_equal. f_equal. lia.
    - exact Hmax.
    - intros Hhour.
      assert (Hh1 : requestCounts l1 !! hourKey identifier
                    = Some {| count := 1; resetTime := t0 |}).
      { subst l1. rewrite recordRequest_hour. apply bump_fresh. exact Hhour. }
      destruct (recordAll_live ts identifier l1 1 1 t0 H1 Hh1 Hts) as (_ & D & _).
      unfold recordAll in D. rewrite D. f_equal. f_equal. lia. }
  destruct Hmin as (Hm & Hlm & Hlh & Hhr).
  split.
  - intros now Hnow. unfold checkRateLimit. rewrite Hm, Hlm. simpl.
    assert (E1 : (now - t0 <? minuteMs) = true) by (apply Z.ltb_lt; exact Hnow).
    assert (E2 : (Z.of_nat N <=? Z.of_nat N) = true) by (apply Z.leb_le; lia).
    rewrite E1, E2. simpl. repeat split.
    pose proof (ceil_seconds_spec (minuteMs - (now - t0))). lia.
  - intros now Hhour Hbelow Hpast. unfold checkRateLimit.
    rewrite Hm, (Hhr Hhour), Hlm, Hlh. simpl.
    assert (E1 : (now - t0 <? minuteMs) = false) by (apply Z.ltb_ge; exact Hpast).
    assert (E2 : (maxRequestsPerHour l <=? Z.of_nat N) = false)
      by (apply Z.leb_gt; exact Hbelow).
    rewrite E1, E2. simpl. rewrite andb_false_r. reflexivity.
Qed.


Lemma rate_limit_minute_window_witness :
  let l' := recordAll [1000; 2000; 61000] "global" (new 3 1000 30000 5) in
  (allowed (checkRateLimit 60999 "global" l') = false
   /\ retryAfter (checkRateLimit 60999 "global" l') = Some 1)
  /\ checkRateLimit 61000 "global" l'
     = {| allowed := true; reason := None; retryAfter := None |}.
Proof.
  destruct (rate_limit_minute_window "global" 3 (new 3 1000 30000 5) 1000 [2000; 61000])
    as [Hin Hout].
  - lia.
  - reflexivity.
  - reflexivity.
  - exact I.
  - repeat constructor; vm_compute; discriminate.
  - split.
    + destruct (Hin 60999) as (A & B & _); [reflexivity|]. split; [exact A | exact B].
    + apply Hout; [exact I | reflexivity | vm_compute; discriminate].
Defined.

(** Two requests recorded by a limiter of 2 per minute and 2 per hour: past
    the minute window the check still denies, on the hour window. And a
    limiter of 0 per minute allows as long as nothing is recorded. *)
Lemma rate_limit_minute_window_counterexample :
  (let l := recordAll [0; 1] "global" (new 2 2 30000 5) in
   maxRequestsPerMinute l = 2
   /\ allowed (checkRateLimit 60001 "global" l) = false)
  /\ (let l := recordAll [] "global" (new 0 1000 30000 5) in
      maxRequestsPerMinute l = 0
      /\ allowed (checkRateLimit 0 "global" l) = true).
Proof. vm_compute. auto. Qed.

End RateLimiterFacts.

(** ** The policy engine *)

Section PolicyEngineFacts.
Import PolicyEngine.

Lemma wildcardMatches_suffix allowedDomain domain :
  wildcardMatches allowedDomain domain = true ->
  exists suffix, allowedDomain = "*." ++ suffix
                 /\ JsString.endsWith domain suffix = true.
Proof.
  unfold wildcardMatches. intros H. apply andb_true_iff in H. destruct H as [Hs He].
  destruct allowedDomain as [|c1 [|c2 rest]]; cbn [JsString.startsWith] in Hs;
    try discriminate.
  - rewrite andb_false_r in Hs. discriminate.
  - apply andb_true_iff in Hs. destruct Hs as [H1 H2].
    apply andb_true_iff in H2. destruct H2 as [H2 _].
    apply Ascii.eqb_eq in H1. apply Ascii.eqb_eq in H2. subst c1 c2.
    exists rest. split; [reflexivity | exact He].
Qed.

Lemma firstWildcard_none al domain :
  (forall suffix policy, In ("*." ++ suffix, policy) al ->
                         JsString.endsWith domain suffix = false) ->
  firstWildcard al domain = None.
Proof.
  induction al as [|[key policy] al IH]; intros H; simpl; [reflexivity|].
  destruct (wildcardMatches key domain) eqn:E.
  - apply wildcardMatches_suffix in E. destruct E as (suffix & -> & He).
    rewrite (H suffix policy) in He; [discriminate | left; reflexivity].
  - apply IH. intros suffix p Hin. apply (H suffix p). right. exact Hin.
Qed.

Lemma getDomainPolicy_default cfg domain :
  ownEntry (allowlist cfg) domain = None ->
  (forall suffix policy, In ("*." ++ suffix, policy) (allowlist cfg) ->
                         JsString.endsWith domain suffix = false) ->
  fields (getDomainPolicy cfg domain) = noAccess.
Proof.
  intros Hown Hwild. unfold getDomainPolicy. rewrite Hown.
  destruct (existsb (String.eqb domain) objectPrototypeProperties); [reflexivity|].
  rewrite firstWildcard_none by exact Hwild. reflexivity.
Qed.

(** What the code does guarantee for a host that is not listed. When the
    lower-cased hostname has no entry of its own in the allowlist and ends
    with the letters that follow the [*.] of no wildcard entry,
    [checkDomainPolicy] denies, for read and for write alike: neither
    [read] nor [write] is set on what [getDomainPolicy] returns. The engine
    state is left as it was. A URL that does not parse is denied too. *)
Lemma unlisted_domain_is_denied :
  forall pf now url op pe,
    (forall hostname,
        URL_hostname pf url = inl hostname ->
        ownEntry (allowlist (config pe)) (JsString.toLowerCase hostname) = None
        /\ forall suffix policy,
            In ("*." ++ suffix, policy) (allowlist (config pe)) ->
            JsString.endsWith (JsString.toLowerCase hostname) suffix = false) ->
    allowed (fst (checkDomainPolicy pf now url op pe)) = false
    /\ snd (checkDomainPolicy pf now url op pe) = pe
    /\ forall hostname,
        URL_hostname pf url = inl hostname ->
        read (getDomainPolicy (config pe) (JsString.toLowerCase hostname)) = false
        /\ write (getDomainPolicy (config pe) (JsString.toLowerCase hostname)) = false.
Proof.
  intros pf now url op pe H.
  assert (Hpol : forall hostname,
             URL_hostname pf url = inl hostname ->
             fields (getDomainPolicy (config pe) (JsString.toLowerCase hostname))
             = noAccess).
  { intros hostname Hh. destruct (H hostname Hh) as [Hown Hwild].
    apply getDomainPolicy_default; assumption. }
  unfold checkDomainPolicy.
  destruct (URL_hostname pf url) as [hostname|message] eqn:Hurl.
  - destruct (find _ RESTRICTED_DOMAINS).
    + cbn [fst snd]. split; [reflexivity|]. split; [reflexivity|].
      intros h Hh. injection Hh as <-. rewrite (Hpol hostname eq_refl). auto.
    + cbv zeta. rewrite (Hpol hostname eq_refl).
      destruct op; cbn [fst snd]; (split; [reflexivity|]); (split; [reflexivity|]);
        intros h Hh; injection Hh as <-; rewrite (Hpol hostname eq_refl); auto.
  - cbn [fst snd]. split; [reflexivity|]. split; [reflexivity|].
    intros h Hh. discriminate.
Qed.

(** C1. The code breaks the claim on a host that is not under a wildcard
    but ends with its letters. A wildcard key [*.example.org] is compared
    through [domain.endsWith(key.slice(2))], that is with [example.org],
    the dot dropped. On a new engine whose allowlist has this one entry,
    the host [badexample.org] has no entry of its own and does not end
    with [.example.org], so it matches no [*.suffix] entry; yet
    [checkDomainPolicy] allows its URL, for read and for write, under the
    policy of the wildcard. *)
Theorem bare_suffix_wildcard_admits_unlisted_host :
  forall pf now now0 op cfg,
    URL_hostname pf "https://badexample.org/" = inl "badexample.org" ->
    allowlist cfg
    = [("*.example.org", {| read := true; write := true; requiresApproval := None;
                            maxStepsPerHour := None |})] ->
    ownEntry (allowlist cfg) "badexample.org" = None
    /\ JsString.endsWith "badexample.org" ".example.org" = false
    /\ allowed (fst (checkDomainPolicy pf now "https://badexample.org/" op
                       (new cfg now0))) = true
    /\ getDomainPolicy cfg "badexample.org"
       = Policy {| read := true; write := true; requiresApproval := None;
                   maxStepsPerHour := None |}.
Proof.
  intros pf now now0 op cfg Hurl Hallow.
  assert (Hpolicy : getDomainPolicy cfg "badexample.org"
                    = Policy {| read := true; write := true; requiresApproval := None;
                                maxStepsPerHour := None |}).
  { unfold getDomainPolicy. rewrite Hallow. reflexivity. }
  split; [rewrite Hallow; reflexivity|]. split; [reflexivity|]. split; [|exact Hpolicy].
  unfold checkDomainPolicy. rewrite Hurl.
  change (JsString.toLowerCase "badexample.org") with "badexample.org".
  change (find (JsString.startsWith (JsString.toLowerCase "https://badexample.org/"))
               RESTRICTED_DOMAINS) with (@None string).
  cbv zeta. change (config (new cfg now0)) with cfg. rewrite Hpolicy.
  unfold checkStepBudget. change (stepCounts (new cfg now0)) with (∅ : gmap string stepData).
  rewrite lookup_empty. destruct op; reflexivity.
Qed.

End PolicyEngineFacts.

Lemma unlisted_domain_is_denied_witness :
  allowed (fst (PolicyEngine.checkDomainPolicy Scenario.platform 5000
                  "https://evil.test/login" OpRead Scenario.engine)) = false
  /\ allowed (fst (PolicyEngine.checkDomainPolicy Scenario.platform 5000
                     "https://evil.test/login" OpWrite Scenario.engine)) = false.
Proof.
  assert (H : forall hostname,
             URL_hostname Scenario.platform "https://evil.test/login" = inl hostname ->
             PolicyEngine.ownEntry (allowlist (PolicyEngine.config Scenario.engine))
                                   (JsString.toLowerCase hostname) = None
             /\ forall suffix policy,
                 In ("*." ++ suffix, policy)
                    (allowlist (PolicyEngine.config Scenario.engine)) ->
                 JsString.endsWith (JsString.toLowerCase hostname) suffix = false).
  { intros hostname Hh. injection Hh as <-. split; [reflexivity|].
    intros suffix policy Hin. simpl in Hin.
    destruct Hin as [Hin|[Hin|[Hin|[Hin|[]]]]]; try discriminate.
    injection Hin as Hk _. cbv [String.append] in Hk. subst suffix. reflexivity. }
  split.
  - exact (proj1 (unlisted_domain_is_denied Scenario.platform 5000 _ OpRead _ H)).
  - exact (proj1 (unlisted_domain_is_denied Scenario.platform 5000 _ OpWrite _ H)).
Defined.

Lemma bare_suffix_wildcard_admits_unlisted_host_witness :
  allowed (fst (PolicyEngine.checkDomainPolicy Scenario.platform 5000
                  "https://badexample.org/" OpWrite
                  (PolicyEngine.new Scenario.wildcardOnly 0))) = true.
Proof.
  exact (proj1 (proj2 (proj2
           (bare_suffix_wildcard_admits_unlisted_host Scenario.platform 5000 0 OpWrite
              Scenario.wildcardOnly eq_refl eq_refl)))).
Defined.

(** ** Failure tracking across the engine and the dispatcher *)

Section FailureTrackingFacts.
Import PolicyEngine.

Lemma append_same_prefix name rest : name ++ rest = name -> rest = "".
Proof.
  induction name as [|c name IH]; intros H.
  - exact H.
  - change (String c (name ++ rest) = String c name) in H.
    injection H as H. exact (IH H).
Qed.

(** A request id made of the tool name, an underscore and more is neither
    the tool name nor the empty string. *)
Lemma prefixed_id_distinct toolName rest :
  toolName ++ "_" ++ rest <> toolName
  /\ JsString.truthy (toolName ++ "_" ++ rest) = true.
Proof.
  split.
  - intros H. apply append_same_prefix in H. discriminate.
  - destruct toolName; reflexivity.
Qed.

Lemma checkFailureThreshold_view toolName pe pe' :
  failureView toolName pe' = failureView toolName pe ->
  checkFailureThreshold toolName pe' = checkFailureThreshold toolName pe.
Proof.
  unfold failureView. intros H. injection H as Hc Hm.
  unfold checkFailureThreshold, RateLimiter.checkFailureThreshold.
  rewrite Hc, Hm. reflexivity.
Qed.

Lemma recordToolExecution_rateLimiter now toolName success domain requestId pe :
  rateLimiter (recordToolExecution now toolName success domain requestId pe)
  = RateLimiter.completeRequest (trackingKey toolName requestId) success (rateLimiter pe).
Proof.
  unfold recordToolExecution. simpl.
  destruct domain as [dom|]; [destruct (JsString.truthy dom)|]; reflexivity.
Qed.

Lemma recordToolExecution_view now toolName success domain requestId pe :
  requestId <> toolName -> JsString.truthy requestId = true ->
  failureView toolName (recordToolExecution now toolName success domain (Some requestId) pe)
  = failureView toolName pe.
Proof.
  intros Hne Htruthy. unfold failureView.
  rewrite recordToolExecution_rateLimiter. unfold trackingKey. rewrite Htruthy.
  rewrite failureCount_other by exact Hne.
  rewrite completeRequest_threshold. reflexivity.
Qed.

Lemma recordToolExecution_untagged now toolName domain pe :
  failureView toolName (recordToolExecution now toolName false domain None pe)
  = (RateLimiter.failureCount toolName (rateLimiter pe) + 1,
     RateLimiter.maxConsecutiveFailures (rateLimiter pe)).
Proof.
  unfold failureView. rewrite recordToolExecution_rateLimiter. simpl trackingKey.
  rewrite failureCount_failure, completeRequest_threshold. reflexivity.
Qed.

Lemma recordFailures_tagged toolName calls pe :
  Forall (fun c => exists requestId,
              c.2 = Some requestId /\ requestId <> toolName /\ requestId <> "") calls ->
  failureView toolName (recordFailures toolName calls pe) = failureView toolName pe.
Proof.
  unfold recordFailures. revert pe.
  induction calls as [|[[now dom] rid] calls IH]; intros pe Hall; simpl; [reflexivity|].
  inversion Hall as [|? ? (requestId & Hrid & Hne & Hnonempty) Hrest]; subst.
  simpl in Hrid. subst rid.
  rewrite IH by exact Hrest.
  apply recordToolExecution_view; [exact Hne|].
  unfold JsString.truthy. destruct (String.eqb requestId "") eqn:E; [|reflexivity].
  apply String.eqb_eq in E. contradiction.
Qed.

Lemma recordFailures_untagged toolName calls pe :
  Forall (fun c => c.2 = None) calls ->
  failureView toolName (recordFailures toolName calls pe)
  = (RateLimiter.failureCount toolName (rateLimiter pe) + Z.of_nat (List.length calls),
     RateLimiter.maxConsecutiveFailures (rateLimiter pe)).
Proof.
  unfold recordFailures. revert pe.
  induction calls as [|[[now dom] rid] calls IH]; intros pe Hall; simpl fold_left.
  - unfold failureView. simpl. rewrite Z.add_0_r. reflexivity.
  - inversion Hall as [|? ? Hrid Hrest]; subst. simpl in Hrid. subst rid.
    rewrite IH by exact Hrest.
    pose proof (recordToolExecution_untagged now toolName dom pe) as Hv.
    unfold failureView in Hv.
    pose proof (f_equal fst Hv) as Hc. pose proof (f_equal snd Hv) as Hm.
    cbn [fst snd] in Hc, Hm |- *.
    rewrite Hc, Hm. f_equal. simpl List.length. lia.
Qed.

End FailureTrackingFacts.

(** ** The dispatcher *)

Section DispatcherFacts.
Import MCPToolRegistry.

Lemma checkSensitiveData_allows toolName args url pe decision :
  fst (PolicyEngine.checkSensitiveData toolName args url pe) = inl decision ->
  allowed decision = true.
Proof.
  unfold PolicyEngine.checkSensitiveData.
  destruct (DataRedactor.isSensitiveAction _ _ _ _) as [[chk|v] d'];
    cbn [fst]; intros H; [|discriminate].
  injection H as <-. destruct (DataRedactor.isSensitive chk); reflexivity.
Qed.

Lemma checkLargePostBody_allows pf data :
  allowed (PolicyEngine.checkLargePostBody pf data) = true.
Proof.
  unfold PolicyEngine.checkLargePostBody.
  destruct (DataRedactor.isLargePostBody _ _); reflexivity.
Qed.

Lemma checkLargePostBody_reason pf data :
  needsApproval (PolicyEngine.checkLargePostBody pf data) = true ->
  reason (PolicyEngine.checkLargePostBody pf data)
  = Some "Large POST body detected (>8KB) - requires user confirmation".
Proof.
  unfold PolicyEngine.checkLargePostBody.
  destruct (DataRedactor.isLargePostBody _ _); [reflexivity | discriminate].
Qed.

Lemma getTool_name tools n tool : getTool tools n = Some tool -> name tool = n.
Proof.
  unfold getTool. intros H. apply find_some in H. destruct H as [_ H].
  apply String.eqb_eq in H. exact H.
Qed.

Lemma checkedUrl_Some args u :
  checkedUrl args = Some u ->
  extractUrlFromArgs args = Some u /\ JsString.truthy u = true.
Proof.
  unfold checkedUrl. destruct (extractUrlFromArgs args) as [u'|]; [|discriminate].
  destruct (JsString.truthy u') eqn:E; [|discriminate].
  intros H. injection H as <-. auto.
Qed.

(** The second segment calls the handler whenever the domain stage allows
    and the sensitive-data stage returns its decision, whatever the
    [requiresApproval] flags are. Each flag that is set puts its warning
    on the console, in the order of the stages, and nothing else does. *)
Lemma dispatch_invokes pf rd tool args w sensitiveData :
  domainStageAllows pf rd tool args w ->
  fst (PolicyEngine.checkSensitiveData (name tool) args (checkedUrl args)
         (engineAfterDomainStage pf rd tool args w)) = inl sensitiveData ->
  exists w',
    executeToolWithPolicy_dispatch pf rd tool args w = (Invoked (command tool) args, w')
    /\ console w'
       = (console w
          ++ match checkedUrl args with
             | Some u =>
                 if needsApproval
                      (fst (PolicyEngine.checkDomainPolicy pf (at_domainPolicy rd) u
                              (getToolOperation (name tool)) (policyEngine w)))
                 then [warn ("Tool " ++ name tool ++ " requires approval for " ++ u
                             ++ " but approval workflow not yet implemented")]
                 else []
             | None => []
             end
          ++ (if needsApproval sensitiveData
              then [warn ("Tool " ++ name tool ++ " involves sensitive data: "
                          ++ default "undefined" (reason sensitiveData))]
              else [])
          ++ (if String.eqb (name tool) "type_text" && Js.truthy (Js.get args "text")
                 && needsApproval (PolicyEngine.checkLargePostBody pf (Js.get args "text"))
              then [warn ("Tool " ++ name tool ++ " has large content: Large POST body "
                          ++ "detected (>8KB) - requires user confirmation")]
              else []))%list.
Proof.
  intros Hdom Hsensitive.
  unfold executeToolWithPolicy_dispatch.
  change (match extractUrlFromArgs args with
          | Some u => if JsString.truthy u then Some u else None
          | None => None
          end) with (checkedUrl args).
  unfold engineAfterDomainStage in Hsensitive.
  assert (Hlarge :
            forall w2 : World,
              console
                (if String.eqb (name tool) "type_text" && Js.truthy (Js.get args "text")
                 then
                   if needsApproval (PolicyEngine.checkLargePostBody pf (Js.get args "text"))
                   then say (warn ("Tool " ++ name tool ++ " has large content: "
                                   ++ match reason (PolicyEngine.checkLargePostBody pf
                                                      (Js.get args "text")) with
                                      | Some r => r | None => "undefined" end)) w2
                   else w2
                 else w2)
              = (console w2
                 ++ (if String.eqb (name tool) "type_text" && Js.truthy (Js.get args "text")
                        && needsApproval (PolicyEngine.checkLargePostBody pf
                                            (Js.get args "text"))
                     then [warn ("Tool " ++ name tool
                                 ++ " has large content: Large POST body "
                                 ++ "detected (>8KB) - requires user confirmation")]
                     else []))%list).
  { intros w2.
    destruct (String.eqb (name tool) "type_text" && Js.truthy (Js.get args "text"));
      cbn [andb]; [|rewrite app_nil_r; reflexivity].
    destruct (needsApproval (PolicyEngine.checkLargePostBody pf (Js.get args "text")))
      eqn:Hflag; [|rewrite app_nil_r; reflexivity].
    rewrite (checkLargePostBody_reason pf _ Hflag). reflexivity. }
  assert (Hsay :
            forall (w1 : World) pe2,
              console
                (if needsApproval sensitiveData
                 then say (warn ("Tool " ++ name tool ++ " involves sensitive data: "
                                 ++ match reason sensitiveData with
                                    | Some r => r | None => "undefined" end))
                          (with_engine w1 pe2)
                 else with_engine w1 pe2)
              = (console w1
                 ++ (if needsApproval sensitiveData
                     then [warn ("Tool " ++ name tool ++ " involves sensitive data: "
                                 ++ default "undefined" (reason sensitiveData))]
                     else []))%list).
  { intros w1 pe2. destruct (needsApproval sensitiveData);
      [reflexivity | cbn [console with_engine]; rewrite app_nil_r; reflexivity]. }
  destruct (checkedUrl args) as [u|] eqn:Hurl.
  - destruct (checkedUrl_Some args u Hurl) as [Hu Ht].
    specialize (Hdom u Hu Ht).
    destruct (PolicyEngine.checkDomainPolicy pf (at_domainPolicy rd) u
                (getToolOperation (name tool)) (policyEngine w)) as [decision pe1].
    cbn [fst snd] in Hdom, Hsensitive |- *. rewrite Hdom. cbn [negb].
    destruct (needsApproval decision).
    + cbn [policyEngine say with_engine].
      destruct (PolicyEngine.checkSensitiveData (name tool) args (Some u) pe1)
        as [[sd|v] pe2]; cbn [fst] in Hsensitive; [|discriminate].
      injection Hsensitive as ->.
      eexists. split; [reflexivity|].
      rewrite Hlarge, Hsay. cbn [console say with_engine].
      rewrite <- !app_assoc. reflexivity.
    + cbn [policyEngine with_engine].
      destruct (PolicyEngine.checkSensitiveData (name tool) args (Some u) pe1)
        as [[sd|v] pe2]; cbn [fst] in Hsensitive; [|discriminate].
      injection Hsensitive as ->.
      eexists. split; [reflexivity|].
      rewrite Hlarge, Hsay. cbn [console with_engine]. cbn [app].
      rewrite <- ?app_assoc. reflexivity.
  - destruct (PolicyEngine.checkSensitiveData (name tool) args None (policyEngine w))
      as [[sd|v] pe2]; cbn [fst] in Hsensitive; [|discriminate].
    injection Hsensitive as ->.
    eexists. split; [reflexivity|].
    rewrite Hlarge, Hsay. cbn [app]. rewrite <- ?app_assoc. reflexivity.
Qed.

(** The last two segments hand the handler's result on unchanged. *)
Lemma return_keeps_outcome rd tool args outcome w :
  fst (executeToolWithPolicy_return rd tool args outcome w) = outcome.
Proof.
  unfold executeToolWithPolicy_return. destruct outcome as [result|message]; [|reflexivity].
  destruct (PolicyEngine.createRedactedLogEntry _ _ _ _ _ _). reflexivity.
Qed.

Lemma record_returns_result pf rd toolName validatedArgs requestId outcome w :
  fst (executeTool_record pf rd toolName validatedArgs requestId outcome w)
  = resultOf rd toolName requestId outcome.
Proof. reflexivity. Qed.

(** The first segment starts the call exactly when the tool is registered,
    the three first stages allow and the input is valid. *)
Lemma checks_start pf tools rd toolName args w tool validatedArgs :
  getTool tools toolName = Some tool ->
  allowed (PolicyEngine.checkGlobalStepBudget (policyEngine w)) = true ->
  allowed (fst (PolicyEngine.checkRateLimit (at_rateLimit rd) (at_limiterCheck rd)
                  (at_limiterRecord rd) "global" (policyEngine w))) = true ->
  allowed (PolicyEngine.checkFailureThreshold toolName
             (snd (PolicyEngine.checkRateLimit (at_rateLimit rd) (at_limiterCheck rd)
                     (at_limiterRecord rd) "global" (policyEngine w)))) = true ->
  inputSchema tool args = Parsed validatedArgs ->
  exists requestId,
    fst (executeTool_checks pf tools rd toolName args w)
    = Started tool validatedArgs requestId.
Proof.
  intros Htool Hbudget Hrate Hfail Hparse. unfold executeTool_checks.
  rewrite Htool, Hbudget. simpl negb. cbv iota.
  destruct (PolicyEngine.checkRateLimit _ _ _ _ _) as [rate pe1].
  simpl in Hrate, Hfail. rewrite Hrate, Hfail, Hparse. simpl. eauto.
Qed.


(** The first segment writes nothing to the console. *)
Lemma checks_console pf tools rd toolName args w :
  console (snd (executeTool_checks pf tools rd toolName args w)) = console w.
Proof.
  unfold executeTool_checks.
  destruct (getTool tools toolName) as [tool|]; [|reflexivity].
  destruct (negb (allowed (PolicyEngine.checkGlobalStepBudget (policyEngine w))));
    [reflexivity|].
  destruct (PolicyEngine.checkRateLimit _ _ _ _ _) as [rate pe1].
  destruct (negb (allowed rate)); [reflexivity|].
  destruct (negb (allowed (PolicyEngine.checkFailureThreshold toolName pe1)));
    [reflexivity|].
  destruct (inputSchema tool args); reflexivity.
Qed.

(** C2. When the tool is registered, the step-budget, rate-limit and
    failure-threshold stages allow, the input is valid, the domain-policy
    stage allows and the sensitive-data stage returns its decision (it
    always allows, and so does the large-body stage), [executeTool] calls
    the tool handler and returns what the handler returns, whatever the
    [requiresApproval] flags of the three decisions are. Each flag that is
    set is surfaced as one warning on the console, and only so: before the
    handler is called the console has gained exactly the warning of the
    domain-policy stage, that of the sensitive-data stage and that of the
    large-body stage, each one if and only if its flag is set. *)
Theorem approval_flags_never_block_dispatch :
  forall pf tools rd handler toolName args w tool validatedArgs sensitiveData,
    getTool tools toolName = Some tool ->
    allowed (PolicyEngine.checkGlobalStepBudget (policyEngine w)) = true ->
    allowed (fst (PolicyEngine.checkRateLimit (at_rateLimit rd) (at_limiterCheck rd)
                    (at_limiterRecord rd) "global" (policyEngine w))) = true ->
    allowed (PolicyEngine.checkFailureThreshold toolName
               (snd (PolicyEngine.checkRateLimit (at_rateLimit rd) (at_limiterCheck rd)
                       (at_limiterRecord rd) "global" (policyEngine w)))) = true ->
    inputSchema tool args = Parsed validatedArgs ->
    domainStageAllows pf rd tool validatedArgs
                      (snd (executeTool_checks pf tools rd toolName args w)) ->
    fst (PolicyEngine.checkSensitiveData toolName validatedArgs (checkedUrl validatedArgs)
           (engineAfterDomainStage pf rd tool validatedArgs
              (snd (executeTool_checks pf tools rd toolName args w))))
    = inl sensitiveData ->
    exists requestId w1 w2,
      executeTool_checks pf tools rd toolName args w
      = (Started tool validatedArgs requestId, w1)
      /\ executeToolWithPolicy_dispatch pf rd tool validatedArgs w1
         = (Invoked (command tool) validatedArgs, w2)
      /\ allowed sensitiveData = true
      /\ console w2
         = (console w
            ++ match checkedUrl validatedArgs with
               | Some u =>
                   if needsApproval
                        (fst (PolicyEngine.checkDomainPolicy pf (at_domainPolicy rd) u
                                (getToolOperation toolName) (policyEngine w1)))
                   then [warn ("Tool " ++ toolName ++ " requires approval for " ++ u
                               ++ " but approval workflow not yet implemented")]
                   else []
               | None => []
               end
            ++ (if needsApproval sensitiveData
                then [warn ("Tool " ++ toolName ++ " involves sensitive data: "
                            ++ default "undefined" (reason sensitiveData))]
                else [])
            ++ (if String.eqb toolName "type_text"
                   && Js.truthy (Js.get validatedArgs "text")
                   && needsApproval (PolicyEngine.checkLargePostBody pf
                                       (Js.get validatedArgs "text"))
                then [warn ("Tool " ++ toolName ++ " has large content: Large POST body "
                            ++ "detected (>8KB) - requires user confirmation")]
                else []))%list
      /\ fst (executeTool pf tools rd handler toolName args w)
         = resultOf rd toolName requestId (handler (command tool) validatedArgs)
      /\ (forall result,
            handler (command tool) validatedArgs = Returned result ->
            fst (executeTool pf tools rd handler toolName args w) = result)
      /\ (forall outcome w3 w4,
            fst (executeToolWithPolicy_return rd tool validatedArgs outcome w3) = outcome
            /\ fst (executeTool_record pf rd toolName validatedArgs requestId outcome w4)
               = resultOf rd toolName requestId outcome).
Proof.
  intros pf tools rd handler toolName args w tool validatedArgs sensitiveData
         Htool Hbudget Hrate Hfail Hparse Hdom Hsensitive.
  destruct (checks_start pf tools rd toolName args w tool validatedArgs
                         Htool Hbudget Hrate Hfail Hparse) as [requestId Hstart].
  pose proof (checks_console pf tools rd toolName args w) as Hquiet.
  destruct (executeTool_checks pf tools rd toolName args w) as [r w1] eqn:Hchecks.
  cbn [fst snd] in Hstart, Hdom, Hsensitive, Hquiet. subst r.
  pose proof (getTool_name tools toolName tool Htool) as Hname.
  rewrite <- Hname in Hsensitive.
  destruct (dispatch_invokes pf rd tool validatedArgs w1 sensitiveData Hdom Hsensitive)
    as (w2 & Hdispatch & Hconsole).
  rewrite Hname, Hquiet in Hconsole.
  assert (Hres : fst (executeTool pf tools rd handler toolName args w)
                 = resultOf rd toolName requestId (handler (command tool) validatedArgs)).
  { unfold executeTool. rewrite Hchecks, Hdispatch.
    pose proof (return_keeps_outcome rd tool validatedArgs
                  (handler (command tool) validatedArgs) w2) as Hret.
    destruct (executeToolWithPolicy_return rd tool validatedArgs
                (handler (command tool) validatedArgs) w2) as [outcome w3].
    simpl in Hret. subst outcome. apply record_returns_result. }
  exists requestId, w1, w2.
  split; [reflexivity|]. split; [exact Hdispatch|].
  split; [exact (checkSensitiveData_allows _ _ _ _ _ Hsensitive)|].
  split; [exact Hconsole|]. split; [exact Hres|]. split.
  - intros result Hhandler. rewrite Hres, Hhandler. reflexivity.
  - intros outcome w3 w4. split; [apply return_keeps_outcome | reflexivity].
Qed.

End DispatcherFacts.

Lemma approval_flags_never_block_dispatch_witness :
  fst (MCPToolRegistry.executeTool Scenario.platform Scenario.tools
         (Scenario.readingsAt 5000) Scenario.remoteOk "type_text"
         Scenario.typePassword Scenario.world)
  = [("success", VBool true); ("data", VObj [("done", VBool true)])]
  /\ exists w1 w2,
      MCPToolRegistry.executeToolWithPolicy_dispatch Scenario.platform
        (Scenario.readingsAt 5000) Scenario.typeTextTool Scenario.typePassword w1
      = (MCPToolRegistry.Invoked "type_text" Scenario.typePassword, w2)
      /\ MCPToolRegistry.console w2
         = [MCPToolRegistry.warn
              "Tool type_text involves sensitive data: Typing into sensitive field"].
Proof.
  destruct (approval_flags_never_block_dispatch Scenario.platform Scenario.tools
              (Scenario.readingsAt 5000) Scenario.remoteOk "type_text"
              Scenario.typePassword Scenario.world Scenario.typeTextTool
              Scenario.typePassword
              {| allowed := true; needsApproval := true;
                 reason := Some "Typing into sensitive field";
                 metadata := Some [("riskLevel", VStr "high");
                                   ("sensitiveData", VBool true)] |})
    as (requestId & w1 & w2 & _ & Hdispatch & _ & Hconsole & _ & Hresult & _).
  - reflexivity.
  - vm_compute. reflexivity.
  - vm_compute. reflexivity.
  - vm_compute. reflexivity.
  - reflexivity.
  - intros url Hurl. exfalso.
    assert (E : MCPToolRegistry.extractUrlFromArgs Scenario.typePassword = None)
      by (vm_compute; reflexivity).
    rewrite E in Hurl. discriminate.
  - vm_compute. reflexivity.
  - split; [apply Hresult; reflexivity|].
    exists w1, w2. split; [exact Hdispatch|].
    rewrite Hconsole. vm_compute. reflexivity.
Defined.

(** ** The failure threshold and the dispatcher's request ids *)

Section RequestIdFacts.
Import MCPToolRegistry.

Lemma checkRateLimit_view toolName a b c identifier pe :
  PolicyEngine.failureView toolName (snd (PolicyEngine.checkRateLimit a b c identifier pe))
  = PolicyEngine.failureView toolName pe.
Proof.
  unfold PolicyEngine.checkRateLimit.
  destruct (a - PolicyEngine.lastToolCallTime pe <? 100); [reflexivity|].
  destruct (negb _); reflexivity.
Qed.

Lemma checkStepBudget_rateLimiter now domain pe :
  PolicyEngine.rateLimiter (snd (PolicyEngine.checkStepBudget now domain pe))
  = PolicyEngine.rateLimiter pe.
Proof.
  unfold PolicyEngine.checkStepBudget.
  destruct (PolicyEngine.stepCounts pe !! domain) as [sd|]; [|reflexivity].
  destruct (PolicyEngine.hourMs <? now - PolicyEngine.resetTime sd); reflexivity.
Qed.

Lemma checkDomainPolicy_rateLimiter pf now url op pe :
  PolicyEngine.rateLimiter (snd (PolicyEngine.checkDomainPolicy pf now url op pe))
  = PolicyEngine.rateLimiter pe.
Proof.
  unfold PolicyEngine.checkDomainPolicy.
  destruct (URL_hostname pf url) as [hostname|message]; [|reflexivity].
  destruct (find _ RESTRICTED_DOMAINS); [reflexivity|].
  destruct (negb _); [reflexivity|].
  pose proof (checkStepBudget_rateLimiter now (JsString.toLowerCase hostname) pe) as H.
  destruct (PolicyEngine.checkStepBudget now (JsString.toLowerCase hostname) pe)
    as [exceeded pe'].
  destruct exceeded; exact H.
Qed.

Lemma checkSensitiveData_rateLimiter toolName args url pe :
  PolicyEngine.rateLimiter (snd (PolicyEngine.checkSensitiveData toolName args url pe))
  = PolicyEngine.rateLimiter pe.
Proof.
  unfold PolicyEngine.checkSensitiveData.
  destruct (DataRedactor.isSensitiveAction _ _ _ _) as [[chk|v] d']; reflexivity.
Qed.

Lemma createRedactedLogEntry_rateLimiter now toolName args result md pe :
  PolicyEngine.rateLimiter
    (snd (PolicyEngine.createRedactedLogEntry now toolName args result md pe))
  = PolicyEngine.rateLimiter pe.
Proof.
  unfold PolicyEngine.createRedactedLogEntry.
  destruct (DataRedactor.createRedactedLogEntry _ _ _ _ _ _). reflexivity.
Qed.

(** The flags decide on warnings only: whatever they are, the goal holds by
    computation. *)
Local Ltac by_flags sd :=
  destruct (needsApproval sd);
  repeat match goal with
         | |- context [if ?b then _ else _] => destruct b
         end;
  reflexivity.

Lemma dispatch_rateLimiter pf rd tool args w :
  PolicyEngine.rateLimiter
    (policyEngine (snd (executeToolWithPolicy_dispatch pf rd tool args w)))
  = PolicyEngine.rateLimiter (policyEngine w).
Proof.
  unfold executeToolWithPolicy_dispatch.
  set (url := match extractUrlFromArgs args with
              | Some u => if JsString.truthy u then Some u else None
              | None => None
              end).
  destruct url as [u|].
  - pose proof (checkDomainPolicy_rateLimiter pf (at_domainPolicy rd) u
                  (getToolOperation (name tool)) (policyEngine w)) as Hd.
    destruct (PolicyEngine.checkDomainPolicy _ _ _ _ _) as [decision pe1].
    simpl in Hd.
    destruct (negb (allowed decision)); [exact Hd|].
    destruct (needsApproval decision).
    + pose proof (checkSensitiveData_rateLimiter (name tool) args (Some u) pe1) as Hs.
      simpl. destruct (PolicyEngine.checkSensitiveData _ _ _ _) as [[sd|v] pe2];
        simpl in Hs; [|simpl; congruence].
      rewrite <- Hd, <- Hs.
      by_flags sd.
    + pose proof (checkSensitiveData_rateLimiter (name tool) args (Some u) pe1) as Hs.
      simpl. destruct (PolicyEngine.checkSensitiveData _ _ _ _) as [[sd|v] pe2];
        simpl in Hs; [|simpl; congruence].
      rewrite <- Hd, <- Hs.
      by_flags sd.
  - pose proof (checkSensitiveData_rateLimiter (name tool) args None (policyEngine w)) as Hs.
    destruct (PolicyEngine.checkSensitiveData _ _ _ _) as [[sd|v] pe2];
      simpl in Hs; [|reflexivity].
    rewrite <- Hs.
    by_flags sd.
Qed.

Lemma return_rateLimiter rd tool args outcome w :
  PolicyEngine.rateLimiter
    (policyEngine (snd (executeToolWithPolicy_return rd tool args outcome w)))
  = PolicyEngine.rateLimiter (policyEngine w).
Proof.
  unfold executeToolWithPolicy_return. destruct outcome as [result|message]; [|reflexivity].
  match goal with |- context [PolicyEngine.createRedactedLogEntry ?a ?b ?c ?d ?e ?f] =>
    pose proof (createRedactedLogEntry_rateLimiter a b c d e f) as H;
    destruct (PolicyEngine.createRedactedLogEntry a b c d e f) end.
  exact H.
Qed.

Lemma record_view pf rd toolName validatedArgs rest outcome w :
  PolicyEngine.failureView toolName
    (policyEngine (snd (executeTool_record pf rd toolName validatedArgs
                          (toolName ++ "_" ++ rest) outcome w)))
  = PolicyEngine.failureView toolName (policyEngine w).
Proof.
  unfold executeTool_record. simpl snd. simpl policyEngine.
  destruct (prefixed_id_distinct toolName rest) as [Hne Htruthy].
  apply recordToolExecution_view; assumption.
Qed.

(** The first segment leaves the view as it is, and the request id it
    makes starts with the tool name and an underscore. *)
Lemma checks_view pf tools rd toolName args w :
  PolicyEngine.failureView toolName
    (policyEngine (snd (executeTool_checks pf tools rd toolName args w)))
  = PolicyEngine.failureView toolName (policyEngine w)
  /\ forall tool validatedArgs requestId,
      fst (executeTool_checks pf tools rd toolName args w)
      = Started tool validatedArgs requestId ->
      exists rest, requestId = toolName ++ "_" ++ rest.
Proof.
  unfold executeTool_checks.
  destruct (getTool tools toolName) as [tool|]; [|split; [reflexivity | discriminate]].
  destruct (negb (allowed (PolicyEngine.checkGlobalStepBudget (policyEngine w))));
    [split; [reflexivity | discriminate]|].
  pose proof (checkRateLimit_view toolName (at_rateLimit rd) (at_limiterCheck rd)
                (at_limiterRecord rd) "global" (policyEngine w)) as Hrate.
  destruct (PolicyEngine.checkRateLimit _ _ _ _ _) as [rate pe1]. simpl in Hrate.
  destruct (negb (allowed rate)); [split; [exact Hrate | discriminate]|].
  destruct (negb (allowed (PolicyEngine.checkFailureThreshold toolName pe1)));
    [split; [exact Hrate | discriminate]|].
  destruct (inputSchema tool args) as [validatedArgs|issues].
  - split; [exact Hrate|].
    intros tool' va rid H. simpl in H. injection H as _ _ <-. eauto.
  - split; [|discriminate]. simpl snd. simpl policyEngine.
    rewrite <- Hrate.
    destruct (prefixed_id_distinct toolName (JsString.of_Z (at_errorId rd) ++ "_error"))
      as [Hne Htruthy].
    apply recordToolExecution_view; assumption.
Qed.

(** A call through the dispatcher, however it ends, leaves the count that
    [checkFailureThreshold] reads for the tool as it was. *)
Lemma executeTool_keeps_failureView pf tools rd handler toolName args w :
  PolicyEngine.failureView toolName
    (policyEngine (snd (executeTool pf tools rd handler toolName args w)))
  = PolicyEngine.failureView toolName (policyEngine w).
Proof.
  unfold executeTool.
  destruct (checks_view pf tools rd toolName args w) as [Hview Hid].
  destruct (executeTool_checks pf tools rd toolName args w) as [[response|tool va rid] w1].
  - exact Hview.
  - destruct (Hid tool va rid eq_refl) as [rest ->]. simpl in Hview.
    pose proof (dispatch_rateLimiter pf rd tool va w1) as Hd.
    destruct (executeToolWithPolicy_dispatch pf rd tool va w1)
      as [[response|message|cmd hargs] w2]; simpl in Hd.
    + rewrite record_view. unfold PolicyEngine.failureView in *. rewrite Hd. exact Hview.
    + rewrite record_view. unfold PolicyEngine.failureView in *. rewrite Hd. exact Hview.
    + pose proof (return_rateLimiter rd tool va (handler cmd hargs) w2) as Hr.
      destruct (executeToolWithPolicy_return rd tool va (handler cmd hargs) w2)
        as [outcome w3]. simpl in Hr.
      rewrite record_view. unfold PolicyEngine.failureView in *. rewrite Hr, Hd.
      exact Hview.
Qed.


(** C10. When every failed execution of a tool is recorded with a request
    id that is not the tool name (and not empty), as the dispatcher does
    with the ids it makes, the consecutive-failure count lands under the
    request ids: [checkFailureThreshold(toolName)] answers what it answered
    before, [allowed = true] on a new engine, however many failures were
    recorded, and a call through [executeTool] never changes that answer.
    Recorded without a request id, the failures are counted under the tool
    name and the threshold takes effect. *)
Theorem failure_count_keyed_by_request_id :
  forall toolName pe calls,
    Forall (fun c => exists requestId,
                c.2 = Some requestId /\ requestId <> toolName /\ requestId <> "") calls ->
    PolicyEngine.checkFailureThreshold toolName
      (PolicyEngine.recordFailures toolName calls pe)
    = PolicyEngine.checkFailureThreshold toolName pe
    /\ (forall cfg now,
          pe = PolicyEngine.new cfg now ->
          allowed (PolicyEngine.checkFailureThreshold toolName
                     (PolicyEngine.recordFailures toolName calls pe)) = true)
    /\ (forall pf tools rd handler args w,
          PolicyEngine.checkFailureThreshold toolName
            (policyEngine (snd (executeTool pf tools rd handler toolName args w)))
          = PolicyEngine.checkFailureThreshold toolName (policyEngine w))
    /\ (forall untagged,
          Forall (fun c => c.2 = None) untagged ->
          RateLimiter.failureCount toolName
            (PolicyEngine.rateLimiter (PolicyEngine.recordFailures toolName untagged pe))
          = RateLimiter.failureCount toolName (PolicyEngine.rateLimiter pe)
            + Z.of_nat (List.length untagged)
          /\ (RateLimiter.maxConsecutiveFailures (PolicyEngine.rateLimiter pe)
              <= RateLimiter.failureCount toolName (PolicyEngine.rateLimiter pe)
                 + Z.of_nat (List.length untagged) ->
              allowed (PolicyEngine.checkFailureThreshold toolName
                         (PolicyEngine.recordFailures toolName untagged pe)) = false)).
Proof.
  intros toolName pe calls Hcalls.
  assert (Hsame : PolicyEngine.checkFailureThreshold toolName
                    (PolicyEngine.recordFailures toolName calls pe)
                  = PolicyEngine.checkFailureThreshold toolName pe).
  { apply checkFailureThreshold_view. apply recordFailures_tagged. exact Hcalls. }
  split; [exact Hsame|]. split; [|split].
  - intros cfg now ->. rewrite Hsame. reflexivity.
  - intros pf tools rd handler args w.
    apply checkFailureThreshold_view. apply executeTool_keeps_failureView.
  - intros untagged Huntagged.
    pose proof (recordFailures_untagged toolName untagged pe Huntagged) as Hview.
    unfold PolicyEngine.failureView in Hview.
    pose proof (f_equal fst Hview) as Hc. pose proof (f_equal snd Hview) as Hm.
    cbn [fst snd] in Hc, Hm. split; [exact Hc|].
    intros Hreached.
    unfold PolicyEngine.checkFailureThreshold, RateLimiter.checkFailureThreshold.
    rewrite Hc, Hm.
    destruct (_ <=? _) eqn:E; [reflexivity | apply Z.leb_gt in E; lia].
Qed.

End RequestIdFacts.

Lemma failure_count_keyed_by_request_id_witness :
  allowed (PolicyEngine.checkFailureThreshold "click"
             (PolicyEngine.recordFailures "click" Scenario.taggedFailures Scenario.engine))
  = true
  /\ allowed (PolicyEngine.checkFailureThreshold "click"
                (PolicyEngine.recordFailures "click" Scenario.untaggedFailures
                                             Scenario.engine))
     = false.
Proof.
  assert (Htagged :
            Forall (fun c => exists requestId,
                        c.2 = Some requestId /\ requestId <> "click" /\ requestId <> "")
                   Scenario.taggedFailures).
  { repeat constructor; eexists; (split; [reflexivity|]); split; discriminate. }
  destruct (failure_count_keyed_by_request_id "click" Scenario.engine
              Scenario.taggedFailures Htagged) as (_ & Hnew & _ & Huntagged).
  split.
  - apply (Hnew Scenario.testConfig 0). reflexivity.
  - apply (Huntagged Scenario.untaggedFailures).
    + repeat constructor.
    + vm_compute. discriminate.
Defined.

(** ** Redaction *)

Section RedactionFacts.
Import DataRedactor.
Variable d : DataRedactor.t.

Lemma redactObject_VObj props :
  redactObject d (VObj props) = VObj (assignAll d [] props).
Proof.
  simpl. f_equal. unfold assignAll. generalize (@nil (string * value)).
  induction props as [|[key x] props IH]; intros redacted; simpl; [reflexivity|].
  apply IH.
Qed.

Lemma redactObject_VArr items :
  redactObject d (VArr items) = VObj (assignAll d [] (indexed 0 items)).
Proof.
  simpl. f_equal. unfold assignAll. generalize (@nil (string * value)) O.
  induction items as [|x items IH]; intros redacted i; simpl; [reflexivity|].
  apply IH.
Qed.

Lemma redactStringCalls_VObj props :
  redactStringCalls d (VObj props) = entriesCalls d props.
Proof. reflexivity. Qed.

Lemma redactStringCalls_VArr items :
  redactStringCalls d (VArr items) = entriesCalls d (indexed 0 items).
Proof.
  simpl. unfold entriesCalls. generalize O.
  induction items as [|x items IH]; intros i; simpl; [reflexivity|].
  rewrite IH. reflexivity.
Qed.


(** *** Assignment to an object under construction *)

Lemma update_None acc key v :
  Js.update acc key v = None <-> ~ In key (map fst acc).
Proof.
  induction acc as [|[k x] acc IH]; simpl; [tauto|].
  destruct (String.eqb k key) eqn:E.
  - apply String.eqb_eq in E. split; [discriminate | intros H; exfalso; auto].
  - apply String.eqb_neq in E.
    destruct (Js.update acc key v) as [acc'|] eqn:U; simpl.
    + split; [discriminate|]. intros H.
      assert (Hn : ~ In key (map fst acc)) by tauto.
      apply (proj2 IH) in Hn. discriminate.
    + split; [|reflexivity]. intros _ [H|H]; [contradiction|].
      apply (proj1 IH eq_refl). exact H.
Qed.

Lemma update_Some acc key v acc' :
  Js.update acc key v = Some acc' ->
  map fst acc' = map fst acc
  /\ forall k y, In (k, y) acc' -> In (k, y) acc \/ (k = key /\ y = v).
Proof.
  revert acc'. induction acc as [|[k x] acc IH]; intros acc' H; simpl in H; [discriminate|].
  destruct (String.eqb k key) eqn:E.
  - apply String.eqb_eq in E. subst k. injection H as <-. split; [reflexivity|].
    intros k y [Hin|Hin]; [injection Hin as <- <-; auto | left; right; exact Hin].
  - destruct (Js.update acc key v) as [acc0|]; [|discriminate].
    simpl in H. injection H as <-. destruct (IH acc0 eq_refl) as [Hk Hin].
    split; [simpl; rewrite Hk; reflexivity|].
    intros k0 y [H0|H0]; [left; left; exact H0|].
    destruct (Hin k0 y H0) as [H1|H1]; [left; right; exact H1 | right; exact H1].
Qed.

Lemma set_In acc key v k y :
  In (k, y) (Js.set acc key v) -> In (k, y) acc \/ (k = key /\ y = v).
Proof.
  unfold Js.set. destruct (String.eqb key "__proto__"); [auto|].
  destruct (Js.update acc key v) as [acc'|] eqn:U.
  - apply update_Some in U. apply U.
  - intros H. apply in_app_or in H. destruct H as [H|[H|[]]]; [auto|].
    injection H as <- <-. auto.
Qed.

Lemma set_cleanKeys acc key v : Js.cleanKeys acc -> Js.cleanKeys (Js.set acc key v).
Proof.
  intros [Hnd Hproto]. unfold Js.set.
  destruct (String.eqb key "__proto__") eqn:E; [split; assumption|].
  apply String.eqb_neq in E.
  destruct (Js.update acc key v) as [acc'|] eqn:U.
  - apply update_Some in U. destruct U as [Hk _]. unfold Js.cleanKeys. rewrite Hk.
    split; assumption.
  - apply update_None in U. unfold Js.cleanKeys. rewrite map_app. simpl. split.
    + apply NoDup_app. repeat split; [exact Hnd | | apply NoDup_singleton].
      intros k Hk Hin. apply list_elem_of_In in Hk. apply list_elem_of_In in Hin.
      destruct Hin as [<-|[]]. contradiction.
    + intros H. apply in_app_or in H. destruct H as [H|[H|[]]]; [contradiction|].
      congruence.
Qed.

Lemma set_fresh acc key v :
  key <> "__proto__" -> ~ In key (map fst acc) -> Js.set acc key v = (acc ++ [(key, v)])%list.
Proof.
  intros Hp Hk. unfold Js.set.
  destruct (String.eqb key "__proto__") eqn:E; [apply String.eqb_eq in E; contradiction|].
  rewrite (proj2 (update_None acc key v) Hk). reflexivity.
Qed.

(** What [assignAll] builds has clean keys, and each of its values comes
    from an entry of the same key. *)
Lemma assignAll_cleanKeys l acc : Js.cleanKeys acc -> Js.cleanKeys (assignAll d acc l).
Proof.
  revert acc. induction l as [|[k x] l IH]; intros acc H; simpl; [exact H|].
  apply IH. apply set_cleanKeys. exact H.
Qed.

Lemma assignAll_In l acc k y :
  In (k, y) (assignAll d acc l) ->
  In (k, y) acc \/ exists x, In (k, x) l /\ y = redactProp d k x.
Proof.
  revert acc. induction l as [|[k0 x0] l IH]; intros acc H; simpl in H; [auto|].
  apply IH in H. destruct H as [H|(x & Hin & ->)].
  - apply set_In in H. destruct H as [H|[-> ->]]; [auto|].
    right. exists x0. split; [left; reflexivity | reflexivity].
  - right. exists x. split; [right; exact Hin | reflexivity].
Qed.

(** Entries with clean keys that redaction leaves alone are assigned as
    they are. *)
Lemma assignAll_fixed l acc :
  Js.cleanKeys (acc ++ l) ->
  (forall k y, In (k, y) l -> redactProp d k y = y) ->
  assignAll d acc l = (acc ++ l)%list.
Proof.
  revert acc. induction l as [|[k y] l IH]; intros acc Hclean Hfix; simpl.
  - rewrite app_nil_r. reflexivity.
  - rewrite (Hfix k y) by (left; reflexivity).
    destruct Hclean as [Hnd Hproto]. rewrite map_app in Hnd, Hproto. simpl in Hnd, Hproto.
    rewrite set_fresh.
    + rewrite IH.
      * rewrite <- app_assoc. reflexivity.
      * unfold Js.cleanKeys. rewrite <- app_assoc. simpl. rewrite map_app. simpl.
        split; assumption.
      * intros k' y' Hin. apply Hfix. right. exact Hin.
    + intros ->. apply Hproto. apply in_or_app. right. left. reflexivity.
    + intros Hin. apply NoDup_app in Hnd. destruct Hnd as (_ & Hdisj & _).
      apply (Hdisj k); [apply list_elem_of_In; exact Hin | left].
Qed.


(** *** Induction on values, through arrays and objects *)

Lemma value_nested_ind (P : value -> Prop) :
  P VUndefined -> P VNull -> (forall b, P (VBool b)) -> (forall n, P (VNum n)) ->
  (forall s, P (VStr s)) ->
  (forall items, Forall P items -> P (VArr items)) ->
  (forall props, Forall (fun kv => P (snd kv)) props -> P (VObj props)) ->
  forall v, P v.
Proof.
  intros Hu Hn Hb Hz Hs Ha Ho. fix IH 1.
  intros [ | | b | n | s | items | props];
    [exact Hu | exact Hn | apply Hb | apply Hz | apply Hs | | ].
  - apply Ha. induction items as [|x items IHitems]; constructor; [apply IH | exact IHitems].
  - apply Ho. induction props as [|[k x] props IHprops]; constructor;
      [apply IH | exact IHprops].
Qed.

Lemma redactObject_is_object v : exists props, redactObject d v = VObj props.
Proof.
  destruct v; try (exists []; reflexivity).
  - rewrite redactObject_VArr. eauto.
  - rewrite redactObject_VObj. eauto.
Qed.

Lemma indexed_values i items k x : In (k, x) (indexed i items) -> In x items.
Proof.
  revert i. induction items as [|y items IH]; intros i H; simpl in H; [contradiction|].
  destruct H as [H|H]; [injection H as _ <-; left; reflexivity | right; eauto].
Qed.

Lemma entries_second_pass l :
  (forall k x, In (k, x) l -> secondPassKeeps d x) ->
  Forall (stableString d) (entriesCalls d l) ->
  assignAll d [] (assignAll d [] l) = assignAll d [] l.
Proof.
  intros Hkeeps Hstable.
  assert (Hclean : Js.cleanKeys (assignAll d [] l)).
  { apply assignAll_cleanKeys. split; [constructor | intros []]. }
  rewrite assignAll_fixed; [reflexivity | exact Hclean |].
  intros k y Hin. apply assignAll_In in Hin. destruct Hin as [[]|(x & Hx & ->)].
  apply (Hkeeps k x Hx).
  unfold entriesCalls in Hstable. rewrite Forall_flat_map in Hstable.
  rewrite List.Forall_forall in Hstable. apply (Hstable (k, x)). exact Hx.
Qed.

Lemma object_second_pass l x :
  redactObject d x = VObj (assignAll d [] l) ->
  redactStringCalls d x = entriesCalls d l ->
  (forall k y, In (k, y) l -> secondPassKeeps d y) ->
  Forall (stableString d) (redactStringCalls d x) ->
  redactObject d (redactObject d x) = redactObject d x.
Proof.
  intros Hred Hcalls Hkeeps Hstable.
  rewrite Hred, redactObject_VObj. f_equal.
  apply entries_second_pass; [exact Hkeeps|]. rewrite <- Hcalls. exact Hstable.
Qed.

Lemma redactItem_of_object x props :
  redactObject d x = VObj props -> redactItem d (redactObject d x) = redactObject d (redactObject d x).
Proof. intros ->. reflexivity. Qed.

Lemma redactProp_sensitive key x :
  isSensitiveField d key = true -> redactProp d key x = VStr "[REDACTED]".
Proof. intros E. unfold redactProp. rewrite E. reflexivity. Qed.

Lemma redactProp_plain key x :
  isSensitiveField d key = false ->
  redactProp d key x
  = match x with
    | VStr s => VStr (redactString d s)
    | VArr items => VArr (map (redactItem d) items)
    | VObj _ => redactObject d x
    | _ => x
    end.
Proof. intros E. unfold redactProp. rewrite E. reflexivity. Qed.

(** Under a sensitive key the marker is written again; elsewhere it is
    enough that a second pass keeps what the first made of the value. *)
Lemma redactProp_second_pass key x :
  (isSensitiveField d key = false ->
   Forall (stableString d) (propCalls d key x) ->
   redactProp d key (redactProp d key x) = redactProp d key x) ->
  Forall (stableString d) (propCalls d key x) ->
  redactProp d key (redactProp d key x) = redactProp d key x.
Proof.
  intros Hplain Hstable. destruct (isSensitiveField d key) eqn:E; [|auto].
  rewrite (redactProp_sensitive key x E). apply redactProp_sensitive. exact E.
Qed.

Lemma redactProp_plain_object key x props :
  isSensitiveField d key = false -> x = VObj props ->
  redactProp d key x = redactObject d x.
Proof. intros E ->. rewrite (redactProp_plain _ _ E). reflexivity. Qed.

Lemma propCalls_plain key x :
  isSensitiveField d key = false ->
  propCalls d key x
  = match x with
    | VStr s => [s]
    | VArr items => flat_map (itemCalls d) items
    | VObj _ => redactStringCalls d x
    | _ => []
    end.
Proof. intros E. unfold propCalls. rewrite E. reflexivity. Qed.

Lemma secondPassKeeps_all x : secondPassKeeps d x.
Proof.
  induction x as [ | | b | n | s | items IH | props IH] using value_nested_ind.
  1-4: (split; [reflexivity|]; split; [|reflexivity];
        intros key; apply redactProp_second_pass; intros E _;
        rewrite !(redactProp_plain key _ E); reflexivity).
  - (* a string *)
    split; [reflexivity|]. split.
    + intros key. apply redactProp_second_pass. intros E.
      rewrite (propCalls_plain key _ E), (redactProp_plain key (VStr s) E).
      intros H. inversion H as [|? ? Hs _]; subst.
      rewrite (redactProp_plain key _ E). f_equal. exact Hs.
    + intros H. inversion H as [|? ? Hs _]; subst. cbn. f_equal. exact Hs.
  - (* an array *)
    assert (Hobj : Forall (stableString d) (redactStringCalls d (VArr items)) ->
                   redactObject d (redactObject d (VArr items))
                   = redactObject d (VArr items)).
    { apply (object_second_pass (indexed 0 items));
        [apply redactObject_VArr | apply redactStringCalls_VArr |].
      intros k y Hin. apply indexed_values in Hin.
      rewrite List.Forall_forall in IH. apply IH. exact Hin. }
    destruct (redactObject_is_object (VArr items)) as [props Hprops].
    split; [exact Hobj|]. split.
    + intros key. apply redactProp_second_pass. intros E.
      rewrite (propCalls_plain key _ E), (redactProp_plain key (VArr items) E).
      intros H. rewrite (redactProp_plain key _ E). f_equal. rewrite map_map.
      apply map_ext_in. intros y Hy.
      rewrite Forall_flat_map, List.Forall_forall in H.
      rewrite List.Forall_forall in IH. apply (IH y Hy). apply H. exact Hy.
    + intros H. change (redactItem d (VArr items)) with (redactObject d (VArr items)).
      rewrite (redactItem_of_object _ props Hprops). apply Hobj. exact H.
  - (* an object *)
    assert (Hobj : Forall (stableString d) (redactStringCalls d (VObj props)) ->
                   redactObject d (redactObject d (VObj props))
                   = redactObject d (VObj props)).
    { apply (object_second_pass props);
        [apply redactObject_VObj | apply redactStringCalls_VObj |].
      intros k y Hin. rewrite List.Forall_forall in IH. apply (IH (k, y)). exact Hin. }
    destruct (redactObject_is_object (VObj props)) as [props' Hprops].
    split; [exact Hobj|]. split.
    + intros key. apply redactProp_second_pass. intros E.
      rewrite (propCalls_plain key _ E), (redactProp_plain key (VObj props) E).
      intros H. rewrite (redactProp_plain_object key _ props' E Hprops).
      apply Hobj. exact H.
    + intros H. change (redactItem d (VObj props)) with (redactObject d (VObj props)).
      rewrite (redactItem_of_object _ props' Hprops). apply Hobj. exact H.
Qed.

(** C8, as amended. [redactObject] is idempotent on every object (and
    array) for which each string that the first pass hands to [redactString]
    comes out stable, that is, [redactString] applied once more leaves it
    unchanged; values under sensitive keys are replaced by the marker and
    need no such condition. *)
Theorem redactObject_idempotent_on_stable_strings :
  forall obj,
    Forall (stableString d) (redactStringCalls d obj) ->
    redactObject d (redactObject d obj) = redactObject d obj.
Proof.
  intros obj. apply (secondPassKeeps_all obj).
Qed.

End RedactionFacts.

Lemma redactObject_idempotent_on_stable_strings_witness :
  DataRedactor.redactObject Scenario.redactor
    (DataRedactor.redactObject Scenario.redactor Scenario.profile)
  = DataRedactor.redactObject Scenario.redactor Scenario.profile.
Proof.
  apply redactObject_idempotent_on_stable_strings.
  assert (E : DataRedactor.redactStringCalls Scenario.redactor Scenario.profile
              = ["Contact me at john@example.com"; "4111-1111-1111-1111"; "J. Doe";
                 "555-123-4567"; "x"])
    by (vm_compute; reflexivity).
  rewrite E.
  repeat (constructor; [unfold DataRedactor.stableString; vm_compute; reflexivity|]).
  constructor.
Defined.

(** What the first pass leaves of a token followed by digits: the token is
    masked up to its last character, a digit, which with the three digits
    after it now stands at a word boundary; the second pass masks these four
    digits as a card security code. *)
Lemma redactObject_not_idempotent_counterexample :
  DataRedactor.redactObject Scenario.redactor Scenario.tokenNote
  = VObj [("note", VStr ("g" ++ Scenario.stars 38 ++ "9123"))]
  /\ DataRedactor.redactObject Scenario.redactor
       (DataRedactor.redactObject Scenario.redactor Scenario.tokenNote)
     = VObj [("note", VStr ("g" ++ Scenario.stars 42))]
  /\ DataRedactor.redactObject Scenario.redactor
       (DataRedactor.redactObject Scenario.redactor Scenario.tokenNote)
     <> DataRedactor.redactObject Scenario.redactor Scenario.tokenNote.
Proof.
  assert (H1 : DataRedactor.redactObject Scenario.redactor Scenario.tokenNote
               = VObj [("note", VStr ("g" ++ Scenario.stars 38 ++ "9123"))])
    by (vm_compute; reflexivity).
  assert (H2 : DataRedactor.redactObject Scenario.redactor
                 (DataRedactor.redactObject Scenario.redactor Scenario.tokenNote)
               = VObj [("note", VStr ("g" ++ Scenario.stars 42))])
    by (vm_compute; reflexivity).
  split; [exact H1|]. split; [exact H2|].
  rewrite H2, H1. vm_compute. discriminate.
Qed.

(** C9 (fails on the code). Two consecutive calls of
    [containsSensitiveData] on the same instance with the same string do
    not return the same boolean: on a new redactor the first call with
    ["1234"] returns [true] and leaves the [lastIndex] of the matching
    global pattern at 4, so the second call with ["1234"] returns [false]. *)
Theorem containsSensitiveData_not_repeatable :
  let d0 := DataRedactor.new [] in
  let first := DataRedactor.containsSensitiveData d0 "1234" in
  let second := DataRedactor.containsSensitiveData (snd first) "1234" in
  fst first = true
  /\ map snd (DataRedactor.sensitivePatterns (snd first))
     = [0; 0; 0; 0; 0; 4; 0; 0; 0; 0; 0]%nat
  /\ fst second = false.
Proof. vm_compute. auto. Qed.

(** ** Remarks *)

(** A hostname that names a member of [Object.prototype] resolves to that
    member, not to a policy: none of the policy properties is set on it,
    so the URL is denied. *)
Remark inherited_name_is_no_policy :
  PolicyEngine.getDomainPolicy Scenario.testConfig "constructor"
  = PolicyEngine.Inherited "constructor"
  /\ allowed (fst (PolicyEngine.checkDomainPolicy Scenario.platform 5000
                     "https://constructor/" OpRead Scenario.engine)) = false.
Proof. split; reflexivity. Qed.

(** A write on an allowlisted host whose URL names a checkout page: the
    domain-policy and the sensitive-data decisions both ask for approval,
    two warnings are logged, and the remote result is returned. *)
Remark approval_flags_are_warnings :
  let r := MCPToolRegistry.executeTool Scenario.platform Scenario.tools
             (Scenario.readingsAt 5000) Scenario.remoteOk "navigate"
             Scenario.openCheckout Scenario.world in
  fst r = [("success", VBool true); ("data", VObj [("done", VBool true)])]
  /\ firstn 2 (MCPToolRegistry.console (snd r))
     = [MCPToolRegistry.warn
          ("Tool navigate requires approval for http://localhost/checkout/cart "
           ++ "but approval workflow not yet implemented");
        MCPToolRegistry.warn
          "Tool navigate involves sensitive data: Interacting with checkout/payment page"].
Proof. vm_compute. auto. Qed.

(** A selector that cannot be converted to a string: an object whose
    [toString] property is no function. [assessRisk] throws the
    [TypeError] of the conversion, and a call of [type_text] through a
    registry whose schema lets the object pass ends in the failure made of
    that error, the handler not called. *)
Remark unconvertible_selector_throws :
  let selector := VObj [("toString", VNum 1)] in
  fst (DataRedactor.assessRisk Scenario.hostOf Scenario.redactor "type_text"
         [("selector", selector)] None)
  = inr (DataRedactor.NotConvertible selector)
  /\ fst (MCPToolRegistry.executeTool Scenario.platform Scenario.tools
            (Scenario.readingsAt 5000) Scenario.remoteOk "type_text"
            [("selector", selector)] Scenario.world)
     = MCPToolRegistry.failure "Cannot convert object to primitive value"
         [("tool", VStr "type_text"); ("timestamp", VNum 5000);
          ("requestId", VStr "type_text_5000_k3j9x2abc")].
Proof. vm_compute. auto. Qed.

(** * Further properties *)

(** ** The rate limiter: answers, status and housekeeping *)

Section RateLimiterAnswers.
Import RateLimiter.

Lemma window_full_Some w now size limit d :
  window_full w now size limit = Some d ->
  w = Some d /\ now - resetTime d < size /\ limit <= count d.
Proof.
  unfold window_full. destruct w as [d0|]; [|discriminate].
  destruct (now - resetTime d0 <? size) eqn:E1; [|discriminate].
  destruct (limit <=? count d0) eqn:E2; [|discriminate].
  simpl. intros H. injection H as <-.
  apply Z.ltb_lt in E1. apply Z.leb_le in E2. auto.
Qed.

Lemma window_full_None w now size limit :
  window_full w now size limit = None ->
  liveCount w now size < limit \/ (liveCount w now size = 0 /\ limit <= 0).
Proof.
  unfold window_full, liveCount. destruct w as [d|]; [|intros _; lia].
  destruct (now - resetTime d <? size); [|intros _; lia].
  destruct (limit <=? count d) eqn:E; [discriminate|].
  apply Z.leb_gt in E. intros _. left. exact E.
Qed.

Lemma window_full_count w now size limit d :
  window_full w now size limit = Some d -> liveCount w now size = count d.
Proof.
  intros H. destruct (window_full_Some _ _ _ _ _ H) as (-> & Hlive & _).
  unfold liveCount. apply Z.ltb_lt in Hlive. rewrite Hlive. reflexivity.
Qed.

(** X1. [checkRateLimit] has two kinds of answer only: the bare
    [{allowed: true}], or a denial that carries a reason and a
    [retryAfter] of at least one second. *)
Theorem checkRateLimit_answers :
  forall now identifier l,
    checkRateLimit now identifier l
    = {| allowed := true; reason := None; retryAfter := None |}
    \/ exists why n,
        checkRateLimit now identifier l
        = {| allowed := false; reason := Some why; retryAfter := Some n |}
        /\ 1 <= n.
Proof.
  intros now identifier l. unfold checkRateLimit.
  destruct (window_full (requestCounts l !! minuteKey identifier) now minuteMs
                        (maxRequestsPerMinute l)) as [d|] eqn:Em.
  - right. apply window_full_Some in Em. destruct Em as (_ & Hlive & _).
    eexists _, _. split; [reflexivity|].
    pose proof (ceil_seconds_spec (minuteMs - (now - resetTime d))). lia.
  - destruct (window_full (requestCounts l !! hourKey identifier) now hourMs
                          (maxRequestsPerHour l)) as [d|] eqn:Eh.
    + right. apply window_full_Some in Eh. destruct Eh as (_ & Hlive & _).
      eexists _, _. split; [reflexivity|].
      pose proof (ceil_seconds_spec (hourMs - (now - resetTime d))). lia.
    + left. reflexivity.
Qed.

(** X2. With limits of at least 1, [checkRateLimit] allows exactly when
    the counts that [getRateLimitStatus] reports for the same instant are
    both below their limits. *)
Theorem status_agrees_with_check :
  forall now identifier l,
    1 <= maxRequestsPerMinute l -> 1 <= maxRequestsPerHour l ->
    let s := getRateLimitStatus now identifier l in
    allowed (checkRateLimit now identifier l) = true
    <-> (minuteCount s < minuteLimit s /\ hourCount s < hourLimit s).
Proof.
  intros now identifier l Hm Hh s. subst s. unfold checkRateLimit. simpl.
  destruct (window_full (requestCounts l !! minuteKey identifier) now minuteMs
                        (maxRequestsPerMinute l)) as [d|] eqn:Em.
  - pose proof (window_full_count _ _ _ _ _ Em) as Hc.
    apply window_full_Some in Em. destruct Em as (_ & _ & Hfull).
    simpl. split; [discriminate | lia].
  - apply window_full_None in Em.
    destruct (window_full (requestCounts l !! hourKey identifier) now hourMs
                          (maxRequestsPerHour l)) as [d|] eqn:Eh.
    + pose proof (window_full_count _ _ _ _ _ Eh) as Hc.
      apply window_full_Some in Eh. destruct Eh as (_ & _ & Hfull).
      simpl. split; [discriminate | lia].
    + apply window_full_None in Eh. simpl. split; [intros _; lia | reflexivity].
Qed.

End RateLimiterAnswers.

Lemma status_agrees_with_check_witness :
  let l := RateLimiter.recordAll [1000; 2000; 3000] "global" (RateLimiter.new 3 1000 30000 5) in
  RateLimiter.allowed (RateLimiter.checkRateLimit 4000 "global" l) = false
  /\ RateLimiter.minuteCount (RateLimiter.getRateLimitStatus 4000 "global" l) = 3
  /\ RateLimiter.minuteLimit (RateLimiter.getRateLimitStatus 4000 "global" l) = 3.
Proof.
  pose proof (status_agrees_with_check 4000 "global"
                (RateLimiter.recordAll [1000; 2000; 3000] "global"
                   (RateLimiter.new 3 1000 30000 5))
                ltac:(vm_compute; discriminate) ltac:(vm_compute; discriminate)) as H.
  cbv zeta in H.
  split; [|split; vm_compute; reflexivity].
  destruct (RateLimiter.allowed _); [|reflexivity].
  destruct (proj1 H eq_refl) as [E _]. vm_compute in E. discriminate.
Defined.

(** *** Suffixes *)

Section SuffixFacts.

Lemma length_append (s p : string) :
  String.length (s ++ p) = (String.length s + String.length p)%nat.
Proof.
  induction s as [|c s IH]; [reflexivity|].
  change (S (String.length (s ++ p)) = S (String.length s + String.length p)).
  rewrite IH. reflexivity.
Qed.

Lemma slice_append (s p : string) : JsString.slice (String.length s) (s ++ p) = p.
Proof. induction s as [|c s IH]; [destruct p; reflexivity | exact IH]. Qed.

Lemma slice_is_suffix (n : nat) (s : string) : exists pre, s = pre ++ JsString.slice n s.
Proof.
  revert s. induction n as [|n IH]; intros s.
  - exists "". destruct s; reflexivity.
  - destruct s as [|c s]; [exists ""; reflexivity|].
    destruct (IH s) as [pre Hpre]. exists (String c pre).
    change (String c s = String c (pre ++ JsString.slice n s)).
    rewrite <- Hpre. reflexivity.
Qed.

Lemma endsWith_append (s p : string) : JsString.endsWith (s ++ p) p = true.
Proof.
  unfold JsString.endsWith. rewrite length_append.
  replace (String.length s + String.length p - String.length p)%nat
    with (String.length s) by lia.
  rewrite slice_append, String.eqb_refl, andb_true_r.
  apply Nat.leb_le. lia.
Qed.

Lemma endsWith_suffix (s p : string) :
  JsString.endsWith s p = true -> exists pre, s = pre ++ p.
Proof.
  unfold JsString.endsWith. intros H. apply andb_true_iff in H. destruct H as [_ H].
  apply String.eqb_eq in H.
  destruct (slice_is_suffix (String.length s - String.length p) s) as [pre Hpre].
  exists pre. rewrite H in Hpre. exact Hpre.
Qed.

Lemma chars_append (s p : string) :
  JsString.chars (s ++ p) = (JsString.chars s ++ JsString.chars p)%list.
Proof.
  unfold JsString.chars. induction s as [|c s IH]; [reflexivity|].
  change (c :: list_ascii_of_string (s ++ p)
          = c :: (list_ascii_of_string s ++ list_ascii_of_string p)%list).
  rewrite IH. reflexivity.
Qed.

(** Two strings with different last characters are no suffix of one
    another's extensions. *)
Lemma different_last_char (a b r1 r2 : string) (c1 c2 : ascii) :
  c1 <> c2 -> a ++ r1 ++ String c1 "" <> b ++ r2 ++ String c2 "".
Proof.
  intros Hne H. apply (f_equal JsString.chars) in H.
  rewrite !chars_append in H. rewrite !app_assoc in H.
  change (JsString.chars (String c1 "")) with [c1] in H.
  change (JsString.chars (String c2 "")) with [c2] in H.
  apply app_inj_tail in H. destruct H as [_ H]. contradiction.
Qed.

End SuffixFacts.

Section RateLimiterHousekeeping.
Import RateLimiter.

Lemma minuteKey_endsWith identifier :
  JsString.endsWith (minuteKey identifier) ":minute" = true.
Proof. apply endsWith_append. Qed.

Lemma hourKey_endsWith identifier :
  JsString.endsWith (hourKey identifier) ":minute" = false.
Proof.
  destruct (JsString.endsWith (hourKey identifier) ":minute") eqn:E; [|reflexivity].
  apply endsWith_suffix in E. destruct E as [pre E]. exfalso.
  symmetry in E. revert E.
  apply (different_last_char pre identifier ":minut" ":hou" "e" "r"). discriminate.
Qed.

(** What [cleanup] drops of a window is what neither [checkRateLimit] nor
    [recordRequest] would still read. *)
Lemma cleanup_window now1 now2 key size limit l :
  (if JsString.endsWith key ":minute" then minuteMs else hourMs) = size ->
  now1 <= now2 ->
  window_full (requestCounts (cleanup now1 l) !! key) now2 size limit
  = window_full (requestCounts l !! key) now2 size limit
  /\ bump now2 size key (requestCounts (cleanup now1 l)) !! key
     = bump now2 size key (requestCounts l) !! key.
Proof.
  intros Hsize Hle. unfold cleanup. simpl.
  assert (Hpos : 0 < size) by (rewrite <- Hsize; destruct (JsString.endsWith _ _); reflexivity).
  destruct (requestCounts l !! key) as [d|] eqn:E.
  - destruct (Z_lt_dec (2 * size) (now1 - resetTime d)) as [Hold|Hkeep].
    + rewrite map_lookup_filter_None_2.
      * split.
        -- simpl. destruct (now2 - resetTime d <? size) eqn:E1; [|reflexivity].
           apply Z.ltb_lt in E1. lia.
        -- unfold bump. rewrite E.
           rewrite map_lookup_filter_None_2.
           ++ assert (E1 : (size <? now2 - resetTime d) = true) by (apply Z.ltb_lt; lia).
              rewrite E1, !lookup_insert_eq. reflexivity.
           ++ right. intros x Hx. rewrite E in Hx. injection Hx as <-.
              simpl. rewrite Hsize. intros Hn. apply Hn. exact Hold.
      * right. intros x Hx. rewrite E in Hx. injection Hx as <-.
        simpl. rewrite Hsize. intros Hn. apply Hn. exact Hold.
    + assert (Hf : filter (fun kv : string * window =>
                     ¬ 2 * (if JsString.endsWith kv.1 ":minute" then minuteMs else hourMs)
                       < now1 - resetTime kv.2) (requestCounts l) !! key = Some d).
      { apply map_lookup_filter_Some_2; [exact E|]. simpl. rewrite Hsize. exact Hkeep. }
      rewrite Hf. split; [reflexivity|].
      unfold bump. rewrite Hf, E.
      destruct (size <? now2 - resetTime d); rewrite !lookup_insert_eq; reflexivity.
  - assert (Hf : filter (fun kv : string * window =>
                     ¬ 2 * (if JsString.endsWith kv.1 ":minute" then minuteMs else hourMs)
                       < now1 - resetTime kv.2) (requestCounts l) !! key = None).
    { apply map_lookup_filter_None_2. left. exact E. }
    rewrite Hf. split; [reflexivity|].
    unfold bump. rewrite Hf, E, !lookup_insert_eq. reflexivity.
Qed.

Lemma cleanup_keeps_answer now1 now2 identifier l :
  now1 <= now2 ->
  checkRateLimit now2 identifier (cleanup now1 l) = checkRateLimit now2 identifier l.
Proof.
  intros Hle.
  assert (Hm : (if JsString.endsWith (minuteKey identifier) ":minute"
                then minuteMs else hourMs) = minuteMs)
    by (rewrite minuteKey_endsWith; reflexivity).
  assert (Hh : (if JsString.endsWith (hourKey identifier) ":minute"
                then minuteMs else hourMs) = hourMs)
    by (rewrite hourKey_endsWith; reflexivity).
  unfold checkRateLimit.
  change (maxRequestsPerMinute (cleanup now1 l)) with (maxRequestsPerMinute l).
  change (maxRequestsPerHour (cleanup now1 l)) with (maxRequestsPerHour l).
  rewrite (proj1 (cleanup_window now1 now2 _ _ (maxRequestsPerMinute l) l Hm Hle)).
  rewrite (proj1 (cleanup_window now1 now2 _ _ (maxRequestsPerHour l) l Hh Hle)).
  reflexivity.
Qed.

(** X3. [cleanup] is invisible to the limiter's decisions: at any later
    instant [checkRateLimit] answers as it would have without the cleanup,
    and a request recorded then leaves the identifier's minute and hour
    windows as it would have. *)
Theorem cleanup_is_transparent :
  forall now1 now2 identifier l,
    now1 <= now2 ->
    checkRateLimit now2 identifier (cleanup now1 l) = checkRateLimit now2 identifier l
    /\ requestCounts (recordRequest now2 identifier (cleanup now1 l)) !! minuteKey identifier
       = requestCounts (recordRequest now2 identifier l) !! minuteKey identifier
    /\ requestCounts (recordRequest now2 identifier (cleanup now1 l)) !! hourKey identifier
       = requestCounts (recordRequest now2 identifier l) !! hourKey identifier.
Proof.
  intros now1 now2 identifier l Hle.
  assert (Hm : (if JsString.endsWith (minuteKey identifier) ":minute"
                then minuteMs else hourMs) = minuteMs)
    by (rewrite minuteKey_endsWith; reflexivity).
  assert (Hh : (if JsString.endsWith (hourKey identifier) ":minute"
                then minuteMs else hourMs) = hourMs)
    by (rewrite hourKey_endsWith; reflexivity).
  split; [|split].
  - apply cleanup_keeps_answer. exact Hle.
  - rewrite !recordRequest_minute.
    apply (proj2 (cleanup_window now1 now2 _ _ 0 l Hm Hle)).
  - rewrite !recordRequest_hour.
    apply (proj2 (cleanup_window now1 now2 _ _ 0 l Hh Hle)).
Qed.

(** X4. A request that was started and then completed (with either
    outcome) is tracked no longer and its timer is disarmed: the timeout
    callback cannot run for it any more, and nothing is left to cancel.
    A request that was started can be cancelled, once. *)
Theorem completed_request_is_untracked :
  forall now requestId success l,
    let l' := completeRequest requestId success (startRequest now requestId l) in
    activeRequests l' = delete requestId (activeRequests l)
    /\ timers l' = delete (nextTimer l) (timers l)
    /\ timerFires (nextTimer l) l' = l'
    /\ fst (cancelRequest requestId l') = false
    /\ fst (cancelRequest requestId (startRequest now requestId l)) = true
    /\ activeRequests (snd (cancelRequest requestId (startRequest now requestId l)))
       = delete requestId (activeRequests l).
Proof.
  intros now requestId success l l'.
  assert (Hu : activeRequests (untrack requestId (startRequest now requestId l))
               = delete requestId (activeRequests l)
               /\ timers (untrack requestId (startRequest now requestId l))
                  = delete (nextTimer l) (timers l)).
  { unfold untrack, startRequest. simpl. rewrite lookup_insert_eq. simpl.
    rewrite !delete_insert_eq. auto. }
  destruct Hu as [Ha Ht].
  assert (Hl' : activeRequests l' = delete requestId (activeRequests l)
                /\ timers l' = delete (nextTimer l) (timers l)).
  { subst l'. unfold completeRequest. destruct success; simpl; auto. }
  destruct Hl' as [Ha' Ht'].
  repeat split.
  - exact Ha'.
  - exact Ht'.
  - unfold timerFires. rewrite Ht', lookup_delete_eq. reflexivity.
  - unfold cancelRequest. simpl. rewrite Ha', lookup_delete_eq.
    apply bool_decide_eq_false. intros [x Hx]. discriminate.
  - unfold cancelRequest, startRequest. simpl. rewrite lookup_insert_eq.
    apply bool_decide_eq_true. eauto.
  - exact Ha.
Qed.

(** After [resetAllFailures], and for one identifier after
    [resetFailures], the failure count reads 0 and, with a threshold of at
    least 1, [checkFailureThreshold] allows. *)
Lemma reset_failures_allow :
  forall identifier l,
    1 <= maxConsecutiveFailures l ->
    checkFailureThreshold identifier (resetAllFailures l)
    = {| f_allowed := true; f_reason := None; f_failureCount := 0 |}
    /\ checkFailureThreshold identifier (resetFailures identifier l)
       = {| f_allowed := true; f_reason := None; f_failureCount := 0 |}
    /\ forall other, other <> identifier ->
         checkFailureThreshold other (resetFailures identifier l)
         = checkFailureThreshold other l.
Proof.
  intros identifier l Hmax.
  assert (Hzero : forall l', maxConsecutiveFailures l' = maxConsecutiveFailures l ->
                             failures identifier l' = O ->
                             checkFailureThreshold identifier l'
                             = {| f_allowed := true; f_reason := None;
                                  f_failureCount := 0 |}).
  { intros l' Hm Hf. unfold checkFailureThreshold, failureCount. rewrite Hf, Hm.
    change (Z.of_nat 0) with 0.
    destruct (maxConsecutiveFailures l <=? 0) eqn:E; [apply Z.leb_le in E; lia|].
    reflexivity. }
  split; [|split].
  - apply Hzero; [reflexivity|].
    unfold failures, resetAllFailures. simpl. rewrite lookup_empty. reflexivity.
  - apply Hzero; [reflexivity|].
    unfold failures, resetFailures. simpl. rewrite lookup_delete_eq. reflexivity.
  - intros other Hne.
    unfold checkFailureThreshold, failureCount, failures, resetFailures. simpl.
    rewrite lookup_delete_ne by auto. reflexivity.
Qed.

End RateLimiterHousekeeping.

Lemma cleanup_is_transparent_witness :
  let l := RateLimiter.recordAll [1000; 2000] "global" (RateLimiter.new 2 1000 30000 5) in
  RateLimiter.requestCounts (RateLimiter.cleanup 200000 l) !! RateLimiter.minuteKey "global"
  = None
  /\ RateLimiter.checkRateLimit 200000 "global" (RateLimiter.cleanup 200000 l)
     = RateLimiter.checkRateLimit 200000 "global" l.
Proof.
  split; [vm_compute; reflexivity|].
  apply (cleanup_is_transparent 200000 200000). lia.
Defined.

(** ** The policy engine: domain decisions and budgets *)

Section DomainDecisions.
Import PolicyEngine.

(** X5. A URL that starts, in any letter case, with one of the restricted
    schemes is denied for reading and for writing, whatever the allowlist
    says about its host, and the engine state is left as it was. *)
Theorem restricted_scheme_is_denied :
  forall pf now url op pe restricted,
    In restricted RESTRICTED_DOMAINS ->
    JsString.startsWith (JsString.toLowerCase url) restricted = true ->
    allowed (fst (checkDomainPolicy pf now url op pe)) = false
    /\ snd (checkDomainPolicy pf now url op pe) = pe.
Proof.
  intros pf now url op pe restricted Hin Hstarts. unfold checkDomainPolicy.
  destruct (URL_hostname pf url) as [hostname|message]; [|split; reflexivity].
  destruct (find (JsString.startsWith (JsString.toLowerCase url)) RESTRICTED_DOMAINS)
    as [r|] eqn:E; [split; reflexivity|].
  pose proof (find_none _ _ E restricted Hin) as Hnone. simpl in Hnone. congruence.
Qed.

(** X6. Whenever [checkDomainPolicy] allows a URL that contains one of the
    checkout keywords, in any letter case, or whose host has a policy with
    [requiresApproval: true], the decision asks for approval and says
    why. *)
Theorem checkout_url_needs_approval :
  forall pf now url op pe,
    (exists keyword, In keyword CHECKOUT_DOMAINS
                     /\ JsString.includes (JsString.toLowerCase url) keyword = true)
    \/ (exists hostname,
           URL_hostname pf url = inl hostname
           /\ requiresApproval (getDomainPolicy (config pe) (JsString.toLowerCase hostname))
              = Some true) ->
    allowed (fst (checkDomainPolicy pf now url op pe)) = true ->
    needsApproval (fst (checkDomainPolicy pf now url op pe)) = true
    /\ reason (fst (checkDomainPolicy pf now url op pe))
       = Some "Sensitive domain or action detected".
Proof.
  intros pf now url op pe Hwhy. unfold checkDomainPolicy.
  destruct (URL_hostname pf url) as [hostname|message] eqn:Hurl; [|discriminate].
  destruct (find _ RESTRICTED_DOMAINS); [discriminate|].
  destruct (negb _); [discriminate|].
  assert (Happroval : requiresApprovalFor (config pe) (JsString.toLowerCase hostname)
                                          url op = true).
  { unfold requiresApprovalFor.
    destruct Hwhy as [(keyword & Hin & Hinc) | (h & Hh & Hpol)].
    - destruct (requiresApproval _) as [[]|]; try reflexivity;
        (apply orb_true_iff; left; apply existsb_exists; exists keyword;
         split; [exact Hin | rewrite Hinc; reflexivity]).
    - injection Hh as <-. rewrite Hpol. reflexivity. }
  rewrite Happroval.
  destruct (checkStepBudget now (JsString.toLowerCase hostname) pe) as [[] pe'];
    [discriminate|].
  intros _. split; reflexivity.
Qed.

End DomainDecisions.

Lemma restricted_scheme_is_denied_witness :
  allowed (fst (PolicyEngine.checkDomainPolicy Scenario.platform 5000
                  "FILE://localhost/etc/passwd" OpRead Scenario.engine)) = false
  /\ PolicyEngine.getDomainPolicy Scenario.testConfig "localhost"
     = PolicyEngine.Policy Scenario.readWrite.
Proof.
  split; [|reflexivity].
  apply (restricted_scheme_is_denied Scenario.platform 5000 "FILE://localhost/etc/passwd"
           OpRead Scenario.engine "file://").
  - simpl. tauto.
  - vm_compute. reflexivity.
Defined.

Lemma checkout_url_needs_approval_witness :
  needsApproval (fst (PolicyEngine.checkDomainPolicy Scenario.platform 5000
                        "http://localhost/Checkout" OpRead Scenario.engine)) = true.
Proof.
  apply (checkout_url_needs_approval Scenario.platform 5000 "http://localhost/Checkout"
           OpRead Scenario.engine).
  - left. exists "checkout". split; [simpl; tauto | vm_compute; reflexivity].
  - vm_compute. reflexivity.
Defined.

Section StepBudgets.
Import PolicyEngine.

Lemma recordToolExecution_fields now toolName success domain requestId pe :
  config (recordToolExecution now toolName success domain requestId pe) = config pe
  /\ globalStepCount (recordToolExecution now toolName success domain requestId pe)
     = globalStepCount pe + 1
  /\ stepCounts (recordToolExecution now toolName success domain requestId pe)
     = match domain with
       | Some dom => if JsString.truthy dom
                     then stepCounts (incrementStepCount now dom pe) else stepCounts pe
       | None => stepCounts pe
       end.
Proof.
  unfold recordToolExecution.
  destruct domain as [dom|]; [destruct (JsString.truthy dom)|]; simpl; auto.
Qed.

Lemma incrementStepCount_fresh now domain pe :
  startsHour (stepCounts pe !! domain) now ->
  stepCounts (incrementStepCount now domain pe) !! domain
  = Some {| count := 1; resetTime := now |}.
Proof.
  unfold startsHour, incrementStepCount. simpl.
  destruct (stepCounts pe !! domain) as [sd|].
  - intros H. apply Z.ltb_lt in H. rewrite H. apply lookup_insert_eq.
  - intros _. apply lookup_insert_eq.
Qed.

Lemma incrementStepCount_live now domain pe c t0 :
  stepCounts pe !! domain = Some {| count := c; resetTime := t0 |} ->
  now - t0 <= hourMs ->
  stepCounts (incrementStepCount now domain pe) !! domain
  = Some {| count := c + 1; resetTime := t0 |}.
Proof.
  intros Hsd Hle. unfold incrementStepCount. simpl. rewrite Hsd. simpl.
  destruct (hourMs <? now - t0) eqn:E; [apply Z.ltb_lt in E; lia|].
  apply lookup_insert_eq.
Qed.

Lemma recordExecutions_live es domain pe c t0 :
  JsString.truthy domain = true ->
  stepCounts pe !! domain = Some {| count := c; resetTime := t0 |} ->
  Forall (fun e => e_domain e = Some domain /\ e_now e - t0 <= hourMs) es ->
  stepCounts (recordExecutions es pe) !! domain
  = Some {| count := c + Z.of_nat (List.length es); resetTime := t0 |}
  /\ config (recordExecutions es pe) = config pe
  /\ globalStepCount (recordExecutions es pe)
     = globalStepCount pe + Z.of_nat (List.length es).
Proof.
  intros Htruthy. revert pe c. unfold recordExecutions.
  induction es as [|e es IH]; intros pe c Hsd Hall.
  - simpl. rewrite !Z.add_0_r. auto.
  - inversion Hall as [|? ? [Hdom Hnow] Hrest]; subst.
    simpl fold_left.
    destruct (recordToolExecution_fields (e_now e) (e_toolName e) (e_success e)
                (e_domain e) (e_requestId e) pe) as (Hc & Hg & Hs).
    destruct (IH (recordToolExecution (e_now e) (e_toolName e) (e_success e)
                    (e_domain e) (e_requestId e) pe) (c + 1)) as (A & B & C).
    + rewrite Hs, Hdom, Htruthy. apply incrementStepCount_live; assumption.
    + exact Hrest.
    + rewrite A, B, C, Hc, Hg. simpl List.length.
      repeat split; [f_equal; f_equal; lia | lia].
Qed.

(** X7. The hourly step budget of a domain. Executions recorded for a
    domain, the first opening its hour and the others within it, are
    counted; while that hour lasts, [checkDomainPolicy] on an otherwise
    permitted URL of the domain allows exactly as long as fewer executions
    than the domain's budget ([maxStepsPerHour] if set and not 0, else
    [stepBudget]) were recorded, and denies with "Step budget exceeded"
    after that, leaving the state as it is. Once the hour is over the
    URL is allowed again and the count restarts at 0. *)
Theorem domain_step_budget :
  forall pf url op pe hostname domain first others now,
    URL_hostname pf url = inl hostname ->
    JsString.toLowerCase hostname = domain ->
    JsString.truthy domain = true ->
    find (JsString.startsWith (JsString.toLowerCase url)) RESTRICTED_DOMAINS = None ->
    (match op with
     | OpRead => read (getDomainPolicy (config pe) domain)
     | OpWrite => write (getDomainPolicy (config pe) domain)
     end) = true ->
    startsHour (stepCounts pe !! domain) (e_now first) ->
    e_domain first = Some domain ->
    Forall (fun e => e_domain e = Some domain /\ e_now e - e_now first <= hourMs) others ->
    let pe' := recordExecutions (first :: others) pe in
    let n := Z.of_nat (List.length (first :: others)) in
    (now - e_now first <= hourMs ->
       allowed (fst (checkDomainPolicy pf now url op pe'))
       = (n <? maxSteps (config pe) domain)
       /\ (maxSteps (config pe) domain <= n ->
           reason (fst (checkDomainPolicy pf now url op pe'))
           = Some ("Step budget exceeded for domain " ++ domain)
           /\ snd (checkDomainPolicy pf now url op pe') = pe'))
    /\ (hourMs < now - e_now first ->
          allowed (fst (checkDomainPolicy pf now url op pe')) = true
          /\ stepCounts (snd (checkDomainPolicy pf now url op pe')) !! domain
             = Some {| count := 0; resetTime := now |}).
Proof.
  intros pf url op pe hostname domain first others now
         Hurl Hdom Htruthy Hfind Hop Hstart Hfirst Hothers pe' n.
  set (pe1 := recordToolExecution (e_now first) (e_toolName first) (e_success first)
                (e_domain first) (e_requestId first) pe).
  destruct (recordToolExecution_fields (e_now first) (e_toolName first) (e_success first)
              (e_domain first) (e_requestId first) pe) as (Hc1 & _ & Hs1).
  assert (H1 : stepCounts pe1 !! domain = Some {| count := 1; resetTime := e_now first |}).
  { subst pe1. rewrite Hs1, Hfirst, Htruthy. apply incrementStepCount_fresh. exact Hstart. }
  destruct (recordExecutions_live others domain pe1 1 (e_now first) Htruthy H1 Hothers)
    as (Hsd & Hcfg & _).
  assert (Hpe' : pe' = recordExecutions others pe1) by reflexivity.
  assert (Hn : 1 + Z.of_nat (List.length others) = n).
  { subst n. simpl List.length. lia. }
  rewrite Hn in Hsd. rewrite <- Hpe' in Hsd, Hcfg.
  assert (Hconfig : config pe' = config pe).
  { rewrite Hcfg. subst pe1. exact Hc1. }
  assert (Hcheck : checkDomainPolicy pf now url op pe'
                   = let policy := getDomainPolicy (config pe) domain in
                     let approval := requiresApprovalFor (config pe) domain url op in
                     let '(exceeded, pe2) := checkStepBudget now domain pe' in
                     if exceeded
                     then (deny ("Step budget exceeded for domain " ++ domain)
                                [("domain", VStr domain); ("operation", VStr (opName op));
                                 ("stepBudgetExceeded", VBool true)], pe2)
                     else ({| allowed := true; needsApproval := approval;
                              reason := if approval
                                        then Some "Sensitive domain or action detected"
                                        else None;
                              metadata := Some [("domain", VStr domain);
                                                ("operation", VStr (opName op));
                                                ("policy", policyValue pf policy)] |}, pe2)).
  { unfold checkDomainPolicy. rewrite Hurl, Hfind, Hdom, Hconfig.
    destruct op; simpl in Hop; rewrite Hop; reflexivity. }
  rewrite Hcheck. cbv zeta. unfold checkStepBudget. rewrite Hsd, Hconfig. simpl resetTime.
  simpl count. split.
  - intros Hlive.
    assert (E : (hourMs <? now - e_now first) = false) by (apply Z.ltb_ge; lia).
    rewrite E.
    destruct (maxSteps (config pe) domain <=? n) eqn:Emax.
    + apply Z.leb_le in Emax. simpl. split; [symmetry; apply Z.ltb_ge; lia | auto].
    + apply Z.leb_gt in Emax. simpl. split; [symmetry; apply Z.ltb_lt; lia | lia].
  - intros Hover.
    assert (E : (hourMs <? now - e_now first) = true) by (apply Z.ltb_lt; lia).
    rewrite E. simpl. split; [reflexivity | apply lookup_insert_eq].
Qed.

(** X8. Every recorded execution, whatever its tool and outcome, takes one
    step of the global budget; once [stepBudget] executions are recorded
    [checkGlobalStepBudget] denies, and [resetStepBudget] makes it allow
    again (for a budget of at least 1) and forgets every domain's count. *)
Theorem global_step_budget :
  forall es pe,
    globalStepCount (recordExecutions es pe)
    = globalStepCount pe + Z.of_nat (List.length es)
    /\ config (recordExecutions es pe) = config pe
    /\ allowed (checkGlobalStepBudget (recordExecutions es pe))
       = (globalStepCount pe + Z.of_nat (List.length es) <? stepBudget (config pe))
    /\ forall now,
        allowed (checkGlobalStepBudget (resetStepBudget now (recordExecutions es pe)))
        = (0 <? stepBudget (config pe))
        /\ forall at_ domain,
            checkStepBudget at_ domain (resetStepBudget now (recordExecutions es pe))
            = (false, resetStepBudget now (recordExecutions es pe)).
Proof.
  intros es pe.
  assert (H : globalStepCount (recordExecutions es pe)
              = globalStepCount pe + Z.of_nat (List.length es)
              /\ config (recordExecutions es pe) = config pe).
  { revert pe. unfold recordExecutions. induction es as [|e es IH]; intros pe.
    - simpl. split; [lia | reflexivity].
    - simpl fold_left.
      destruct (recordToolExecution_fields (e_now e) (e_toolName e) (e_success e)
                  (e_domain e) (e_requestId e) pe) as (Hc & Hg & _).
      destruct (IH (recordToolExecution (e_now e) (e_toolName e) (e_success e)
                      (e_domain e) (e_requestId e) pe)) as [A B].
      rewrite A, B, Hc, Hg. simpl List.length. split; [lia | reflexivity]. }
  destruct H as [Hg Hc].
  split; [exact Hg|]. split; [exact Hc|]. split.
  - unfold checkGlobalStepBudget. rewrite Hg, Hc.
    destruct (stepBudget (config pe) <=? _) eqn:E; simpl.
    + apply Z.leb_le in E. symmetry. apply Z.ltb_ge. exact E.
    + apply Z.leb_gt in E. symmetry. apply Z.ltb_lt. exact E.
  - intros now. split.
    + unfold checkGlobalStepBudget, resetStepBudget. simpl. rewrite Hc.
      destruct (stepBudget (config pe) <=? 0) eqn:E; simpl.
      * apply Z.leb_le in E. symmetry. apply Z.ltb_ge. exact E.
      * apply Z.leb_gt in E. symmetry. apply Z.ltb_lt. exact E.
    + intros at_ domain. unfold checkStepBudget, resetStepBudget. simpl.
      rewrite lookup_empty. reflexivity.
Qed.

End StepBudgets.

Section EngineHousekeeping.
Import PolicyEngine.

(** X9. The minimum interval between tool calls. A call of
    [checkRateLimit] that is refused changes nothing: it is neither timed
    nor counted. A call that is allowed is timed and counted, and every
    call less than 100 ms after it is refused with "too many rapid tool
    calls", whatever the identifier. *)
Theorem rapid_calls_are_refused :
  forall now nowCheck nowRecord identifier pe,
    let first := checkRateLimit now nowCheck nowRecord identifier pe in
    (allowed (fst first) = false -> snd first = pe)
    /\ (allowed (fst first) = true ->
        lastToolCallTime (snd first) = now
        /\ rateLimiter (snd first)
           = RateLimiter.recordRequest nowRecord identifier (rateLimiter pe)
        /\ forall now' nowCheck' nowRecord' identifier',
            now' - now < 100 ->
            checkRateLimit now' nowCheck' nowRecord' identifier' (snd first)
            = (deny "Rate limit exceeded - too many rapid tool calls"
                    [("rateLimited", VBool true); ("minInterval", VNum 100)],
               snd first)).
Proof.
  intros now nowCheck nowRecord identifier pe first. subst first.
  destruct (checkRateLimit now nowCheck nowRecord identifier pe) as [decision pe1] eqn:E.
  unfold checkRateLimit in E. cbv zeta in E. cbn [fst snd].
  destruct (now - lastToolCallTime pe <? 100).
  { injection E as <- <-. split; [reflexivity | discriminate]. }
  destruct (negb (RateLimiter.allowed _)).
  { injection E as <- <-. split; [reflexivity | discriminate]. }
  injection E as <- <-. split; [discriminate|]. intros _.
  split; [reflexivity|]. split; [reflexivity|].
  intros now' nowCheck' nowRecord' identifier' Hrapid.
  unfold checkRateLimit. cbv zeta. cbn [lastToolCallTime].
  apply Z.ltb_lt in Hrapid. rewrite Hrapid. reflexivity.
Qed.

(** X10. [resetFailureCounts] clears the rate limiter's consecutive-failure
    counts and every [..._failures] entry of the engine's own map, and
    nothing else of that map; with a threshold of at least 1,
    [checkFailureThreshold] then allows every tool. *)
Theorem resetFailureCounts_clears :
  forall pe toolName,
    1 <= RateLimiter.maxConsecutiveFailures (rateLimiter pe) ->
    checkFailureThreshold toolName (resetFailureCounts pe) = allow
    /\ toolCallCounts (resetFailureCounts pe) !! failuresKey toolName = None
    /\ forall key, JsString.endsWith key "_failures" = false ->
                   toolCallCounts (resetFailureCounts pe) !! key = toolCallCounts pe !! key.
Proof.
  intros pe toolName Hmax. split; [|split].
  - unfold checkFailureThreshold, resetFailureCounts. simpl rateLimiter.
    rewrite (proj1 (reset_failures_allow toolName (rateLimiter pe) Hmax)). reflexivity.
  - unfold resetFailureCounts. simpl. apply map_lookup_filter_None_2.
    right. intros x _. simpl. unfold failuresKey. rewrite endsWith_append. discriminate.
  - intros key Hkey. unfold resetFailureCounts. simpl.
    destruct (toolCallCounts pe !! key) as [x|] eqn:E.
    + apply map_lookup_filter_Some_2; [exact E | exact Hkey].
    + apply map_lookup_filter_None_2. left. exact E.
Qed.



End EngineHousekeeping.

Lemma rapid_calls_are_refused_witness :
  allowed (fst (PolicyEngine.checkRateLimit 5000 5000 5000 "global" Scenario.engine)) = true
  /\ allowed (fst (PolicyEngine.checkRateLimit 5099 5099 5099 "global"
                     (snd (PolicyEngine.checkRateLimit 5000 5000 5000 "global"
                             Scenario.engine)))) = false.
Proof.
  assert (H : allowed (fst (PolicyEngine.checkRateLimit 5000 5000 5000 "global"
                              Scenario.engine)) = true) by (vm_compute; reflexivity).
  split; [exact H|].
  destruct (rapid_calls_are_refused 5000 5000 5000 "global" Scenario.engine) as [_ Hallowed].
  destruct (Hallowed H) as (_ & _ & Hnext).
  rewrite (Hnext 5099 5099 5099 "global"); [reflexivity | lia].
Defined.

Lemma resetFailureCounts_clears_witness :
  allowed (PolicyEngine.checkFailureThreshold "click"
             (PolicyEngine.recordFailures "click" Scenario.untaggedFailures Scenario.engine))
  = false
  /\ PolicyEngine.checkFailureThreshold "click"
       (PolicyEngine.resetFailureCounts
          (PolicyEngine.recordFailures "click" Scenario.untaggedFailures Scenario.engine))
     = PolicyEngine.allow.
Proof.
  split; [vm_compute; reflexivity|].
  apply resetFailureCounts_clears. vm_compute. discriminate.
Defined.

(** ** The default configuration *)

Section DefaultConfiguration.
Import PolicyEngine ConfigManager.

Lemma default_wildcards domain :
  firstWildcard (allowlist getDefaultConfiguration) domain
  = if JsString.endsWith domain "localhost" then Some localPolicy
    else if JsString.endsWith domain "bank" then Some approvalPolicy
    else if JsString.endsWith domain "banking" then Some approvalPolicy
    else None.
Proof. reflexivity. Qed.

(** X12. Under the default configuration, the hosts that may be written to
    are exactly [127.0.0.1], [httpbin.org] and those whose name ends in
    [localhost]; every other host is read-only or denied. *)
Theorem default_configuration_write_hosts :
  forall domain,
    write (getDomainPolicy getDefaultConfiguration domain) = true
    <-> (domain = "127.0.0.1" \/ domain = "httpbin.org"
         \/ JsString.endsWith domain "localhost" = true).
Proof.
  intros domain. unfold getDomainPolicy.
  change (allowlist getDefaultConfiguration)
    with [("localhost", localPolicy); ("127.0.0.1", localPolicy);
          ("*.localhost", localPolicy);
          ("github.com", readingPolicy); ("stackoverflow.com", readingPolicy);
          ("developer.mozilla.org", readingPolicy); ("docs.python.org", readingPolicy);
          ("nodejs.org", readingPolicy);
          ("example.com", readingPolicy); ("httpbin.org", localPolicy);
          ("*.bank", approvalPolicy); ("*.banking", approvalPolicy);
          ("paypal.com", approvalPolicy); ("stripe.com", approvalPolicy)] at 1.
  cbn [ownEntry].
  repeat match goal with
         | |- context [String.eqb ?k domain] =>
             destruct (String.eqb_spec k domain) as [<-|?];
             [vm_compute; split;
              [intros H; first [discriminate H | auto]
              | intros [H|[H|H]]; first [discriminate H | reflexivity]]|]
         end.
  destruct (existsb (String.eqb domain) objectPrototypeProperties) eqn:Eproto.
  - apply existsb_exists in Eproto. destruct Eproto as (x & Hin & Heq).
    apply String.eqb_eq in Heq. subst x.
    split; [discriminate|].
    intros [H|[H|H]]; [congruence | congruence|].
    exfalso. revert H. simpl in Hin.
    repeat (destruct Hin as [<-|Hin]; [vm_compute; discriminate|]). contradiction.
  - rewrite default_wildcards.
    destruct (JsString.endsWith domain "localhost").
    + split; [auto | reflexivity].
    + assert (Hno : ~ (domain = "127.0.0.1" \/ domain = "httpbin.org" \/ false = true)).
      { intros [H|[H|H]]; [congruence | congruence | discriminate]. }
      destruct (JsString.endsWith domain "bank");
        [|destruct (JsString.endsWith domain "banking")];
        (split; [discriminate | intros H; contradiction]).
Qed.

End DefaultConfiguration.

(** ** The command bridge: the life of a request *)

Section RequestLife.
Import WebSocketBridge.

Lemma touch_clients clientId now st k :
  JsMap.get (clients st) k <> None -> JsMap.get (clients (touch clientId now st)) k <> None.
Proof.
  unfold touch. destruct (JsMap.get (clients st) clientId) as [c|] eqn:E; [|auto].
  simpl. intros H. destruct (string_dec clientId k) as [->|Hne].
  - rewrite JsMap_get_set_eq. discriminate.
  - rewrite JsMap_get_set_ne by exact Hne. exact H.
Qed.

(** What [sendCommand] leaves when the message went out. *)
Lemma sendCommand_sent messageId nowMessage nowRequest cmd payload_ st cid client others :
  clients st = (cid, client) :: others -> c_open client = true ->
  let st1 := snd (sendCommand messageId nowMessage nowRequest None cmd payload_ st) in
  fst (sendCommand messageId nowMessage nowRequest None cmd payload_ st)
  = Awaiting (nextHandle st)
  /\ clients st1 = clients st
  /\ pendingRequests st1
     = JsMap.set (pendingRequests st) messageId
         {| r_id := messageId; r_promise := nextHandle st; r_timestamp := nowRequest;
            r_timeoutId := nextHandle st |}
  /\ promises st1 = <[nextHandle st := Pending]> (promises st)
  /\ timers st1 = <[nextHandle st := messageId]> (timers st)
  /\ outbox st1
     = (outbox st ++ [(c_id client, {| m_id := messageId; m_cmd := cmd;
                                       m_payload := payload_;
                                       m_timestamp := nowMessage |})])%list.
Proof.
  intros Hclients Hopen. unfold sendCommand. rewrite Hclients. cbv zeta.
  rewrite Hopen. simpl. auto 10.
Qed.

(** X13. The round trip of a command. When the first client's socket is
    open and the message goes out, [sendCommand] writes the message to
    that client, with the id it registered the request under, and the
    request's promise (the one that [resolve] and [reject] settle) is
    pending. When a response that replies to this id arrives from any
    connected client, the pending entry is removed, the timer disarmed and
    that promise settled: rejected with the error of the response if it
    has one (a non-empty one), fulfilled with its payload otherwise. The
    caller of [sendCommand] awaits the [then]/[catch] chain on that
    promise: it receives a failure result with the error and the command's
    name in the first case; in the second the payload itself when that is
    an object with a [success] property, and the payload wrapped as the
    [data] of a success result when it is not. *)
Theorem response_settles_request :
  forall messageId nowMessage nowRequest cmd payload_ st cid client others
         clientId response now nowThen,
    clients st = (cid, client) :: others ->
    c_open client = true ->
    JsMap.get (clients st) clientId <> None ->
    replyTo response = messageId ->
    let sent := sendCommand messageId nowMessage nowRequest None cmd payload_ st in
    let st' := handleResponse clientId response now (snd sent) in
    let wrapped :=
      VObj [("success", VBool true); ("data", payload response);
            ("metadata", VObj [("timestamp", VNum nowThen)])] in
    let delivered :=
      match payload response with
      | VObj props => if Js.hasOwn props "success" then payload response else wrapped
      | _ => wrapped
      end in
    fst sent = Awaiting (nextHandle st)
    /\ outbox (snd sent)
       = (outbox st ++ [(c_id client, {| m_id := messageId; m_cmd := cmd;
                                         m_payload := payload_;
                                         m_timestamp := nowMessage |})])%list
    /\ promises (snd sent) !! nextHandle st = Some Pending
    /\ promises st' !! nextHandle st
       = Some (match error response with
               | Some e => if JsString.truthy e then Rejected e
                           else Fulfilled (payload response)
               | None => Fulfilled (payload response)
               end)
    /\ JsMap.get (pendingRequests st') messageId = None
    /\ timers st' !! nextHandle st = None
    /\ (promises st' !! nextHandle st) ≫= toToolResponse cmd nowThen
       = Some (match error response with
               | Some e =>
                   if JsString.truthy e
                   then VObj [("success", VBool false); ("error", VStr e);
                              ("metadata", VObj [("tool", VStr cmd);
                                                 ("timestamp", VNum nowThen)])]
                   else delivered
               | None => delivered
               end).
Proof.
  intros messageId nowMessage nowRequest cmd payload_ st cid client others
         clientId response now nowThen Hclients Hopen Hclient Hreply sent st'
         wrapped delivered.
  destruct (sendCommand_sent messageId nowMessage nowRequest cmd payload_ st cid client
              others Hclients Hopen) as (Hfst & Hcl & Hpend & Hprom & Htim & Hout).
  fold sent in Hfst, Hcl, Hpend, Hprom, Htim, Hout.
  split; [exact Hfst|]. split; [exact Hout|].
  split; [rewrite Hprom; apply lookup_insert_eq|].
  assert (Hsettled :
            promises st' !! nextHandle st
            = Some (match error response with
                    | Some e => if JsString.truthy e then Rejected e
                                else Fulfilled (payload response)
                    | None => Fulfilled (payload response)
                    end)
            /\ JsMap.get (pendingRequests st') messageId = None
            /\ timers st' !! nextHandle st = None).
  { subst st'. unfold handleResponse.
    rewrite <- Hcl in Hclient.
    destruct (JsMap.get (clients (snd sent)) clientId) as [c|] eqn:Ec; [|contradiction].
    destruct (touch_keeps (snd sent) clientId now) as (Tp & Tq & Tt).
    rewrite Tp, Hpend, Hreply, JsMap_get_set_eq. cbn [r_timeoutId r_promise].
    set (st2 := deletePending messageId (clearTimeout (nextHandle st)
                                           (touch clientId now (snd sent)))).
    assert (Hp2 : promises st2 !! nextHandle st = Some Pending).
    { subst st2. simpl. rewrite Tq, Hprom. apply lookup_insert_eq. }
    assert (Hsettle : forall o,
               promises (settle (nextHandle st) o st2) !! nextHandle st = Some o
               /\ JsMap.get (pendingRequests (settle (nextHandle st) o st2)) messageId
                  = None
               /\ timers (settle (nextHandle st) o st2) !! nextHandle st = None).
    { intros o. unfold settle. rewrite Hp2. simpl.
      rewrite lookup_insert_eq, JsMap_get_delete_eq, lookup_delete_eq. auto. }
    destruct (error response) as [e|]; [destruct (JsString.truthy e)|]; apply Hsettle. }
  destruct Hsettled as (Hpromise & Hgone & Hdisarmed).
  split; [exact Hpromise|]. split; [exact Hgone|]. split; [exact Hdisarmed|].
  rewrite Hpromise. cbn [mbind option_bind].
  assert (Hdelivered : toToolResponse cmd nowThen (Fulfilled (payload response))
                       = Some delivered).
  { subst delivered wrapped. unfold toToolResponse, Js.hasOwn.
    destruct (payload response); reflexivity. }
  destruct (error response) as [e|]; [destruct (JsString.truthy e)|];
    [reflexivity | exact Hdelivered | exact Hdelivered].
Qed.

(** X14. A command whose message went out and that gets no response: when
    its timer fires the promise is rejected with "Request timeout after
    30000ms", the pending entry is removed, and what the caller of
    [sendCommand] receives is a failure result with that error and the
    command's name. *)
Theorem timeout_rejects_request :
  forall messageId nowMessage nowRequest cmd payload_ st cid client others now,
    clients st = (cid, client) :: others ->
    c_open client = true ->
    let sent := sendCommand messageId nowMessage nowRequest None cmd payload_ st in
    let st' := onTimeout (nextHandle st) (snd sent) in
    promises st' !! nextHandle st = Some (Rejected "Request timeout after 30000ms")
    /\ JsMap.get (pendingRequests st') messageId = None
    /\ timers st' !! nextHandle st = None
    /\ toToolResponse cmd now (Rejected "Request timeout after 30000ms")
       = Some (VObj [("success", VBool false);
                     ("error", VStr "Request timeout after 30000ms");
                     ("metadata", VObj [("tool", VStr cmd); ("timestamp", VNum now)])]).
Proof.
  intros messageId nowMessage nowRequest cmd payload_ st cid client others now
         Hclients Hopen sent st'.
  destruct (sendCommand_sent messageId nowMessage nowRequest cmd payload_ st cid client
              others Hclients Hopen) as (_ & _ & Hpend & Hprom & Htim & _).
  fold sent in Hpend, Hprom, Htim.
  subst st'. unfold onTimeout. rewrite Htim, lookup_insert_eq.
  unfold settle. simpl promises. rewrite Hprom, lookup_insert_eq. simpl.
  rewrite lookup_insert_eq, JsMap_get_delete_eq, lookup_delete_eq. auto.
Qed.

(** X15. A command that cannot be sent, because the socket of the first
    client is not open or because [send] throws, is given up at once:
    when [sendCommand] returns, the request's promise is already rejected
    with the reason, no pending entry and no timer are left for it, and
    nothing was written to any socket. A later client that is open is not
    tried. The caller, who awaits the [then]/[catch] chain, receives a
    failure result with that reason and the command's name. *)
Theorem failed_send_is_given_up :
  forall messageId nowMessage nowRequest sendError cmd payload_ st cid client others
         nowThen,
    clients st = (cid, client) :: others ->
    c_open client = false \/ sendError <> None ->
    let sent := sendCommand messageId nowMessage nowRequest sendError cmd payload_ st in
    let why := if c_open client then default "" sendError
               else "WebSocket connection not open" in
    fst sent = Awaiting (nextHandle st)
    /\ promises (snd sent) !! nextHandle st = Some (Rejected why)
    /\ JsMap.get (pendingRequests (snd sent)) messageId = None
    /\ timers (snd sent) !! nextHandle st = None
    /\ outbox (snd sent) = outbox st
    /\ (promises (snd sent) !! nextHandle st) ≫= toToolResponse cmd nowThen
       = Some (VObj [("success", VBool false); ("error", VStr why);
                     ("metadata", VObj [("tool", VStr cmd);
                                        ("timestamp", VNum nowThen)])]).
Proof.
  intros messageId nowMessage nowRequest sendError cmd payload_ st cid client others
         nowThen Hclients Hfail sent why.
  subst sent. unfold sendCommand. rewrite Hclients. cbv zeta. cbn [fst snd].
  split; [reflexivity|].
  match goal with
  | |- context [clearTimeout _ ?s] => set (st1 := s)
  end.
  assert (Hgiven : forall message,
             let st' := settle (nextHandle st) (Rejected message)
                          (deletePending messageId (clearTimeout (nextHandle st) st1)) in
             promises st' !! nextHandle st = Some (Rejected message)
             /\ JsMap.get (pendingRequests st') messageId = None
             /\ timers st' !! nextHandle st = None
             /\ outbox st' = outbox st
             /\ (promises st' !! nextHandle st) ≫= toToolResponse cmd nowThen
                = Some (VObj [("success", VBool false); ("error", VStr message);
                              ("metadata", VObj [("tool", VStr cmd);
                                                 ("timestamp", VNum nowThen)])])).
  { intros message st'.
    assert (Hrejected : promises st' !! nextHandle st = Some (Rejected message)).
    { subst st'. unfold settle. subst st1. simpl.
      rewrite lookup_insert_eq. simpl. rewrite lookup_insert_eq. reflexivity. }
    split; [exact Hrejected|]. rewrite Hrejected.
    subst st'. unfold settle. subst st1. simpl.
    rewrite lookup_insert_eq. simpl.
    rewrite JsMap_get_delete_eq, lookup_delete_eq. auto. }
  subst why. destruct (c_open client).
  - destruct Hfail as [Hfail|Hfail]; [discriminate|].
    destruct sendError as [e|]; [|contradiction]. apply Hgiven.
  - apply Hgiven.
Qed.

End RequestLife.

(** ** The command bridge: what holds of every run *)

Section PendingBookkeeping.
Import WebSocketBridge.

Lemma settle_settled q o st p s :
  promises st !! p = Some s -> s <> Pending ->
  promises (settle q o st) !! p = Some s.
Proof.
  intros H Hs. unfold settle.
  destruct (promises st !! q) as [[]|] eqn:E; simpl; try exact H.
  rewrite lookup_insert_ne; [exact H|]. intros Heq. rewrite Heq in E. congruence.
Qed.

Lemma forEachPending_settled body :
  (forall r st p s, promises st !! p = Some s -> s <> Pending ->
                    promises (body r st) !! p = Some s) ->
  forall todo st p s,
    promises st !! p = Some s -> s <> Pending ->
    promises (forEachPending body todo st) !! p = Some s.
Proof.
  intros Hbody todo. induction todo as [|[key x] todo IH]; intros st p s H Hs; simpl;
    [exact H|].
  destruct (JsMap.get (pendingRequests st) key) as [r|]; apply IH; auto.
Qed.

Lemma expireIfStale_settled now r st p s :
  promises st !! p = Some s -> s <> Pending ->
  promises (expireIfStale now r st) !! p = Some s.
Proof.
  intros H Hs. unfold expireIfStale.
  destruct (requestTimeoutMs <? now - r_timestamp r); [|exact H].
  apply rejectRequest_settled; assumption.
Qed.

Lemma rejectOnShutdown_settled r st p s :
  promises st !! p = Some s -> s <> Pending ->
  promises (rejectOnShutdown r st) !! p = Some s.
Proof. intros H Hs. unfold rejectOnShutdown. apply settle_settled; assumption. Qed.

(** X16. The bookkeeping of pending requests. In every state the bridge
    can reach, each entry of [pendingRequests] sits under the id of its
    request, its promise is still unsettled, and its timer is armed and
    names that id. So whatever settles a request (its response, its
    timeout, a failed send, a disconnect, the cleanup of stale requests)
    has also removed its entry: no entry outlives its promise. *)
Theorem pending_request_is_unsettled :
  forall st k r,
    reachable st ->
    JsMap.get (pendingRequests st) k = Some r ->
    r_id r = k
    /\ promises st !! r_promise r = Some Pending
    /\ timers st !! r_timeoutId r = Some k.
Proof.
  intros st k r Hreach Hentry.
  destruct (reachable_wellFormed st Hreach) as [Hentries _].
  destruct (Hentries k r Hentry) as (Hid & Htimer & Harmed & Hpending).
  split; [exact Hid|]. split; [exact Hpending|].
  rewrite Htimer. exact Harmed.
Qed.

End PendingBookkeeping.

Section Shutdown.
Import WebSocketBridge.

Lemma rejectOnShutdown_pending todo st :
  pendingRequests (forEachPending rejectOnShutdown todo st) = pendingRequests st.
Proof.
  revert st. induction todo as [|[key x] todo IH]; intros st; simpl; [reflexivity|].
  destruct (JsMap.get (pendingRequests st) key) as [r|]; rewrite IH; [|reflexivity].
  unfold rejectOnShutdown.
  match goal with |- context [settle ?p ?o ?s] =>
    destruct (settle_fields p o s) as (Fp & _) end.
  rewrite Fp. reflexivity.
Qed.

Lemma rejectOnShutdown_timers todo st h :
  timers st !! h = None ->
  timers (forEachPending rejectOnShutdown todo st) !! h = None.
Proof.
  revert st. induction todo as [|[key x] todo IH]; intros st H; simpl; [exact H|].
  destruct (JsMap.get (pendingRequests st) key) as [r|]; apply IH; [|exact H].
  unfold rejectOnShutdown.
  match goal with |- context [settle ?p ?o ?s] =>
    destruct (settle_fields p o s) as (_ & Ft & _) end.
  rewrite Ft. simpl. destruct (decide (r_timeoutId r = h)) as [->|Hne].
  - apply lookup_delete_eq.
  - rewrite lookup_delete_ne by exact Hne. exact H.
Qed.

(** While the loop of [close] runs, each promise of a pending request is
    either still pending or rejected by the loop. *)
Lemma rejectOnShutdown_rejects todo st k r :
  (forall k' r', JsMap.get (pendingRequests st) k' = Some r' ->
                 promises st !! r_promise r' = Some Pending
                 \/ promises st !! r_promise r' = Some (Rejected "Server shutting down")) ->
  In k (JsMap.keys todo) ->
  JsMap.get (pendingRequests st) k = Some r ->
  promises (forEachPending rejectOnShutdown todo st) !! r_promise r
  = Some (Rejected "Server shutting down")
  /\ timers (forEachPending rejectOnShutdown todo st) !! r_timeoutId r = None.
Proof.
  revert st. induction todo as [|[key x] todo IH]; intros st Hq Hin Hget; simpl in *;
    [contradiction|].
  destruct (JsMap.get (pendingRequests st) key) as [r0|] eqn:E.
  - assert (Hpend1 : pendingRequests (rejectOnShutdown r0 st) = pendingRequests st).
    { unfold rejectOnShutdown.
      match goal with |- context [settle ?p ?o ?s] =>
        destruct (settle_fields p o s) as (Fp & _) end.
      rewrite Fp. reflexivity. }
    assert (Hq1 : forall k' r',
               JsMap.get (pendingRequests (rejectOnShutdown r0 st)) k' = Some r' ->
               promises (rejectOnShutdown r0 st) !! r_promise r' = Some Pending
               \/ promises (rejectOnShutdown r0 st) !! r_promise r'
                  = Some (Rejected "Server shutting down")).
    { intros k' r' Hk'. rewrite Hpend1 in Hk'.
      unfold rejectOnShutdown, settle. simpl.
      destruct (promises st !! r_promise r0) as [[]|] eqn:Ep; simpl;
        try (apply (Hq k' r' Hk')).
      destruct (decide (r_promise r0 = r_promise r')) as [Heq|Hne].
      - right. rewrite Heq. apply lookup_insert_eq.
      - rewrite lookup_insert_ne by exact Hne. apply (Hq k' r' Hk'). }
    destruct (string_dec key k) as [->|Hne].
    + assert (r0 = r) by congruence. subst r0. split.
      * apply (forEachPending_settled rejectOnShutdown);
          [intros; apply rejectOnShutdown_settled; assumption | | discriminate].
        unfold rejectOnShutdown, settle. simpl.
        destruct (Hq k r E) as [Hp|Hp]; rewrite Hp; simpl;
          [apply lookup_insert_eq | exact Hp].
      * apply rejectOnShutdown_timers. unfold rejectOnShutdown.
        match goal with |- context [settle ?p ?o ?s] =>
          destruct (settle_fields p o s) as (_ & Ft & _) end.
        rewrite Ft. simpl. apply lookup_delete_eq.
    + destruct Hin as [Heq|Hin]; [contradiction|].
      apply IH; [exact Hq1 | exact Hin | rewrite Hpend1; exact Hget].
  - destruct Hin as [<-|Hin]; [congruence|]. apply IH; assumption.
Qed.

(** X17. Shutdown. In every state the bridge can reach, [close] rejects
    the promise of every pending request with "Server shutting down" and
    disarms its timer, and leaves neither a pending request nor a client,
    as [getStatus] then reports; a command sent afterwards fails with "No
    extension clients connected". *)
Theorem shutdown_rejects_all_pending :
  forall st,
    reachable st ->
    pendingRequests (close st) = []
    /\ clients (close st) = []
    /\ getStatus (close st)
       = {| connected := false; clientCount := 0; pendingRequestCount := 0 |}
    /\ (forall k r, JsMap.get (pendingRequests st) k = Some r ->
          promises (close st) !! r_promise r = Some (Rejected "Server shutting down")
          /\ timers (close st) !! r_timeoutId r = None)
    /\ forall messageId nowMessage nowRequest sendError cmd payload_,
        sendCommand messageId nowMessage nowRequest sendError cmd payload_ (close st)
        = (Thrown "No extension clients connected", close st).
Proof.
  intros st Hreach. pose proof (reachable_wellFormed st Hreach) as Hwf.
  split; [reflexivity|]. split; [reflexivity|]. split; [reflexivity|].
  split; [|reflexivity].
  intros k r Hget. unfold close. simpl.
  apply (rejectOnShutdown_rejects (pendingRequests st) st k r).
  - intros k' r' Hk'. left. apply (proj1 Hwf k' r' Hk').
  - eapply JsMap_get_In; exact Hget.
  - exact Hget.
Qed.

End Shutdown.

Section StaleRequests.
Import WebSocketBridge.
Variable now : Z.

Local Abbreviation expireAll := (forEachPending (expireIfStale now)).

Lemma wellFormed_expireIfStale st k r :
  wellFormed st -> JsMap.get (pendingRequests st) k = Some r ->
  wellFormed (expireIfStale now r st).
Proof.
  intros Hwf Hget. unfold expireIfStale.
  destruct (requestTimeoutMs <? now - r_timestamp r); [|exact Hwf].
  eapply wellFormed_rejectRequest; eassumption.
Qed.

Lemma expireAll_absent todo st k :
  JsMap.get (pendingRequests st) k = None ->
  JsMap.get (pendingRequests (expireAll todo st)) k = None.
Proof.
  revert st. induction todo as [|[key x] todo IH]; intros st H; simpl; [exact H|].
  destruct (JsMap.get (pendingRequests st) key) as [r|]; apply IH; [|exact H].
  unfold expireIfStale. destruct (requestTimeoutMs <? now - r_timestamp r); [|exact H].
  rewrite rejectRequest_pending. apply JsMap_get_delete_None. exact H.
Qed.

Lemma expireAll_disarmed todo st h :
  timers st !! h = None -> timers (expireAll todo st) !! h = None.
Proof.
  revert st. induction todo as [|[key x] todo IH]; intros st H; simpl; [exact H|].
  destruct (JsMap.get (pendingRequests st) key) as [r|]; apply IH; [|exact H].
  unfold expireIfStale. destruct (requestTimeoutMs <? now - r_timestamp r); [|exact H].
  unfold rejectRequest.
  match goal with |- context [settle ?p ?o ?s] =>
    destruct (settle_fields p o s) as (_ & Ft & _) end.
  simpl. rewrite Ft. simpl. destruct (decide (r_timeoutId r = h)) as [->|Hne].
  - apply lookup_delete_eq.
  - rewrite lookup_delete_ne by exact Hne. exact H.
Qed.

(** A request that is not stale outlives the loop. *)
Lemma expireAll_keeps todo st k r :
  wellFormed st ->
  JsMap.get (pendingRequests st) k = Some r ->
  now - r_timestamp r <= requestTimeoutMs ->
  JsMap.get (pendingRequests (expireAll todo st)) k = Some r
  /\ wellFormed (expireAll todo st).
Proof.
  revert st. induction todo as [|[key x] todo IH]; intros st Hwf Hget Hfresh; simpl;
    [auto|].
  destruct (JsMap.get (pendingRequests st) key) as [r0|] eqn:E; [|apply IH; assumption].
  apply IH; [eapply wellFormed_expireIfStale; eassumption | | exact Hfresh].
  unfold expireIfStale.
  destruct (requestTimeoutMs <? now - r_timestamp r0) eqn:Estale; [|exact Hget].
  rewrite rejectRequest_pending. destruct (proj1 Hwf key r0 E) as (-> & _).
  rewrite JsMap_get_delete_ne; [exact Hget|].
  intros ->. assert (r0 = r) by congruence. subst r0.
  apply Z.ltb_lt in Estale. lia.
Qed.

(** A stale request that the loop comes to is rejected and removed. *)
Lemma expireAll_expires todo st k r :
  wellFormed st -> In k (JsMap.keys todo) ->
  JsMap.get (pendingRequests st) k = Some r ->
  requestTimeoutMs < now - r_timestamp r ->
  JsMap.get (pendingRequests (expireAll todo st)) k = None
  /\ promises (expireAll todo st) !! r_promise r = Some (Rejected "Request expired")
  /\ timers (expireAll todo st) !! r_timeoutId r = None.
Proof.
  revert st. induction todo as [|[key x] todo IH]; intros st Hwf Hin Hget Hstale;
    simpl in *; [contradiction|].
  destruct (JsMap.get (pendingRequests st) key) as [r0|] eqn:E.
  - destruct (proj1 Hwf key r0 E) as (Hid & _ & _ & Hpend).
    destruct (string_dec key k) as [->|Hne].
    + assert (r0 = r) by congruence. subst r0.
      assert (Hnow : expireIfStale now r st = rejectRequest "Request expired" r st).
      { unfold expireIfStale. apply Z.ltb_lt in Hstale. rewrite Hstale. reflexivity. }
      rewrite Hnow. split; [|split].
      * apply expireAll_absent. rewrite rejectRequest_pending, Hid.
        apply JsMap_get_delete_eq.
      * apply (forEachPending_settled (expireIfStale now));
          [intros; apply expireIfStale_settled; assumption | | discriminate].
        rewrite rejectRequest_promises by exact Hpend. apply lookup_insert_eq.
      * apply expireAll_disarmed. unfold rejectRequest.
        match goal with |- context [settle ?p ?o ?s] =>
          destruct (settle_fields p o s) as (_ & Ft & _) end.
        simpl. rewrite Ft. simpl. apply lookup_delete_eq.
    + destruct Hin as [Heq|Hin]; [contradiction|].
      apply IH; [eapply wellFormed_expireIfStale; eassumption | exact Hin | | exact Hstale].
      unfold expireIfStale.
      destruct (requestTimeoutMs <? now - r_timestamp r0); [|exact Hget].
      rewrite rejectRequest_pending, Hid. rewrite JsMap_get_delete_ne; assumption.
  - destruct Hin as [<-|Hin]; [congruence|]. apply IH; assumption.
Qed.

(** X18. The periodic cleanup of the bridge. In every state the bridge can
    reach, [cleanupStaleRequests] rejects with "Request expired" exactly
    the pending requests that are older than 30000 ms, removes them and
    disarms their timers; every younger request stays pending as it was:
    its entry, its unsettled promise and its armed timer are kept. *)
Theorem stale_requests_expire :
  forall st k r,
    reachable st ->
    JsMap.get (pendingRequests st) k = Some r ->
    let st' := cleanupStaleRequests now st in
    (requestTimeoutMs < now - r_timestamp r ->
       JsMap.get (pendingRequests st') k = None
       /\ promises st' !! r_promise r = Some (Rejected "Request expired")
       /\ timers st' !! r_timeoutId r = None)
    /\ (now - r_timestamp r <= requestTimeoutMs ->
          JsMap.get (pendingRequests st') k = Some r
          /\ promises st' !! r_promise r = Some Pending
          /\ timers st' !! r_timeoutId r = Some k).
Proof.
  intros st k r Hreach Hget st'. pose proof (reachable_wellFormed st Hreach) as Hwf.
  subst st'. unfold cleanupStaleRequests.
  change (forEachPending _ (pendingRequests st) st)
    with (expireAll (pendingRequests st) st).
  split.
  - intros Hstale. apply expireAll_expires; try assumption.
    eapply JsMap_get_In; exact Hget.
  - intros Hfresh.
    destruct (expireAll_keeps (pendingRequests st) st k r Hwf Hget Hfresh) as [Hkept Hwf'].
    destruct (proj1 Hwf' k r Hkept) as (_ & Htid & Htimer & Hpend).
    split; [exact Hkept|]. split; [exact Hpend|]. rewrite Htid. exact Htimer.
Qed.

End StaleRequests.

(** ** The dispatcher: which calls run, and what each call costs *)

Section CallCost.
Import MCPToolRegistry.

(** What a call reads of the engine beyond the rate limiter. *)
Lemma checkStepBudget_frame now domain pe :
  PolicyEngine.globalStepCount (snd (PolicyEngine.checkStepBudget now domain pe))
  = PolicyEngine.globalStepCount pe
  /\ PolicyEngine.config (snd (PolicyEngine.checkStepBudget now domain pe))
     = PolicyEngine.config pe.
Proof.
  unfold PolicyEngine.checkStepBudget.
  destruct (PolicyEngine.stepCounts pe !! domain) as [sd|]; [|auto].
  destruct (PolicyEngine.hourMs <? now - PolicyEngine.resetTime sd); auto.
Qed.

Lemma checkDomainPolicy_frame pf now url op pe :
  PolicyEngine.globalStepCount (snd (PolicyEngine.checkDomainPolicy pf now url op pe))
  = PolicyEngine.globalStepCount pe
  /\ PolicyEngine.config (snd (PolicyEngine.checkDomainPolicy pf now url op pe))
     = PolicyEngine.config pe.
Proof.
  unfold PolicyEngine.checkDomainPolicy.
  destruct (URL_hostname pf url) as [hostname|message]; [|auto].
  destruct (find _ RESTRICTED_DOMAINS); [auto|].
  destruct (negb _); [auto|].
  pose proof (checkStepBudget_frame now (JsString.toLowerCase hostname) pe) as H.
  destruct (PolicyEngine.checkStepBudget now (JsString.toLowerCase hostname) pe)
    as [exceeded pe'].
  destruct exceeded; exact H.
Qed.

Lemma checkSensitiveData_frame toolName args url pe :
  PolicyEngine.globalStepCount (snd (PolicyEngine.checkSensitiveData toolName args url pe))
  = PolicyEngine.globalStepCount pe
  /\ PolicyEngine.config (snd (PolicyEngine.checkSensitiveData toolName args url pe))
     = PolicyEngine.config pe.
Proof.
  unfold PolicyEngine.checkSensitiveData.
  destruct (DataRedactor.isSensitiveAction _ _ _ _) as [[chk|v] d']; auto.
Qed.

Local Ltac whatever_the_flags :=
  repeat match goal with
         | |- context [if ?b then _ else _] => destruct b
         end;
  auto.

Lemma dispatch_frame pf rd tool args w :
  PolicyEngine.globalStepCount
    (policyEngine (snd (executeToolWithPolicy_dispatch pf rd tool args w)))
  = PolicyEngine.globalStepCount (policyEngine w)
  /\ PolicyEngine.config
       (policyEngine (snd (executeToolWithPolicy_dispatch pf rd tool args w)))
     = PolicyEngine.config (policyEngine w).
Proof.
  unfold executeToolWithPolicy_dispatch.
  set (url := match extractUrlFromArgs args with
              | Some u => if JsString.truthy u then Some u else None
              | None => None
              end).
  destruct url as [u|].
  - pose proof (checkDomainPolicy_frame pf (at_domainPolicy rd) u
                  (getToolOperation (name tool)) (policyEngine w)) as [Hd1 Hd2].
    destruct (PolicyEngine.checkDomainPolicy _ _ _ _ _) as [decision pe1].
    simpl in Hd1, Hd2.
    destruct (negb (allowed decision)); [auto|].
    pose proof (checkSensitiveData_frame (name tool) args (Some u) pe1) as [Hs1 Hs2].
    destruct (needsApproval decision); simpl;
      destruct (PolicyEngine.checkSensitiveData _ _ _ _) as [[sd|v] pe2];
      simpl in Hs1, Hs2; try (simpl; split; congruence);
      rewrite <- Hd1, <- Hd2, <- Hs1, <- Hs2;
      destruct (needsApproval sd); whatever_the_flags.
  - pose proof (checkSensitiveData_frame (name tool) args None (policyEngine w))
      as [Hs1 Hs2].
    destruct (PolicyEngine.checkSensitiveData _ _ _ _) as [[sd|v] pe2];
      simpl in Hs1, Hs2; [|auto].
    rewrite <- Hs1, <- Hs2.
    destruct (needsApproval sd); whatever_the_flags.
Qed.

Lemma return_frame rd tool args outcome w :
  PolicyEngine.globalStepCount
    (policyEngine (snd (executeToolWithPolicy_return rd tool args outcome w)))
  = PolicyEngine.globalStepCount (policyEngine w)
  /\ PolicyEngine.config
       (policyEngine (snd (executeToolWithPolicy_return rd tool args outcome w)))
     = PolicyEngine.config (policyEngine w).
Proof.
  unfold executeToolWithPolicy_return. destruct outcome as [result|message]; [|auto].
  unfold PolicyEngine.createRedactedLogEntry.
  destruct (DataRedactor.createRedactedLogEntry _ _ _ _ _ _). auto.
Qed.

Lemma record_frame pf rd toolName validatedArgs requestId outcome w :
  PolicyEngine.globalStepCount
    (policyEngine (snd (executeTool_record pf rd toolName validatedArgs requestId
                          outcome w)))
  = PolicyEngine.globalStepCount (policyEngine w) + 1.
Proof.
  unfold executeTool_record. simpl snd. simpl policyEngine.
  apply recordToolExecution_fields.
Qed.

Lemma checkRateLimit_frame a b c identifier pe :
  PolicyEngine.globalStepCount (snd (PolicyEngine.checkRateLimit a b c identifier pe))
  = PolicyEngine.globalStepCount pe.
Proof.
  unfold PolicyEngine.checkRateLimit.
  destruct (a - PolicyEngine.lastToolCallTime pe <? 100); [reflexivity|].
  destruct (negb _); reflexivity.
Qed.

(** The first segment: it ends the call without a step unless the call is
    admitted; for an admitted call it either starts the request, without a
    step yet, or ends it on invalid input, with one. *)
Lemma checks_cost pf tools rd toolName args w :
  match fst (executeTool_checks pf tools rd toolName args w) with
  | Done _ =>
      PolicyEngine.globalStepCount
        (policyEngine (snd (executeTool_checks pf tools rd toolName args w)))
      = PolicyEngine.globalStepCount (policyEngine w)
        + (if admitted tools rd toolName w then 1 else 0)
  | Started _ _ _ =>
      admitted tools rd toolName w = true
      /\ PolicyEngine.globalStepCount
           (policyEngine (snd (executeTool_checks pf tools rd toolName args w)))
         = PolicyEngine.globalStepCount (policyEngine w)
  end.
Proof.
  unfold executeTool_checks, admitted.
  destruct (getTool tools toolName) as [tool|]; [|simpl; lia].
  destruct (allowed (PolicyEngine.checkGlobalStepBudget (policyEngine w)));
    [|simpl; lia].
  simpl negb. cbv iota.
  pose proof (checkRateLimit_frame (at_rateLimit rd) (at_limiterCheck rd)
                (at_limiterRecord rd) "global" (policyEngine w)) as Hrate.
  destruct (PolicyEngine.checkRateLimit _ _ _ _ _) as [rate pe1]. simpl in Hrate.
  destruct (allowed rate); [|simpl; lia].
  simpl negb. cbv iota.
  destruct (allowed (PolicyEngine.checkFailureThreshold toolName pe1)); [|simpl; lia].
  simpl negb. cbv iota.
  destruct (inputSchema tool args) as [validatedArgs|issues];
    cbn [fst snd policyEngine with_engine andb].
  - split; [reflexivity | exact Hrate].
  - rewrite (proj1 (proj2 (recordToolExecution_fields _ _ _ _ _ _))). lia.
Qed.

(** X20. What a call costs. A call of [executeTool] takes exactly one step
    of the global budget when it is admitted (the tool is registered and
    the step-budget, rate-limit and failure-threshold stages allow),
    however it ends: with the handler's result, with an error thrown by
    the handler or before it is called, refused by the domain policy, or
    on invalid input. A call that is not admitted takes none. *)
Theorem admitted_call_takes_one_step :
  forall pf tools rd handler toolName args w,
    PolicyEngine.globalStepCount
      (policyEngine (snd (executeTool pf tools rd handler toolName args w)))
    = PolicyEngine.globalStepCount (policyEngine w)
      + (if admitted tools rd toolName w then 1 else 0).
Proof.
  intros pf tools rd handler toolName args w. unfold executeTool.
  pose proof (checks_cost pf tools rd toolName args w) as Hchecks.
  destruct (executeTool_checks pf tools rd toolName args w) as [[response|tool va rid] w1];
    simpl in Hchecks; [exact Hchecks|].
  destruct Hchecks as [-> Hw1].
  pose proof (dispatch_frame pf rd tool va w1) as [Hd _].
  destruct (executeToolWithPolicy_dispatch pf rd tool va w1)
    as [[response|message|cmd hargs] w2]; simpl in Hd.
  - rewrite record_frame. lia.
  - rewrite record_frame. lia.
  - pose proof (return_frame rd tool va (handler cmd hargs) w2) as [Hr _].
    destruct (executeToolWithPolicy_return rd tool va (handler cmd hargs) w2)
      as [outcome w3]. simpl in Hr.
    rewrite record_frame. lia.
Qed.

(** X21. Once the global step budget is used up, every call of
    [executeTool] is refused: it returns a failure result, calls no
    handler and leaves the policy engine and the console exactly as they
    were, so that only [resetStepBudget] lets calls through again. *)
Theorem exhausted_budget_refuses_every_call :
  forall pf tools rd handler toolName args w,
    stepBudget (PolicyEngine.config (policyEngine w))
    <= PolicyEngine.globalStepCount (policyEngine w) ->
    snd (executeTool pf tools rd handler toolName args w) = w
    /\ Js.get (fst (executeTool pf tools rd handler toolName args w)) "success"
       = VBool false
    /\ (getTool tools toolName <> None ->
        Js.get (fst (executeTool pf tools rd handler toolName args w)) "error"
        = VStr ("Global step budget exceeded: "
                ++ JsString.of_Z (PolicyEngine.globalStepCount (policyEngine w)) ++ "/"
                ++ JsString.of_Z (stepBudget (PolicyEngine.config (policyEngine w))))).
Proof.
  intros pf tools rd handler toolName args w Hused.
  unfold executeTool, executeTool_checks.
  destruct (getTool tools toolName) as [tool|];
    [|split; [reflexivity|]; split; [reflexivity | intros H; contradiction]].
  unfold PolicyEngine.checkGlobalStepBudget.
  apply Z.leb_le in Hused. rewrite Hused.
  split; [reflexivity|]. split; [reflexivity|]. intros _. reflexivity.
Qed.

End CallCost.

Section CallOutcomes.
Import MCPToolRegistry.

(** What is known of a call that the first segment started. *)
Lemma checks_started pf tools rd toolName args w tool validatedArgs requestId w1 :
  executeTool_checks pf tools rd toolName args w
  = (Started tool validatedArgs requestId, w1) ->
  getTool tools toolName = Some tool
  /\ admitted tools rd toolName w = true
  /\ inputSchema tool args = Parsed validatedArgs
  /\ requestId = toolName ++ "_" ++ JsString.of_Z (at_requestId rd) ++ "_" ++ randomSuffix rd
  /\ console w1 = console w
  /\ policyEngine w1
     = PolicyEngine.startToolRequest (at_startRequest rd) requestId
         (snd (PolicyEngine.checkRateLimit (at_rateLimit rd) (at_limiterCheck rd)
                 (at_limiterRecord rd) "global" (policyEngine w))).
Proof.
  unfold executeTool_checks, admitted.
  destruct (getTool tools toolName) as [tool'|]; [|discriminate].
  destruct (allowed (PolicyEngine.checkGlobalStepBudget (policyEngine w)));
    [|discriminate].
  simpl negb. cbv iota.
  destruct (PolicyEngine.checkRateLimit _ _ _ _ _) as [rate pe1].
  destruct (allowed rate); [|discriminate].
  simpl negb. cbv iota.
  destruct (allowed (PolicyEngine.checkFailureThreshold toolName pe1)); [|discriminate].
  simpl negb. cbv iota.
  destruct (inputSchema tool' args) as [va|issues] eqn:Hparse; [|discriminate].
  intros H. injection H as <- <- <- <-. rewrite Hparse. auto 10.
Qed.

(** X22. A call whose URL the domain policy denies never reaches the
    handler: whatever the handler would do, [executeTool] returns the
    failure made from the decision (its reason, and the domain it names),
    marked [policyViolation], and ends in the same state. *)
Theorem denied_domain_skips_handler :
  forall pf tools rd handler toolName args w tool validatedArgs requestId w1 url,
    executeTool_checks pf tools rd toolName args w
    = (Started tool validatedArgs requestId, w1) ->
    extractUrlFromArgs validatedArgs = Some url ->
    JsString.truthy url = true ->
    let decision :=
      fst (PolicyEngine.checkDomainPolicy pf (at_domainPolicy rd) url
             (getToolOperation toolName) (policyEngine w1)) in
    allowed decision = false ->
    fst (executeTool pf tools rd handler toolName args w)
    = failure (reasonOr (reason decision) "Domain policy violation")
              [("tool", VStr toolName); ("timestamp", VNum (at_result rd));
               ("policyViolation", VBool true);
               ("domain", Js.get (default [] (metadata decision)) "domain")]
    /\ forall handler',
        executeTool pf tools rd handler' toolName args w
        = executeTool pf tools rd handler toolName args w.
Proof.
  intros pf tools rd handler toolName args w tool validatedArgs requestId w1 url
         Hchecks Hurl Htruthy decision Hdenied.
  destruct (checks_started _ _ _ _ _ _ _ _ _ _ Hchecks) as (Htool & _).
  apply getTool_name in Htool.
  assert (Hdispatch : exists w2,
             executeToolWithPolicy_dispatch pf rd tool validatedArgs w1
             = (Refused (failure (reasonOr (reason decision) "Domain policy violation")
                           [("tool", VStr toolName); ("timestamp", VNum (at_result rd));
                            ("policyViolation", VBool true);
                            ("domain", Js.get (default [] (metadata decision)) "domain")]),
                w2)).
  { unfold executeToolWithPolicy_dispatch. rewrite Hurl, Htruthy, Htool.
    subst decision.
    destruct (PolicyEngine.checkDomainPolicy pf (at_domainPolicy rd) url
                (getToolOperation toolName) (policyEngine w1)) as [dec pe1].
    simpl in Hdenied |- *. rewrite Hdenied. simpl. eauto. }
  destruct Hdispatch as [w2 Hdispatch].
  split.
  - unfold executeTool. rewrite Hchecks, Hdispatch. reflexivity.
  - intros handler'. unfold executeTool. rewrite Hchecks, Hdispatch. reflexivity.
Qed.

(** X23. Invalid input. When an admitted call's arguments fail the tool's
    schema, [executeTool] returns the failure "Invalid input: ..." that
    lists each issue as [path: message], marked [validationError], and
    calls no handler: the outcome is the same whatever the handler is. *)
Theorem invalid_input_is_refused :
  forall pf tools rd handler toolName args w tool issues,
    getTool tools toolName = Some tool ->
    admitted tools rd toolName w = true ->
    inputSchema tool args = ZodError issues ->
    fst (executeTool pf tools rd handler toolName args w)
    = failure ("Invalid input: "
               ++ String.concat ", " (map (fun i => fst i ++ ": " ++ snd i) issues))
              [("tool", VStr toolName); ("timestamp", VNum (at_result rd));
               ("validationError", VBool true)]
    /\ forall handler',
        executeTool pf tools rd handler' toolName args w
        = executeTool pf tools rd handler toolName args w.
Proof.
  intros pf tools rd handler toolName args w tool issues Htool Hadmitted Hparse.
  unfold admitted in Hadmitted. rewrite Htool in Hadmitted.
  apply andb_true_iff in Hadmitted. destruct Hadmitted as [Hbudget Hrest].
  assert (Hchecks : exists pe2,
             executeTool_checks pf tools rd toolName args w
             = (Done (failure
                        ("Invalid input: "
                         ++ String.concat ", "
                              (map (fun i => fst i ++ ": " ++ snd i) issues))
                        [("tool", VStr toolName); ("timestamp", VNum (at_result rd));
                         ("validationError", VBool true)]),
                with_engine w pe2)).
  { unfold executeTool_checks. rewrite Htool, Hbudget. simpl negb. cbv iota.
    destruct (PolicyEngine.checkRateLimit _ _ _ _ _) as [rate pe1].
    apply andb_true_iff in Hrest. destruct Hrest as [Hrate Hfail].
    rewrite Hrate, Hfail, Hparse. simpl negb. cbv iota.
    eexists. reflexivity. }
  destruct Hchecks as (pe2 & Hchecks).
  unfold executeTool. rewrite Hchecks. split; reflexivity.
Qed.

(** Whatever is tracked after a call was tracked before it. *)
Lemma tracked_after_was_tracked :
  forall pf tools rd handler toolName args w requestId r,
    RateLimiter.activeRequests
      (PolicyEngine.rateLimiter
         (policyEngine (snd (executeTool pf tools rd handler toolName args w))))
      !! requestId = Some r ->
    RateLimiter.activeRequests (PolicyEngine.rateLimiter (policyEngine w)) !! requestId
    = Some r.
Proof.
  intros pf tools rd handler toolName args w requestId r.
  assert (Hrate : RateLimiter.activeRequests
                    (PolicyEngine.rateLimiter
                       (snd (PolicyEngine.checkRateLimit (at_rateLimit rd)
                               (at_limiterCheck rd) (at_limiterRecord rd) "global"
                               (policyEngine w))))
                  = RateLimiter.activeRequests (PolicyEngine.rateLimiter (policyEngine w))).
  { unfold PolicyEngine.checkRateLimit.
    destruct (_ <? _); [reflexivity|]. destruct (negb _); reflexivity. }
  assert (Huntrack : forall key l,
             RateLimiter.activeRequests (RateLimiter.untrack key l) !! requestId = Some r ->
             key <> requestId /\ RateLimiter.activeRequests l !! requestId = Some r).
  { intros key l. unfold RateLimiter.untrack.
    destruct (RateLimiter.activeRequests l !! key) as [x|] eqn:E; simpl.
    - intros H. apply lookup_delete_Some in H. exact H.
    - intros H. split; [|exact H]. intros ->. congruence. }
  assert (Hcomplete : forall key success l,
             RateLimiter.activeRequests (RateLimiter.completeRequest key success l)
               !! requestId = Some r ->
             key <> requestId /\ RateLimiter.activeRequests l !! requestId = Some r).
  { intros key success l. unfold RateLimiter.completeRequest.
    destruct success; simpl; apply Huntrack. }
  unfold executeTool.
  destruct (executeTool_checks pf tools rd toolName args w) as [[response|tool va rid] w1]
    eqn:Hchecks.
  - (* the call ended in the first segment *)
    revert Hchecks. unfold executeTool_checks.
    destruct (getTool tools toolName) as [tool|]; [|intros H; injection H as _ <-; auto].
    destruct (negb (allowed (PolicyEngine.checkGlobalStepBudget (policyEngine w))));
      [intros H; injection H as _ <-; auto|].
    destruct (PolicyEngine.checkRateLimit _ _ _ _ _) as [rate pe1]. simpl in Hrate.
    destruct (negb (allowed rate));
      [intros H; injection H as _ <-; simpl; rewrite Hrate; auto|].
    destruct (negb (allowed (PolicyEngine.checkFailureThreshold toolName pe1)));
      [intros H; injection H as _ <-; simpl; rewrite Hrate; auto|].
    destruct (inputSchema tool args) as [va|issues]; [discriminate|].
    intros H. injection H as _ <-. cbn [snd policyEngine with_engine].
    rewrite recordToolExecution_rateLimiter. intros Hafter.
    apply Hcomplete in Hafter. rewrite <- Hrate. apply Hafter.
  - destruct (checks_started _ _ _ _ _ _ _ _ _ _ Hchecks) as (_ & _ & _ & _ & _ & Hpe1).
    assert (Hrecord : forall outcome w',
               PolicyEngine.rateLimiter (policyEngine w')
               = PolicyEngine.rateLimiter (policyEngine w1) ->
               RateLimiter.activeRequests
                 (PolicyEngine.rateLimiter
                    (policyEngine (snd (executeTool_record pf rd toolName va rid
                                          outcome w'))))
                 !! requestId = Some r ->
               RateLimiter.activeRequests (PolicyEngine.rateLimiter (policyEngine w))
                 !! requestId = Some r).
    { intros outcome w' Hsame. unfold executeTool_record.
      cbn [snd policyEngine with_engine].
      rewrite recordToolExecution_rateLimiter, Hsame, Hpe1.
      intros Hafter. apply Hcomplete in Hafter. destruct Hafter as [Hne Hafter].
      revert Hafter. unfold PolicyEngine.startToolRequest, RateLimiter.startRequest.
      cbn [PolicyEngine.rateLimiter PolicyEngine.with_rateLimiter
           RateLimiter.activeRequests RateLimiter.with_active].
      assert (Hkey : PolicyEngine.trackingKey toolName (Some rid) = rid).
      { destruct (checks_started _ _ _ _ _ _ _ _ _ _ Hchecks) as (_ & _ & _ & -> & _).
        unfold PolicyEngine.trackingKey.
        rewrite (proj2 (prefixed_id_distinct toolName _)). reflexivity. }
      rewrite Hkey in Hne. rewrite lookup_insert_ne by exact Hne.
      rewrite Hrate. auto. }
    pose proof (dispatch_rateLimiter pf rd tool va w1) as Hd.
    destruct (executeToolWithPolicy_dispatch pf rd tool va w1)
      as [[response|message|cmd hargs] w2]; simpl in Hd.
    + apply Hrecord. exact Hd.
    + apply Hrecord. exact Hd.
    + pose proof (return_rateLimiter rd tool va (handler cmd hargs) w2) as Hr.
      destruct (executeToolWithPolicy_return rd tool va (handler cmd hargs) w2)
        as [outcome w3]. simpl in Hr.
      apply Hrecord. rewrite Hr. exact Hd.
Qed.

(** X24. Request tracking is balanced: however a call of [executeTool]
    ends, it leaves no request tracked that was not tracked before. Under
    every request id the tracking entry is, after the call, either absent
    or the one that was there before; the entry made for the call itself
    is removed when its outcome is recorded. *)
Theorem tracking_is_balanced :
  forall pf tools rd handler toolName args w requestId,
    let after :=
      RateLimiter.activeRequests
        (PolicyEngine.rateLimiter
           (policyEngine (snd (executeTool pf tools rd handler toolName args w)))) in
    after !! requestId = None
    \/ after !! requestId
       = RateLimiter.activeRequests (PolicyEngine.rateLimiter (policyEngine w))
           !! requestId.
Proof.
  intros pf tools rd handler toolName args w requestId after. subst after.
  destruct (RateLimiter.activeRequests
              (PolicyEngine.rateLimiter
                 (policyEngine (snd (executeTool pf tools rd handler toolName args w))))
              !! requestId) as [r|] eqn:E; [|left; reflexivity].
  right. symmetry. eapply tracked_after_was_tracked. exact E.
Qed.

End CallOutcomes.

(** ** Redaction: what the matcher guarantees *)

Section MatcherFacts.
Import Regex.
Variable input : list ascii.

(** A match consumes input from left to right and stays inside it: the
    continuation is entered at an index between the start and the end of
    the input. *)
Lemma m_advances r :
  forall i k e,
    (i <= List.length input)%nat ->
    m input r i k = Some e ->
    exists j, (i <= j <= List.length input)%nat /\ k j = Some e.
Proof.
  induction r as [p | r1 IH1 r2 IH2 | r1 IH1 mn mx | ]; intros i k e Hi H.
  - simpl in H. destruct (nth_error input i) as [c|] eqn:E; [|discriminate].
    destruct (p c); [|discriminate].
    assert (i < List.length input)%nat by (apply nth_error_Some; congruence).
    exists (S i). split; [lia | exact H].
  - simpl in H. apply IH1 in H; [|exact Hi]. destruct H as (j1 & Hj1 & H).
    apply IH2 in H; [|lia]. destruct H as (j2 & Hj2 & H).
    exists j2. split; [lia | exact H].
  - simpl in H. revert H.
    generalize (match mx with
                | Some n => n
                | None => (mn + S (List.length input))%nat
                end) as budget.
    intros budget. revert mn i Hi.
    induction budget as [|budget IHb]; intros mn i Hi H.
    + exists i. split; [lia | exact H].
    + match type of H with
      | match ?t with _ => _ end = _ => destruct t as [e'|] eqn:E
      end.
      * injection H as ->. apply IH1 in E; [|exact Hi].
        destruct E as (j1 & Hj1 & E).
        destruct ((mn =? 0)%nat && (j1 =? i)%nat); [discriminate|].
        apply IHb in E; [|lia]. destruct E as (j2 & Hj2 & E).
        exists j2. split; [lia | exact E].
      * destruct (mn =? 0)%nat; [|discriminate].
        exists i. split; [lia | exact H].
  - simpl in H. destruct (at_boundary input i); [|discriminate].
    exists i. split; [lia | exact H].
Qed.

Lemma search_from_bounds r fuel i st e :
  (i + fuel <= List.length input)%nat ->
  search_from input r fuel i = Some (st, e) ->
  (i <= st <= e)%nat /\ (e <= List.length input)%nat.
Proof.
  revert i. induction fuel as [|fuel IH]; intros i Hi H; simpl in H.
  - destruct (match_at input r i) as [e'|] eqn:E; [|discriminate].
    injection H as <- <-. unfold match_at in E.
    apply m_advances in E; [|lia]. destruct E as (j & Hj & E). injection E as <-. lia.
  - destruct (match_at input r i) as [e'|] eqn:E.
    + injection H as <- <-. unfold match_at in E.
      apply m_advances in E; [|lia]. destruct E as (j & Hj & E). injection E as <-. lia.
    + apply IH in H; lia.
Qed.

Lemma exec_bounds r lastIndex st e :
  exec input r lastIndex = Some (st, e) ->
  (lastIndex <= st <= e)%nat /\ (e <= List.length input)%nat.
Proof.
  unfold exec. destruct (List.length input <? lastIndex)%nat eqn:E; [discriminate|].
  apply Nat.ltb_ge in E. apply search_from_bounds. lia.
Qed.

(** A replacement that keeps the length of each match keeps the length of
    the whole. *)
Lemma replace_from_length r f fuel pos copied :
  (forall mt, List.length (f mt) = List.length mt) ->
  (copied <= pos)%nat -> (copied <= List.length input)%nat ->
  List.length (replace_from r f input fuel pos copied)
  = (List.length input - copied)%nat.
Proof.
  intros Hf. revert pos copied.
  induction fuel as [|fuel IH]; intros pos copied Hpos Hcopied; simpl.
  - apply length_skipn.
  - destruct (exec input r pos) as [[st e]|] eqn:E; [|apply length_skipn].
    apply exec_bounds in E. destruct E as [[Hst He] Hlen].
    rewrite !length_app, Hf, !length_firstn, !length_skipn.
    rewrite IH; [lia | destruct (e =? st)%nat; lia | lia].
Qed.

(** Without a match nothing is replaced. *)
Lemma replace_from_no_match r f fuel :
  exec input r 0 = None -> replace_from r f input (S fuel) 0 0 = input.
Proof. intros H. simpl. rewrite H. reflexivity. Qed.

End MatcherFacts.

Section RedactStringFacts.
Import Regex DataRedactor.

Lemma chars_length s : List.length (JsString.chars s) = String.length s.
Proof. unfold JsString.chars. induction s as [|c s IH]; simpl; [reflexivity | rewrite IH; reflexivity]. Qed.

Lemma of_chars_length l : String.length (JsString.of_chars l) = List.length l.
Proof. unfold JsString.of_chars. induction l as [|c l IH]; simpl; [reflexivity | rewrite IH; reflexivity]. Qed.

Lemma of_chars_chars s : JsString.of_chars (JsString.chars s) = s.
Proof. apply string_of_list_ascii_of_string. Qed.

Lemma repeat_length c n : List.length (JsString.repeat c n) = n.
Proof. induction n as [|n IH]; simpl; [reflexivity | rewrite IH; reflexivity]. Qed.

(** The mask has the length of the match. *)
Lemma mask_length mt : List.length (mask mt) = List.length mt.
Proof.
  unfold mask. destruct (List.length mt <=? 4)%nat eqn:E.
  - apply repeat_length.
  - apply Nat.leb_gt in E.
    rewrite !length_app, length_firstn, repeat_length, length_skipn. lia.
Qed.

Lemma replace_length r s :
  String.length (replace r mask s) = String.length s.
Proof.
  unfold replace. rewrite of_chars_length, replace_from_length.
  - rewrite chars_length. lia.
  - apply mask_length.
  - lia.
  - lia.
Qed.

(** X25. [redactString] returns a string as long as its input: every
    match is replaced by a mask of its own length, whatever the patterns
    of the redactor are. *)
Theorem redactString_keeps_length :
  forall d input, String.length (redactString d input) = String.length input.
Proof.
  intros d input. unfold redactString. generalize (sensitivePatterns d) as ps.
  intros ps. revert input. induction ps as [|p ps IH]; intros input; simpl.
  - reflexivity.
  - rewrite IH. apply replace_length.
Qed.

Lemma test_from_start r s : fst (test r 0 s) = test_anywhere r s.
Proof.
  unfold test, test_anywhere, exec. simpl Nat.ltb. rewrite Nat.sub_0_r.
  destruct (search_from (JsString.chars s) r (List.length (JsString.chars s)) 0)
    as [[st e]|]; reflexivity.
Qed.

Lemma test_failure_resets r li s : fst (test r li s) = false -> snd (test r li s) = O.
Proof.
  unfold test. destruct (exec (JsString.chars s) r li) as [[st e]|]; [discriminate|].
  reflexivity.
Qed.

Lemma some_test_from_start ps s :
  fst (some_test (map (fun p => (fst p, O)) ps) s)
  = existsb (fun p : re * nat => test_anywhere (fst p) s) ps.
Proof.
  induction ps as [|[r li] ps IH]; [reflexivity|].
  simpl. pose proof (test_from_start r s) as Ht.
  destruct (test r 0 s) as [b li']. simpl in Ht. subst b.
  destruct (test_anywhere r s); [reflexivity|].
  destruct (some_test (map (fun p => (fst p, O)) ps) s) as [b' rest'].
  simpl in IH. simpl. exact IH.
Qed.

Lemma some_test_failure_resets ps s :
  fst (some_test ps s) = false ->
  snd (some_test ps s) = map (fun p => (fst p, O)) ps.
Proof.
  induction ps as [|[r li] ps IH]; [reflexivity|].
  simpl. pose proof (test_failure_resets r li s) as Ht.
  destruct (test r li s) as [b li']. simpl in Ht.
  destruct b; [discriminate|].
  destruct (some_test ps s) as [b' rest']. simpl in IH |- *.
  intros Hb. rewrite (IH Hb), (Ht eq_refl). reflexivity.
Qed.

(** X26. When every value pattern stands at [lastIndex] 0, as on a new
    redactor, [containsSensitiveData] answers whether some pattern matches
    somewhere in the string. A call that answers [false] leaves every
    pattern at [lastIndex] 0, so that the call after it answers in that
    way again, whatever was tested before. *)
Theorem containsSensitiveData_from_reset :
  forall d value,
    fst (containsSensitiveData (resetLastIndex d) value)
    = existsb (fun p : re * nat => test_anywhere (fst p) value) (sensitivePatterns d)
    /\ (fst (containsSensitiveData d value) = false ->
        snd (containsSensitiveData d value) = resetLastIndex d
        /\ forall next,
            fst (containsSensitiveData (snd (containsSensitiveData d value)) next)
            = existsb (fun p : re * nat => test_anywhere (fst p) next) (sensitivePatterns d)).
Proof.
  intros d value.
  assert (Hreset : forall d0 v,
             fst (containsSensitiveData (resetLastIndex d0) v)
             = existsb (fun p : re * nat => test_anywhere (fst p) v) (sensitivePatterns d0)).
  { intros d0 v. unfold containsSensitiveData, resetLastIndex. simpl sensitivePatterns.
    pose proof (some_test_from_start (sensitivePatterns d0) v) as H.
    destruct (some_test _ v) as [b ps]. exact H. }
  split; [apply Hreset|].
  intros Hfalse.
  assert (Hsnd : snd (containsSensitiveData d value) = resetLastIndex d).
  { revert Hfalse. unfold containsSensitiveData, resetLastIndex.
    pose proof (some_test_failure_resets (sensitivePatterns d) value) as H.
    destruct (some_test (sensitivePatterns d) value) as [b ps]. simpl in H |- *.
    intros Hb. rewrite (H Hb). reflexivity. }
  split; [exact Hsnd|]. intros next. rewrite Hsnd. apply Hreset.
Qed.

(** X27. A string in which no value pattern matches is returned by
    [redactString] as it is. *)
Theorem redactString_without_match :
  forall d input,
    existsb (fun p : re * nat => test_anywhere (fst p) input) (sensitivePatterns d) = false ->
    redactString d input = input.
Proof.
  intros d input. unfold redactString. generalize (sensitivePatterns d) as ps.
  induction ps as [|[r li] ps IH]; intros H; simpl; [reflexivity|].
  simpl in H. apply orb_false_iff in H. destruct H as [Hr Hps].
  assert (Hsame : replace r mask input = input).
  { unfold replace. rewrite replace_from_no_match; [apply of_chars_chars|].
    unfold test_anywhere in Hr. unfold exec. simpl Nat.ltb. rewrite Nat.sub_0_r.
    destruct (search_from (JsString.chars input) r
                (List.length (JsString.chars input)) 0); [discriminate | reflexivity]. }
  rewrite Hsame. apply IH. exact Hps.
Qed.

End RedactStringFacts.

(** ** Redaction: field names, objects and risk *)

Section FieldNames.
Import Regex DataRedactor.

Lemma eqb_code x y : Ascii.eqb x y = (JsString.code x =? JsString.code y)%nat.
Proof.
  destruct (Ascii.eqb_spec x y) as [->|Hne].
  - symmetry. apply Nat.eqb_refl.
  - symmetry. apply Nat.eqb_neq. intros H. apply Hne.
    rewrite <- (ascii_nat_embedding x), <- (ascii_nat_embedding y).
    unfold JsString.code in H. rewrite H. reflexivity.
Qed.

(** On a lower-case letter of a pattern, the comparison that the [i] flag
    makes is the comparison with the lower-cased character. *)
Lemma fold_case_lower c a :
  is_lower a = true ->
  Ascii.eqb (fold_case c) (fold_case a) = Ascii.eqb a (JsString.lower_char c).
Proof.
  intros Ha. unfold is_lower, JsString.in_range in Ha.
  apply andb_true_iff in Ha. destruct Ha as [Ha1 Ha2].
  apply Nat.leb_le in Ha1. apply Nat.leb_le in Ha2.
  assert (Hfa : fold_case a = a).
  { unfold fold_case, is_upper, JsString.in_range.
    destruct (JsString.code a <=? 90)%nat eqn:E; [apply Nat.leb_le in E; lia|].
    rewrite andb_false_r. reflexivity. }
  rewrite Hfa.
  pose proof (nat_ascii_bounded c) as Hc. fold (JsString.code c) in Hc.
  unfold fold_case, JsString.lower_char, is_upper.
  destruct (JsString.in_range 65 90 c) eqn:Eup; [simpl orb; apply Ascii.eqb_sym|].
  simpl orb.
  destruct (JsString.in_range 192 222 c && negb (JsString.code c =? 215)%nat) eqn:El;
    [|apply Ascii.eqb_sym].
  apply andb_true_iff in El. destruct El as [El _].
  unfold JsString.in_range in El. apply andb_true_iff in El. destruct El as [E1 E2].
  apply Nat.leb_le in E1. apply Nat.leb_le in E2.
  rewrite !eqb_code. unfold JsString.code in *.
  rewrite nat_ascii_embedding by lia.
  destruct (nat_of_ascii c =? nat_of_ascii a)%nat eqn:Ex;
    [apply Nat.eqb_eq in Ex; lia|].
  symmetry. apply Nat.eqb_neq. lia.
Qed.

Lemma nth_error_chars s i :
  nth_error (JsString.chars s) i
  = match JsString.slice i s with String c _ => Some c | EmptyString => None end.
Proof.
  revert s. induction i as [|i IH]; intros [|c r]; try reflexivity.
  apply (IH r).
Qed.

Lemma slice_S s i :
  JsString.slice (S i) s
  = match JsString.slice i s with String _ r => r | EmptyString => EmptyString end.
Proof.
  revert s. induction i as [|i IH]; intros [|c r]; try reflexivity.
  apply (IH r).
Qed.

Lemma slice_all s i : (String.length s <= i)%nat -> JsString.slice i s = "".
Proof.
  revert s. induction i as [|i IH]; intros [|c r] H; try reflexivity.
  - simpl in H. lia.
  - apply (IH r). simpl in H. lia.
Qed.

Lemma startsWith_empty s : JsString.startsWith s "" = true.
Proof. destruct s; reflexivity. Qed.

Section OnePattern.
Variable s : string.

Lemma lit_i_matches p :
  p <> "" -> forallb is_lower (JsString.chars p) = true ->
  forall i k,
    m (JsString.chars s) (lit_i p) i k
    = if JsString.startsWith (JsString.toLowerCase (JsString.slice i s)) p
      then k (i + String.length p)%nat else None.
Proof.
  induction p as [|a p IH]; intros Hne Hlow i k; [contradiction|].
  change (JsString.chars (String a p)) with (a :: JsString.chars p) in Hlow.
  cbn [forallb] in Hlow. apply andb_true_iff in Hlow. destruct Hlow as [Ha Hp].
  destruct p as [|b p'].
  - cbn [lit_i m]. rewrite nth_error_chars.
    destruct (JsString.slice i s) as [|c r]; [reflexivity|].
    cbn [JsString.toLowerCase JsString.startsWith].
    rewrite fold_case_lower by exact Ha. rewrite startsWith_empty, andb_true_r.
    replace (i + String.length (String a ""))%nat with (S i) by (simpl; lia).
    reflexivity.
  - cbn [lit_i m]. rewrite nth_error_chars, IH by (discriminate || exact Hp).
    rewrite slice_S.
    destruct (JsString.slice i s) as [|c r]; [reflexivity|].
    cbn [JsString.toLowerCase].
    change (JsString.startsWith (String (JsString.lower_char c) (JsString.toLowerCase r))
                                (String a (String b p')))
      with (Ascii.eqb a (JsString.lower_char c)
            && JsString.startsWith (JsString.toLowerCase r) (String b p')).
    rewrite fold_case_lower by exact Ha.
    destruct (Ascii.eqb a (JsString.lower_char c)); [|reflexivity].
    replace (i + String.length (String a (String b p')))%nat
      with (S i + String.length (String b p'))%nat by (simpl; lia).
    reflexivity.
Qed.

Lemma search_lit_i p :
  p <> "" -> forallb is_lower (JsString.chars p) = true ->
  forall fuel i,
    (i + fuel = String.length s)%nat ->
    match search_from (JsString.chars s) (lit_i p) fuel i with
    | Some _ => true
    | None => false
    end = JsString.includes (JsString.toLowerCase (JsString.slice i s)) p.
Proof.
  intros Hne Hlow.
  assert (Hempty : JsString.includes "" p = false).
  { destruct p; [contradiction | reflexivity]. }
  induction fuel as [|fuel IH]; intros i Hi.
  - cbn [search_from]. unfold match_at. rewrite lit_i_matches by assumption.
    rewrite slice_all by lia. cbn [JsString.toLowerCase].
    destruct p; [contradiction | reflexivity].
  - cbn [search_from]. unfold match_at. rewrite lit_i_matches by assumption.
    specialize (IH (S i) ltac:(lia)). rewrite slice_S in IH.
    destruct (JsString.slice i s) as [|c r].
    + cbn [JsString.toLowerCase] in IH |- *.
      destruct (JsString.startsWith "" p) eqn:E.
      * destruct p; [contradiction | discriminate].
      * rewrite IH. reflexivity.
    + cbn [JsString.toLowerCase]. cbn [JsString.includes].
      destruct (JsString.startsWith
                  (String (JsString.lower_char c) (JsString.toLowerCase r)) p);
        [reflexivity|].
      rewrite IH. reflexivity.
Qed.

Lemma test_anywhere_lit_i p :
  p <> "" -> forallb is_lower (JsString.chars p) = true ->
  test_anywhere (lit_i p) s = JsString.includes (JsString.toLowerCase s) p.
Proof.
  intros Hne Hlow. unfold test_anywhere. cbv zeta.
  rewrite chars_length.
  apply (search_lit_i p Hne Hlow (String.length s) 0). reflexivity.
Qed.

End OnePattern.

(** X28. For a field name whose code units are all below 256, which are
    the strings of this development and include every ASCII and Latin-1
    name, [isSensitiveField] is true exactly when the lower-cased name
    contains one of the thirteen default patterns ("password", "token",
    "key", "card", ...) as a substring, or when one of the custom
    expressions matches the name. On such a name the case folding of the
    [i] flag and [toLowerCase] agree on every letter of the patterns.
    (Beyond that range they part: the Kelvin sign U+212A is lower-cased to
    [k], and no [k] of a pattern matches it.) *)
Theorem isSensitiveField_is_substring_search :
  forall custom fieldName,
    isSensitiveField (new custom) fieldName
    = existsb (JsString.includes (JsString.toLowerCase fieldName)) SENSITIVE_FIELD_PATTERNS
      || existsb (fun r => test_anywhere r fieldName) custom.
Proof.
  intros custom fieldName. unfold isSensitiveField, new. cbn [sensitiveFieldPatterns].
  rewrite existsb_app. f_equal.
  assert (Hall : Forall (fun p => p <> "" /\ forallb is_lower (JsString.chars p) = true)
                        SENSITIVE_FIELD_PATTERNS).
  { repeat constructor; discriminate. }
  induction Hall as [|p ps [Hne Hlow] _ IH]; [reflexivity|].
  cbn [map existsb]. rewrite IH, test_anywhere_lit_i by assumption. reflexivity.
Qed.

End FieldNames.

Section ObjectShape.
Import DataRedactor.
Variable d : DataRedactor.t.

Lemma assignAll_spreads l acc :
  Js.cleanKeys (acc ++ l) ->
  assignAll d acc l
  = (acc ++ map (fun kv => (fst kv, redactProp d (fst kv) (snd kv))) l)%list.
Proof.
  revert acc. induction l as [|[k y] l IH]; intros acc Hclean; simpl.
  - rewrite app_nil_r. reflexivity.
  - destruct Hclean as [Hnd Hproto]. rewrite map_app in Hnd, Hproto. simpl in Hnd, Hproto.
    rewrite set_fresh.
    + rewrite IH.
      * rewrite <- app_assoc. reflexivity.
      * unfold Js.cleanKeys. rewrite !map_app. simpl. rewrite <- !app_assoc. simpl.
        split; assumption.
    + intros ->. apply Hproto. apply in_or_app. right. left. reflexivity.
    + intros Hin. apply NoDup_app in Hnd. destruct Hnd as (_ & Hdisj & _).
      apply (Hdisj k); [apply list_elem_of_In; exact Hin | left].
Qed.

Lemma get_of_entry (f : string -> value -> value) l key x :
  NoDup (map fst l) -> In (key, x) l ->
  Js.get (map (fun kv => (fst kv, f (fst kv) (snd kv))) l) key = f key x.
Proof.
  induction l as [|[k y] l IH]; intros Hnd Hin; [contradiction|].
  simpl in Hnd. apply NoDup_cons in Hnd. destruct Hnd as [Hk Hnd].
  simpl. destruct Hin as [Heq|Hin].
  - injection Heq as -> ->. rewrite String.eqb_refl. reflexivity.
  - destruct (String.eqb_spec k key) as [->|Hne].
    + exfalso. apply Hk. apply list_elem_of_In. apply in_map_iff.
      exists (key, x). split; [reflexivity | exact Hin].
    + apply IH; assumption.
Qed.

(** X29. [redactObject] keeps the shape of an object: the result has the
    same keys in the same order; the value under each sensitive key is the
    marker "[REDACTED]", whatever it was, and every other value is
    redacted according to its kind (a string by [redactString], an array
    item by item, an object recursively, anything else kept). *)
Theorem redactObject_keeps_shape :
  forall props,
    Js.cleanKeys props ->
    redactObject d (VObj props)
    = VObj (map (fun kv => (fst kv, redactProp d (fst kv) (snd kv))) props)
    /\ forall key x,
        In (key, x) props ->
        match redactObject d (VObj props) with
        | VObj redacted =>
            Js.get redacted key
            = if isSensitiveField d key then VStr "[REDACTED]"
              else match x with
                   | VStr s => VStr (redactString d s)
                   | VArr items => VArr (map (redactItem d) items)
                   | VObj _ => redactObject d x
                   | _ => x
                   end
        | _ => False
        end.
Proof.
  intros props Hclean.
  assert (Hshape : redactObject d (VObj props)
                   = VObj (map (fun kv => (fst kv, redactProp d (fst kv) (snd kv))) props)).
  { rewrite redactObject_VObj. f_equal. apply (assignAll_spreads props []). exact Hclean. }
  split; [exact Hshape|].
  intros key x Hin. rewrite Hshape.
  rewrite (get_of_entry (redactProp d) props key x (proj1 Hclean) Hin).
  reflexivity.
Qed.

End ObjectShape.

Section Risk.
Import DataRedactor.

Lemma rest_is_consistent toolName args url :
  let chk := isSensitiveAction_rest toolName args url in
  (isSensitive chk = false /\ reason chk = None /\ risk chk = low)
  \/ (isSensitive chk = true /\ (exists why, reason chk = Some why) /\ risk chk <> low).
Proof.
  unfold isSensitiveAction_rest. cbv zeta.
  repeat match goal with
         | |- context [if ?b then _ else _] => destruct b
         end;
    first [left; repeat split; reflexivity
          | right; split; [reflexivity|]; split; [eexists; reflexivity | discriminate]].
Qed.

(** The answer of [isSensitiveAction] is consistent: an action that is
    not sensitive has no reason and the risk level "low"; one that is
    sensitive has a reason and the level "medium" or "high". The call
    throws only for [type_text], on a truthy selector or text that cannot
    be converted to a string. *)
Lemma isSensitiveAction_is_consistent :
  forall d toolName args url,
    match fst (isSensitiveAction d toolName args url) with
    | inl chk =>
        (isSensitive chk = false /\ reason chk = None /\ risk chk = low)
        \/ (isSensitive chk = true /\ (exists why, reason chk = Some why)
            /\ risk chk <> low)
    | inr v =>
        toolName = "type_text"
        /\ (v = Js.get args "selector" \/ v = Js.get args "text")
        /\ Js.truthy v = true
        /\ Js.toString v = None
    end.
Proof.
  intros d toolName args url. unfold isSensitiveAction.
  pose proof (rest_is_consistent toolName args url) as Hrest. cbv zeta in Hrest.
  destruct (String.eqb toolName "type_text") eqn:Etool; [|exact Hrest].
  apply String.eqb_eq in Etool.
  assert (Hhigh : forall why,
             (isSensitive (sensitive why high) = false
              /\ reason (sensitive why high) = None /\ risk (sensitive why high) = low)
             \/ (isSensitive (sensitive why high) = true
                 /\ (exists why', reason (sensitive why high) = Some why')
                 /\ risk (sensitive why high) <> low)).
  { intros why. right. split; [reflexivity|].
    split; [eexists; reflexivity | discriminate]. }
  assert (Htext :
            match
              fst (if Js.truthy (Js.get args "text")
                   then match containsSensitiveData_of d (Js.get args "text") with
                        | None => (inr (Js.get args "text"), d)
                        | Some (found, d') =>
                            if found
                            then (inl (sensitive "Text contains sensitive data" high), d')
                            else (inl (isSensitiveAction_rest toolName args url), d')
                        end
                   else (inl (isSensitiveAction_rest toolName args url), d))
            with
            | inl chk =>
                (isSensitive chk = false /\ reason chk = None /\ risk chk = low)
                \/ (isSensitive chk = true /\ (exists why, reason chk = Some why)
                    /\ risk chk <> low)
            | inr v =>
                toolName = "type_text"
                /\ (v = Js.get args "selector" \/ v = Js.get args "text")
                /\ Js.truthy v = true
                /\ Js.toString v = None
            end).
  { destruct (Js.truthy (Js.get args "text")) eqn:Etruthy; [|exact Hrest].
    unfold containsSensitiveData_of.
    destruct (Js.toString (Js.get args "text")) as [s|] eqn:Estring.
    - destruct (containsSensitiveData d s) as [[] d']; [apply Hhigh | exact Hrest].
    - destruct (sensitivePatterns d); [exact Hrest|].
      cbn [fst]. auto. }
  destruct (Js.truthy (Js.get args "selector")) eqn:Etruthy; [|exact Htext].
  unfold isSensitiveField_of.
  destruct (Js.toString (Js.get args "selector")) as [s|] eqn:Estring.
  - destruct (isSensitiveField d s); [apply Hhigh | exact Htext].
  - destruct (sensitiveFieldPatterns d); [exact Htext|].
    cbn [fst]. auto.
Qed.

(** X30. [assessRisk] gives the level "low" exactly when it gives no
    reason; every reason it gives is a string; and its level is "high"
    whenever [isSensitiveAction] rates the action "high". It throws in two
    cases only: for [type_text], on a truthy selector or text that cannot
    be converted to a string, and for one of the four write tools, on a URL
    that does not parse. *)
Theorem assessRisk_levels :
  forall hostname d toolName args url,
    match fst (assessRisk hostname d toolName args url) with
    | inl (level, reasons) =>
        (level = low <-> reasons = [])
        /\ Forall (fun r => r <> None) reasons
        /\ (forall chk,
              fst (isSensitiveAction d toolName args url) = inl chk ->
              risk chk = high -> level = high)
    | inr (NotConvertible v) =>
        toolName = "type_text"
        /\ (v = Js.get args "selector" \/ v = Js.get args "text")
        /\ Js.truthy v = true
        /\ Js.toString v = None
    | inr (InvalidUrl message) =>
        existsb (String.eqb toolName) riskWriteTools = true
        /\ exists u, url = Some u /\ JsString.truthy u = true
                     /\ hostname u = inr message
    end.
Proof.
  intros hostname d toolName args url. unfold assessRisk.
  pose proof (isSensitiveAction_is_consistent d toolName args url) as Hchk.
  destruct (isSensitiveAction d toolName args url) as [[chk|v] d'];
    cbn [fst] in Hchk |- *; [|exact Hchk].
  assert (H1 : exists level1 reasons1,
             (if isSensitive chk
              then (match risk chk with high => high | medium => medium | low => low end,
                    [reason chk])
              else (low, [])) = (level1, reasons1)
             /\ (level1 = low <-> reasons1 = [])
             /\ Forall (fun r => r <> None) reasons1
             /\ (risk chk = high -> level1 = high)).
  { destruct Hchk as [(-> & _ & Hlow) | (-> & (why & Hwhy) & Hrisk)].
    - exists low, []. rewrite Hlow. repeat split; try constructor; discriminate.
    - eexists _, _. split; [reflexivity|]. rewrite Hwhy.
      destruct (risk chk); [contradiction | |];
        (split; [split; discriminate|]); (split; [repeat constructor; discriminate|]);
        [discriminate | reflexivity]. }
  destruct H1 as (level1 & reasons1 & -> & Hlow1 & Hall1 & Hhigh1).
  assert (Hselector : forall level2 reasons2,
             (level2 = low <-> reasons2 = []) ->
             Forall (fun r => r <> None) reasons2 ->
             (risk chk = high -> level2 = high) ->
             match
               match Js.get args "selector" with
               | VStr selector =>
                   if JsString.truthy selector && isSensitiveSelector d' selector
                   then inl (match level2 with high => high | _ => medium end,
                             (reasons2 ++ [Some "Targeting sensitive form field"])%list)
                   else inl (level2, reasons2)
               | _ => @inl _ thrown (level2, reasons2)
               end
             with
             | inl (level, reasons) =>
                 (level = low <-> reasons = [])
                 /\ Forall (fun r => r <> None) reasons
                 /\ (forall chk', @inl _ value chk = inl chk' ->
                                  risk chk' = high -> level = high)
             | inr (NotConvertible v) =>
                 toolName = "type_text"
                 /\ (v = Js.get args "selector" \/ v = Js.get args "text")
                 /\ Js.truthy v = true
                 /\ Js.toString v = None
             | inr (InvalidUrl message) =>
                 existsb (String.eqb toolName) riskWriteTools = true
                 /\ exists u, url = Some u /\ JsString.truthy u = true
                              /\ hostname u = inr message
             end).
  { intros level2 reasons2 Hlow2 Hall2 Hhigh2.
    assert (Hhigh2' : forall chk', @inl _ value chk = inl chk' ->
                                   risk chk' = high -> level2 = high).
    { intros chk' E. injection E as <-. exact Hhigh2. }
    destruct (Js.get args "selector") as [ | | b | n | selector | items | props]; auto.
    destruct (JsString.truthy selector && isSensitiveSelector d' selector); [|auto].
    split; [|split].
    - split.
      + destruct level2; discriminate.
      + intros H. apply app_eq_nil in H. destruct H as [_ H]. discriminate.
    - apply Forall_app. split; [exact Hall2 | repeat constructor; discriminate].
    - intros chk' E H. rewrite (Hhigh2' chk' E H). reflexivity. }
  destruct (existsb (String.eqb toolName) riskWriteTools) eqn:Etool;
    [|apply (Hselector level1 reasons1); assumption].
  destruct url as [u|]; [|apply (Hselector level1 reasons1); assumption].
  destruct (JsString.truthy u) eqn:Etruthy;
    [|apply (Hselector level1 reasons1); assumption].
  cbn [andb]. change (default "" (Some u)) with u.
  destruct (hostname u) as [h|message] eqn:Ehost.
  - destruct (JsString.includes (JsString.toLowerCase h) "bank"
              || JsString.includes (JsString.toLowerCase h) "payment");
      [|apply (Hselector level1 reasons1); assumption].
    apply (Hselector high
             (reasons1 ++ [Some "Write operation on financial domain"])%list).
    + split; [discriminate|]. intros H. apply app_eq_nil in H.
      destruct H as [_ H]. discriminate.
    + apply Forall_app. split; [exact Hall1 | repeat constructor; discriminate].
    + reflexivity.
  - split; [reflexivity|]. exists u. auto.
Qed.

End Risk.

(** ** The properties above at work on concrete runs *)

Lemma domain_step_budget_witness :
  allowed (fst (PolicyEngine.checkDomainPolicy Scenario.platform 20000
                  "http://localhost/page" OpWrite
                  (PolicyEngine.recordExecutions
                     (Scenario.stepAt 1000 :: Scenario.laterSteps) Scenario.engine)))
  = false.
Proof.
  pose proof (domain_step_budget Scenario.platform "http://localhost/page" OpWrite
                Scenario.engine "localhost" "localhost" (Scenario.stepAt 1000)
                Scenario.laterSteps 20000) as H.
  cbv zeta in H.
  destruct H as [Hlive _].
  - vm_compute. reflexivity.
  - reflexivity.
  - reflexivity.
  - vm_compute. reflexivity.
  - vm_compute. reflexivity.
  - vm_compute. exact I.
  - reflexivity.
  - unfold Scenario.laterSteps.
    repeat (constructor; [split; [reflexivity | vm_compute; discriminate]|]).
    constructor.
  - destruct Hlive as [Hallowed _]; [vm_compute; discriminate|].
    rewrite Hallowed. vm_compute. reflexivity.
Defined.

Lemma response_settles_request_witness :
  let sent := WebSocketBridge.sendCommand "msg-7" 2000 2000 None "get_url" (VObj [])
                Scenario.oneClient in
  let st' := WebSocketBridge.handleResponse "client-1" Scenario.titleResponse 2500
               (snd sent) in
  WebSocketBridge.promises st' !! O
  = Some (WebSocketBridge.Fulfilled (VObj [("title", VStr "Home")]))
  /\ (WebSocketBridge.promises st' !! O) ≫= WebSocketBridge.toToolResponse "get_url" 2501
     = Some (VObj [("success", VBool true); ("data", VObj [("title", VStr "Home")]);
                   ("metadata", VObj [("timestamp", VNum 2501)])]).
Proof.
  cbv zeta.
  destruct (response_settles_request "msg-7" 2000 2000 "get_url" (VObj [])
              Scenario.oneClient "client-1" (Scenario.client1 true) []
              "client-1" Scenario.titleResponse 2500 2501)
    as (_ & _ & _ & Hsettled & _ & _ & Hdelivered).
  - reflexivity.
  - reflexivity.
  - vm_compute. discriminate.
  - reflexivity.
  - split; [exact Hsettled | exact Hdelivered].
Defined.

Lemma timeout_rejects_request_witness :
  let sent := WebSocketBridge.sendCommand "msg-7" 2000 2000 None "get_url" (VObj [])
                Scenario.oneClient in
  WebSocketBridge.promises (WebSocketBridge.onTimeout 0 (snd sent)) !! O
  = Some (WebSocketBridge.Rejected "Request timeout after 30000ms").
Proof.
  cbv zeta.
  destruct (timeout_rejects_request "msg-7" 2000 2000 "get_url" (VObj [])
              Scenario.oneClient "client-1" (Scenario.client1 true) [] 32000)
    as (Hrejected & _).
  - reflexivity.
  - reflexivity.
  - exact Hrejected.
Defined.

Lemma failed_send_is_given_up_witness :
  let sent := WebSocketBridge.sendCommand "msg-7" 2000 2000 None "get_url" (VObj [])
                Scenario.closedSocket in
  WebSocketBridge.promises (snd sent) !! O
  = Some (WebSocketBridge.Rejected "WebSocket connection not open")
  /\ WebSocketBridge.pendingRequests (snd sent) = []
  /\ WebSocketBridge.outbox (snd sent) = []
  /\ (WebSocketBridge.promises (snd sent) !! O)
       ≫= WebSocketBridge.toToolResponse "get_url" 2001
     = Some (VObj [("success", VBool false);
                   ("error", VStr "WebSocket connection not open");
                   ("metadata", VObj [("tool", VStr "get_url");
                                      ("timestamp", VNum 2001)])]).
Proof.
  cbv zeta.
  destruct (failed_send_is_given_up "msg-7" 2000 2000 None "get_url" (VObj [])
              Scenario.closedSocket "client-1" (Scenario.client1 false) [] 2001)
    as (_ & Hrejected & _ & _ & Houtbox & Hcaller).
  - reflexivity.
  - left. reflexivity.
  - split; [exact Hrejected|]. split; [vm_compute; reflexivity|].
    split; [exact Houtbox | exact Hcaller].
Defined.

Lemma pending_request_is_unsettled_witness :
  WebSocketBridge.promises Scenario.oldAndNew !! 1%nat = Some WebSocketBridge.Pending
  /\ WebSocketBridge.timers Scenario.oldAndNew !! 1%nat = Some "msg-2".
Proof.
  destruct (pending_request_is_unsettled Scenario.oldAndNew "msg-2"
              (Scenario.request "msg-2" 1 40000))
    as (_ & Hpending & Harmed).
  - unfold Scenario.oldAndNew. eexists. reflexivity.
  - vm_compute. reflexivity.
  - split; [exact Hpending | exact Harmed].
Defined.

Lemma shutdown_rejects_all_pending_witness :
  let st' := WebSocketBridge.close Scenario.twoInFlight in
  WebSocketBridge.promises st' !! O
  = Some (WebSocketBridge.Rejected "Server shutting down")
  /\ WebSocketBridge.promises st' !! 1%nat
     = Some (WebSocketBridge.Rejected "Server shutting down").
Proof.
  assert (Hreach : WebSocketBridge.reachable Scenario.twoInFlight)
    by (unfold Scenario.twoInFlight; eexists; reflexivity).
  destruct (shutdown_rejects_all_pending Scenario.twoInFlight Hreach)
    as (_ & _ & _ & Hall & _).
  assert (H1 : JsMap.get (WebSocketBridge.pendingRequests Scenario.twoInFlight) "msg-1"
               = Some (Scenario.request "msg-1" 0 2000)) by (vm_compute; reflexivity).
  assert (H2 : JsMap.get (WebSocketBridge.pendingRequests Scenario.twoInFlight) "msg-2"
               = Some (Scenario.request "msg-2" 1 2500)) by (vm_compute; reflexivity).
  split.
  - exact (proj1 (Hall "msg-1" _ H1)).
  - exact (proj1 (Hall "msg-2" _ H2)).
Defined.

Lemma stale_requests_expire_witness :
  let st' := WebSocketBridge.cleanupStaleRequests 50000 Scenario.oldAndNew in
  (JsMap.get (WebSocketBridge.pendingRequests st') "msg-1" = None
   /\ WebSocketBridge.promises st' !! O
      = Some (WebSocketBridge.Rejected "Request expired"))
  /\ (JsMap.get (WebSocketBridge.pendingRequests st') "msg-2"
      = Some (Scenario.request "msg-2" 1 40000)
      /\ WebSocketBridge.promises st' !! 1%nat = Some WebSocketBridge.Pending).
Proof.
  assert (Hreach : WebSocketBridge.reachable Scenario.oldAndNew)
    by (unfold Scenario.oldAndNew; eexists; reflexivity).
  assert (H1 : JsMap.get (WebSocketBridge.pendingRequests Scenario.oldAndNew) "msg-1"
               = Some (Scenario.request "msg-1" 0 2000)) by (vm_compute; reflexivity).
  assert (H2 : JsMap.get (WebSocketBridge.pendingRequests Scenario.oldAndNew) "msg-2"
               = Some (Scenario.request "msg-2" 1 40000)) by (vm_compute; reflexivity).
  pose proof (stale_requests_expire 50000 Scenario.oldAndNew "msg-1" _ Hreach H1) as Hold.
  pose proof (stale_requests_expire 50000 Scenario.oldAndNew "msg-2" _ Hreach H2) as Hnew.
  cbv zeta in Hold, Hnew |- *.
  destruct Hold as [Hold _]. destruct Hnew as [_ Hnew].
  destruct Hold as (A & B & _); [vm_compute; reflexivity|].
  destruct Hnew as (C & D & _); [vm_compute; discriminate|].
  auto.
Defined.

Lemma exhausted_budget_refuses_every_call_witness :
  snd (MCPToolRegistry.executeTool Scenario.platform Scenario.tools
         (Scenario.readingsAt 20000) Scenario.remoteOk "click" Scenario.clickButton
         Scenario.spent)
  = Scenario.spent.
Proof.
  apply exhausted_budget_refuses_every_call. vm_compute. discriminate.
Defined.

Lemma denied_domain_skips_handler_witness :
  fst (MCPToolRegistry.executeTool Scenario.platform Scenario.tools
         (Scenario.readingsAt 5000) Scenario.remoteOk "navigate" Scenario.openUnlisted
         Scenario.world)
  = MCPToolRegistry.failure "Domain evil.test is not allowed for write operations"
      [("tool", VStr "navigate"); ("timestamp", VNum 5000);
       ("policyViolation", VBool true); ("domain", VStr "evil.test")].
Proof.
  assert (Hfst : fst (MCPToolRegistry.executeTool_checks Scenario.platform Scenario.tools
                        (Scenario.readingsAt 5000) "navigate" Scenario.openUnlisted
                        Scenario.world)
                 = MCPToolRegistry.Started Scenario.navigateTool Scenario.openUnlisted
                     "navigate_5000_k3j9x2abc")
    by (vm_compute; reflexivity).
  assert (Hchecks : MCPToolRegistry.executeTool_checks Scenario.platform Scenario.tools
                      (Scenario.readingsAt 5000) "navigate" Scenario.openUnlisted
                      Scenario.world
                    = (MCPToolRegistry.Started Scenario.navigateTool Scenario.openUnlisted
                         "navigate_5000_k3j9x2abc",
                       snd (MCPToolRegistry.executeTool_checks Scenario.platform
                              Scenario.tools (Scenario.readingsAt 5000) "navigate"
                              Scenario.openUnlisted Scenario.world))).
  { rewrite <- Hfst. apply surjective_pairing. }
  pose proof (denied_domain_skips_handler Scenario.platform Scenario.tools
                (Scenario.readingsAt 5000) Scenario.remoteOk "navigate"
                Scenario.openUnlisted Scenario.world Scenario.navigateTool
                Scenario.openUnlisted "navigate_5000_k3j9x2abc" _
                "https://evil.test/login" Hchecks eq_refl eq_refl) as H.
  cbv zeta in H.
  destruct H as [Hresult _]; [vm_compute; reflexivity|].
  rewrite Hresult. vm_compute. reflexivity.
Defined.

Lemma invalid_input_is_refused_witness :
  fst (MCPToolRegistry.executeTool Scenario.platform Scenario.strictTools
         (Scenario.readingsAt 5000) Scenario.remoteOk "click" [] Scenario.world)
  = MCPToolRegistry.failure "Invalid input: selector: Required"
      [("tool", VStr "click"); ("timestamp", VNum 5000);
       ("validationError", VBool true)].
Proof.
  destruct (invalid_input_is_refused Scenario.platform Scenario.strictTools
              (Scenario.readingsAt 5000) Scenario.remoteOk "click" [] Scenario.world
              {| MCPToolRegistry.name := "click";
                 MCPToolRegistry.inputSchema :=
                   fun args => match Js.get args "selector" with
                               | VStr _ => MCPToolRegistry.Parsed args
                               | _ => MCPToolRegistry.ZodError [("selector", "Required")]
                               end;
                 MCPToolRegistry.command := "click" |}
              [("selector", "Required")])
    as [Hresult _].
  - reflexivity.
  - vm_compute. reflexivity.
  - reflexivity.
  - exact Hresult.
Defined.

Lemma redactString_without_match_witness :
  DataRedactor.redactString Scenario.redactor "Open the settings page"
  = "Open the settings page".
Proof.
  apply redactString_without_match. vm_compute. reflexivity.
Defined.

Lemma redactObject_keeps_shape_witness :
  DataRedactor.redactObject Scenario.redactor
    (VObj [("password", VStr "hunter2 1234"); ("attempts", VNum 3)])
  = VObj [("password", VStr "[REDACTED]"); ("attempts", VNum 3)].
Proof.
  assert (Hclean : Js.cleanKeys [("password", VStr "hunter2 1234"); ("attempts", VNum 3)]).
  { split.
    - apply NoDup_cons_2; [|apply NoDup_singleton].
      intros H. apply list_elem_of_In in H. destruct H as [H|[]]. discriminate.
    - intros [H|[H|[]]]; discriminate. }
  rewrite (proj1 (redactObject_keeps_shape Scenario.redactor _ Hclean)).
  vm_compute. reflexivity.
Defined.
